(** * Smart_Inventory: the inventory ledger and dispatch engine

    A shallow embedding of the services in [app/services/inventory_service.py],
    [app/services/vehicle_inventory_service.py] and
    [app/services/vehicle_service.py].

    Storage model.  Each MongoDB collection is a list of documents in natural
    (insertion) order.  Documents are never physically deleted by these
    services, so a document's [_id] is its position in its collection:
    [find_one] returns the first match together with its position, and an
    update addressed by [_id] rewrites that position.  [update_one] with a
    filter rewrites the first matching document, as MongoDB does.

    Numbers.  Python [int]s are [Z].  Python [float]s are kept abstract
    behind the class [PyNum]; the code's own arithmetic is the instance on
    the kernel's IEEE binary64 floats ([py_float]), and [py_exact] is exact
    rational arithmetic, used to separate the costing formula from its
    rounding. *)

From Stdlib Require Import ZArith List String Bool Lia QArith Qfield.
From Stdlib Require Import PrimFloat Uint63 Permutation Sorted Relations.
Import ListNotations.

Open Scope string_scope.
Open Scope list_scope.
Open Scope Z_scope.

(** ** Python numbers *)

Class PyNum (R : Type) := {
  py_zero : R;
  py_add : R -> R -> R;
  py_mul : R -> R -> R;
  py_div : R -> R -> R;
  (** [float(n)] for a Python [int] [n] *)
  py_of_int : Z -> R;
  (** Python truthiness of a float: [x or y] is [x] when [py_truthy x] *)
  py_truthy : R -> bool
}.

(** [float(n)]: exact for the magnitudes below 2^53 that quantities have. *)
Definition float_of_Z (z : Z) : float :=
  if z <? 0 then PrimFloat.opp (PrimFloat.of_uint63 (Uint63.of_Z (- z)))
  else PrimFloat.of_uint63 (Uint63.of_Z z).

#[export] Instance py_float : PyNum float := {
  py_zero := 0%float;
  py_add := PrimFloat.add;
  py_mul := PrimFloat.mul;
  py_div := PrimFloat.div;
  py_of_int := float_of_Z;
  py_truthy := fun x => negb (PrimFloat.eqb x 0%float)
}.

#[export] Instance py_exact : PyNum Q := {
  py_zero := 0%Q;
  py_add := Qplus;
  py_mul := Qmult;
  py_div := Qdiv;
  py_of_int := inject_Z;
  py_truthy := fun x => negb (Qeq_bool x 0)
}.

(** ** Documents *)

Set Implicit Arguments.

Inductive batch_status := active | depleted | archived.

Definition is_active (s : batch_status) : bool :=
  match s with active => true | _ => false end.

(** A document of [InventoryBatches].  Fields a document may lack (a batch
    created by the receiving upsert has only the fields of its filter,
    [Quantity], [status] and [last_updated]) are options. *)
Record batch (R : Type) := mkBatch {
  Product_ID : string;
  Hub_ID : string;
  Batch_No : string;
  Quantity : Z;
  Expiry_Date : option Z;
  Purchase_Value : option R;
  Purchase_Unit_Price : option R;
  status : batch_status;
  created_at : option Z;
  last_updated : Z
}.
Arguments mkBatch {R}.

Inductive txn_type := IN | OUT | ADJUSTMENT | ARCHIVE.

(** A document of [StockTransactions] (its generated id, timestamp and
    remarks are not modelled). *)
Record stock_txn (R : Type) := mkTxn {
  tx_type : txn_type;
  tx_product : string;
  tx_hub : string;
  tx_batch_no : string;
  tx_quantity : Z;
  tx_unit_price : R;
  tx_total_value : R;
  tx_reference : option string
}.
Arguments mkTxn {R}.

(** An entry [{Batch_No, Qty, Unit_Cost}] of a dispatch's consumption trace. *)
Record consumption (R : Type) := mkConsumption {
  c_Batch_No : string;
  c_Qty : Z;
  c_Unit_Cost : R
}.
Arguments mkConsumption {R}.

(** A document of [Dispatches]. *)
Record dispatch (R : Type) := mkDispatch {
  dispatch_id : string;
  d_Product_ID : string;
  From_Hub_ID : string;
  To_Hub_ID : string;
  d_Quantity : Z;
  Batch_Consumption : list (consumption R);
  Vehicle_Assigned : string;
  Driver_Assigned : string;
  Status : string;
  Arrival_Time : option Z
}.
Arguments mkDispatch {R}.

Record driver := mkDriver {
  driver_id : string;
  name : string;
  driver_status : string
}.

Record vehicle := mkVehicle {
  Vehicle_ID : string;
  vehicle_Status : string
}.

(** The collections the core reads and writes.  [products] holds the
    [Product_ID]s of [InventoryProducts]; the other master fields of a
    product do not bear on stock. *)
Record db (R : Type) := mkDb {
  hubs : list string;
  products : list string;
  batches : list (batch R);
  stock_txns : list (stock_txn R);
  dispatches : list (dispatch R);
  drivers : list driver;
  vehicles : list vehicle
}.
Arguments mkDb {R}.

Unset Implicit Arguments.

(** Errors.  The Python code raises [ValueError] for a missing hub or
    product and for insufficient stock (its message carries the requested
    and available amounts), [HTTPException] 404 for a missing dispatch and
    400 for a dispatch that is not in transit, and lets [DuplicateKeyError]
    escape from [update_inventory]. *)
Inductive service_error :=
| HubNotFound (hub : string)
| ProductNotFound (product : string)
| InsufficientStock (requested available : Z)
| DispatchNotFound (id : string)
| InvalidState (current_status : string)
| DuplicateKeyError.

Inductive result (A : Type) :=
| Ok (a : A)
| Err (e : service_error).
Arguments Ok {A}.
Arguments Err {A}.

(** ** Collection primitives *)

Fixpoint find_one_from {A} (f : A -> bool) (l : list A) (i : nat)
  : option (nat * A) :=
  match l with
  | [] => None
  | x :: r => if f x then Some (i, x) else find_one_from f r (S i)
  end.

(** [collection.find_one(filter)]: the first match and its [_id]. *)
Definition find_one {A} (f : A -> bool) (l : list A) : option (nat * A) :=
  find_one_from f l 0.

(** [update_one({"_id": i}, ...)]: no document is touched when none has that id. *)
Fixpoint update_at {A} (i : nat) (g : A -> A) (l : list A) : list A :=
  match l, i with
  | [], _ => []
  | x :: r, O => g x :: r
  | x :: r, S j => x :: update_at j g r
  end.

(** [update_one(filter, ...)]: rewrites the first match. *)
Definition update_one {A} (f : A -> bool) (g : A -> A) (l : list A) : list A :=
  match find_one f l with
  | Some (i, _) => update_at i g l
  | None => l
  end.

Fixpoint indexed_from {A} (i : nat) (l : list A) : list (nat * A) :=
  match l with
  | [] => []
  | x :: r => (i, x) :: indexed_from (S i) r
  end.

Definition indexed {A} (l : list A) := indexed_from 0 l.

Definition hub_exists (h : string) (hs : list string) : bool :=
  existsb (String.eqb h) hs.

Definition default {A} (d : A) (o : option A) : A :=
  match o with Some x => x | None => d end.

Definition opt_Z_eqb (a b : option Z) : bool :=
  match a, b with
  | None, None => true
  | Some x, Some y => x =? y
  | _, _ => false
  end.

(** ** Batch updates *)

Section BatchUpdates.
Context {R : Type} `{PyNum R}.

(** [{"$inc": {"Quantity": d}, "$set": {"last_updated": now}}] *)
Definition inc_quantity (d now : Z) (b : batch R) : batch R :=
  mkBatch (Product_ID b) (Hub_ID b) (Batch_No b) (Quantity b + d)
    (Expiry_Date b) (Purchase_Value b) (Purchase_Unit_Price b)
    (status b) (created_at b) now.

(** [{"$set": {"status": st, "last_updated": now}}] *)
Definition set_status (st : batch_status) (now : Z) (b : batch R) : batch R :=
  mkBatch (Product_ID b) (Hub_ID b) (Batch_No b) (Quantity b)
    (Expiry_Date b) (Purchase_Value b) (Purchase_Unit_Price b)
    st (created_at b) now.

(** [$inc] of a float field that may be absent (absent counts as 0). *)
Definition inc_value (v : R) (o : option R) : option R :=
  match o with Some x => Some (py_add x v) | None => Some v end.

(** The merge update of [register_inventory] and [update_inventory]:
    [{"$inc": {"Quantity": q, "Purchase_Value": v},
      "$set": {"Purchase_Unit_Price": p, "last_updated": now}}] *)
Definition merge_batch (q : Z) (v p : R) (now : Z) (b : batch R) : batch R :=
  mkBatch (Product_ID b) (Hub_ID b) (Batch_No b) (Quantity b + q)
    (Expiry_Date b) (inc_value v (Purchase_Value b)) (Some p)
    (status b) (created_at b) now.

(** The fallback merge after a [DuplicateKeyError] in [register_inventory]:
    [{"$inc": {"Quantity": q, "Purchase_Value": v}, "$set": {"last_updated": now}}] *)
Definition fallback_merge (q : Z) (v : R) (now : Z) (b : batch R) : batch R :=
  mkBatch (Product_ID b) (Hub_ID b) (Batch_No b) (Quantity b + q)
    (Expiry_Date b) (inc_value v (Purchase_Value b)) (Purchase_Unit_Price b)
    (status b) (created_at b) now.

(** The receiving upsert on an existing batch:
    [{"$inc": {"Quantity": q}, "$set": {"status": "active", "last_updated": now}}] *)
Definition receive_batch (q now : Z) (b : batch R) : batch R :=
  mkBatch (Product_ID b) (Hub_ID b) (Batch_No b) (Quantity b + q)
    (Expiry_Date b) (Purchase_Value b) (Purchase_Unit_Price b)
    active (created_at b) now.

End BatchUpdates.

(** ** Available stock: [_get_total_available] *)

Definition batch_key {R} (p h : string) (b : batch R) : bool :=
  String.eqb (Product_ID b) p && String.eqb (Hub_ID b) h.

Definition sum_quantity {R} (bs : list (batch R)) : Z :=
  fold_right (fun b acc => Quantity b + acc) 0 bs.

(** [$match] on product, hub and [status: "active"], then [$sum] of [Quantity]. *)
Definition total_available {R} (p h : string) (bs : list (batch R)) : Z :=
  sum_quantity (filter (fun b => batch_key p h b && is_active (status b)) bs).

(** ** FIFO consumption: [dispatch_inventory] *)

(** MongoDB's ascending order on a date field that may be missing:
    a missing value sorts first. *)
Definition opt_lt (a b : option Z) : bool :=
  match a, b with
  | None, Some _ => true
  | Some x, Some y => x <? y
  | _, _ => false
  end.

Definition opt_le (a b : option Z) : bool := opt_lt a b || opt_Z_eqb a b.

(** The sort key [[("Expiry_Date", 1), ("created_at", 1)]]. *)
Definition fifo_le {R} (x y : nat * batch R) : bool :=
  let b1 := snd x in let b2 := snd y in
  opt_lt (Expiry_Date b1) (Expiry_Date b2)
  || (opt_Z_eqb (Expiry_Date b1) (Expiry_Date b2)
      && opt_le (created_at b1) (created_at b2)).

Fixpoint insert_sorted {A} (le : A -> A -> bool) (x : A) (l : list A) : list A :=
  match l with
  | [] => [x]
  | y :: r => if le x y then x :: y :: r else y :: insert_sorted le x r
  end.

(** A stable sort; documents with equal keys keep their natural order. *)
Fixpoint sort_by {A} (le : A -> A -> bool) (l : list A) : list A :=
  match l with
  | [] => []
  | x :: r => insert_sorted le x (sort_by le r)
  end.

(** The cursor of [dispatch_inventory]: [find({"Product_ID": p, "Hub_ID": h,
    "status": "active", "Quantity": {"$gt": 0}}).sort(...)], each document
    with its [_id]. *)
Definition fifo_match {R} (p h : string) (ib : nat * batch R) : bool :=
  batch_key p h (snd ib) && is_active (status (snd ib)) && (0 <? Quantity (snd ib)).

Definition fifo_cursor {R} (p h : string) (bs : list (batch R))
  : list (nat * batch R) :=
  sort_by fifo_le (filter (fifo_match p h) (indexed bs)).

Section Dispatch.
Context {R : Type} `{PyNum R}.

(** The [async for batch in cursor] loop.  The cursor holds the documents as
    read; the decrements go to the live collection [bs].  Returns the
    collection, the transaction log, the consumption trace and [remaining]. *)
Fixpoint consume_fifo (p from_hub : string) (now : Z)
    (cursor : list (nat * batch R)) (remaining : Z)
    (bs : list (batch R)) (txs : list (stock_txn R))
    (trace : list (consumption R))
  : list (batch R) * list (stock_txn R) * list (consumption R) * Z :=
  match cursor with
  | [] => (bs, txs, trace, remaining)
  | (i, b) :: rest =>
      if remaining <=? 0 then (bs, txs, trace, remaining)
      else
        let available_in_batch := Quantity b in
        if available_in_batch <=? 0
        then consume_fifo p from_hub now rest remaining bs txs trace
        else
          let take := if available_in_batch <=? remaining
                      then available_in_batch else remaining in
          (* update_one({"_id"}, {"$inc": {"Quantity": -take}, ...}) *)
          let bs1 := update_at i (inc_quantity (- take) now) bs in
          (* re-read; mark depleted when the quantity is <= 0 *)
          let bs2 := match nth_error bs1 i with
                     | Some nb => if Quantity nb <=? 0
                                  then update_at i (set_status depleted now) bs1
                                  else bs1
                     | None => bs1
                     end in
          let unit_cost := default py_zero (Purchase_Unit_Price b) in
          let txn := mkTxn OUT p from_hub (Batch_No b) take unit_cost
                       (py_mul unit_cost (py_of_int take)) None in
          consume_fifo p from_hub now rest (remaining - take) bs2
            (txs ++ [txn]) (trace ++ [mkConsumption (Batch_No b) take unit_cost])
  end.

Record dispatch_result := mkDispatchResult {
  r_dispatch_id : string;
  r_Batch_Consumption : list (consumption R);
  r_Remaining_Quantity : Z
}.

(** The reads of [dispatch_inventory] before its first write: both hubs
    exist, the availability check, and the FIFO cursor. *)
Definition dispatch_read (p from_hub to_hub : string) (qty_to_dispatch : Z)
    (s : db R) : result (list (nat * batch R)) :=
  if negb (hub_exists from_hub (hubs s)) then Err (HubNotFound from_hub)
  else if negb (hub_exists to_hub (hubs s)) then Err (HubNotFound to_hub)
  else
    let total := total_available p from_hub (batches s) in
    if total <? qty_to_dispatch then Err (InsufficientStock qty_to_dispatch total)
    else Ok (fifo_cursor p from_hub (batches s)).

(** The writes of [dispatch_inventory], given the cursor it read: the
    consumption loop, the [Dispatches] record in [In-Progress] with the
    unassigned sentinels, and the availability re-read for the response. *)
Definition dispatch_write (p from_hub to_hub : string) (qty_to_dispatch : Z)
    (new_id : string) (now : Z) (cursor : list (nat * batch R)) (s : db R)
  : dispatch_result * db R :=
  let '(bs, txs, trace, _) :=
    consume_fifo p from_hub now cursor qty_to_dispatch (batches s) (stock_txns s) [] in
  let disp := mkDispatch new_id p from_hub to_hub qty_to_dispatch trace
                "In-Progress" "In-Progress" "In-Progress" None in
  (mkDispatchResult new_id trace (total_available p from_hub bs),
   mkDb (hubs s) (products s) bs txs (dispatches s ++ [disp])
     (drivers s) (vehicles s)).

(** [dispatch_inventory(payload)]; [new_id] is the generated dispatch id. *)
Definition dispatch_inventory (p from_hub to_hub : string) (qty_to_dispatch : Z)
    (new_id : string) (now : Z) (s : db R) : result (dispatch_result * db R) :=
  match dispatch_read p from_hub to_hub qty_to_dispatch s with
  | Err e => Err e
  | Ok cursor => Ok (dispatch_write p from_hub to_hub qty_to_dispatch new_id now cursor s)
  end.

End Dispatch.
Arguments dispatch_result R : clear implicits.

(** ** Python text: [str.strip] and [_normalize_id] *)

(** A Python [str] is held as the UTF-8 encoding of its code points, the
    form in which the JSON request body carries it and MongoDB stores it.
    [str_take] and [str_drop] are [s[:n]] and [s[n:]] on those bytes. *)
Fixpoint str_take (n : nat) (s : string) : string :=
  match n, s with
  | O, _ | _, EmptyString => EmptyString
  | S n, String a r => String a (str_take n r)
  end.

Fixpoint str_drop (n : nat) (s : string) : string :=
  match n, s with
  | O, _ => s
  | _, EmptyString => EmptyString
  | S n, String a r => str_drop n r
  end.

(** The number of bytes of the UTF-8 sequence that a lead byte starts; a
    byte that cannot start one stands alone. *)
Definition utf8_len (a : Ascii.ascii) : nat :=
  let n := Ascii.nat_of_ascii a in
  if Nat.ltb n 192 then 1
  else if Nat.ltb n 224 then 2
  else if Nat.ltb n 240 then 3
  else if Nat.ltb n 248 then 4
  else 1.

(** The characters of a string, each as its UTF-8 bytes.  Every step takes
    at least one byte, so the length of the string is enough fuel. *)
Fixpoint utf8_chars_fuel (fuel : nat) (s : string) : list string :=
  match s with
  | EmptyString => []
  | String a r =>
      match fuel with
      | O => [s]
      | S f =>
          let k := Nat.pred (utf8_len a) in
          String a (str_take k r) :: utf8_chars_fuel f (str_drop k r)
      end
  end.

Definition utf8_chars (s : string) : list string :=
  utf8_chars_fuel (String.length s) s.

Definition concat_str (cs : list string) : string :=
  fold_right String.append EmptyString cs.

Definition byte_val (a : Ascii.ascii) : Z := Z.of_nat (Ascii.nat_of_ascii a).

Definition byte_of (z : Z) : Ascii.ascii := Ascii.ascii_of_nat (Z.to_nat z).

(** The code point of one character ([-1] for a byte sequence of no
    length from one to four). *)
Definition utf8_decode (c : string) : Z :=
  match list_ascii_of_string c with
  | [a] => byte_val a
  | [a; b] => Z.lor (Z.shiftl (Z.land (byte_val a) 31) 6) (Z.land (byte_val b) 63)
  | [a; b; d] =>
      Z.lor (Z.shiftl (Z.land (byte_val a) 15) 12)
        (Z.lor (Z.shiftl (Z.land (byte_val b) 63) 6) (Z.land (byte_val d) 63))
  | [a; b; d; e] =>
      Z.lor (Z.shiftl (Z.land (byte_val a) 7) 18)
        (Z.lor (Z.shiftl (Z.land (byte_val b) 63) 12)
           (Z.lor (Z.shiftl (Z.land (byte_val d) 63) 6) (Z.land (byte_val e) 63)))
  | _ => -1
  end.

Definition utf8_encode (cp : Z) : string :=
  let cont k := byte_of (Z.lor 128 (Z.land (Z.shiftr cp k) 63)) in
  if cp <? 128 then String (byte_of cp) EmptyString
  else if cp <? 2048 then
    String (byte_of (Z.lor 192 (Z.shiftr cp 6))) (String (cont 0) EmptyString)
  else if cp <? 65536 then
    String (byte_of (Z.lor 224 (Z.shiftr cp 12)))
      (String (cont 6) (String (cont 0) EmptyString))
  else
    String (byte_of (Z.lor 240 (Z.shiftr cp 18)))
      (String (cont 12) (String (cont 6) (String (cont 0) EmptyString))).

(** The code points for which [str.isspace] holds (Python 3.11, Unicode
    14.0); [str.strip()] with no argument removes exactly these. *)
Definition py_whitespace : list Z :=
  [9; 10; 11; 12; 13; 28; 29; 30; 31; 32; 133; 160; 5760;
   8192; 8193; 8194; 8195; 8196; 8197; 8198; 8199; 8200; 8201; 8202;
   8232; 8233; 8239; 8287; 12288].

(** [c.isspace()] on one character. *)
Definition py_isspace (c : string) : bool :=
  existsb (fun cp => String.eqb c (utf8_encode cp)) py_whitespace.

Fixpoint drop_space (cs : list string) : list string :=
  match cs with
  | [] => []
  | c :: r => if py_isspace c then drop_space r else cs
  end.

(** [s.strip()]: leading whitespace characters off, then trailing ones. *)
Definition py_strip (s : string) : string :=
  concat_str (rev (drop_space (rev (drop_space (utf8_chars s))))).

(** [_normalize_id(s)] of [app/utiles/custom_helpers.py]. *)
Definition _normalize_id (s : string) : string := py_strip s.

(** A character list that does not start with whitespace. *)
Definition no_lead (cs : list string) : Prop :=
  match cs with c :: _ => py_isspace c = false | [] => True end.

(** ** Stock-in: [register_inventory] and [update_inventory] *)

Section StockIn.
Context {R : Type} `{PyNum R}.

(** The fields of [RegisterInventory] that bear on stock (after the
    validators' [strip]).  [Quantity > 0] and [Value >= 0] are checked by the
    schema. *)
Record register_payload := mkRegister {
  rg_Hub_ID : string;
  rg_Product_ID : string;
  rg_Quantity : Z;
  rg_Value : R;
  rg_Expiry_Date : Z;
  rg_Batch_No : option string;
  rg_Purchase_Ref : option string
}.

(** [payload.Batch_No.strip() if payload.Batch_No else None], then used
    under [if batch_no:]: a batch number that is empty after the strip
    counts as none. *)
Definition given_batch_no (o : option string) : option string :=
  match o with
  | Some s => let t := py_strip s in if String.eqb t "" then None else Some t
  | None => None
  end.

Definition batch_no_filter (p h bn : string) (b : batch R) : bool :=
  batch_key p h b && String.eqb (Batch_No b) bn.

Definition expiry_filter (p h : string) (e : Z) (b : batch R) : bool :=
  batch_key p h b && opt_Z_eqb (Expiry_Date b) (Some e) && is_active (status b).

(** [register_inventory(payload)]; [gen_no] is the batch number the code
    generates from the clock and a uuid.  Returns the batch number used. *)
Definition register_inventory (pl : register_payload) (gen_no : string)
    (now : Z) (s : db R) : result (string * db R) :=
  let hub_id := rg_Hub_ID pl in
  let product_id := rg_Product_ID pl in
  if negb (hub_exists hub_id (hubs s)) then Err (HubNotFound hub_id) else
  let prods := if existsb (String.eqb product_id) (products s)
               then products s else products s ++ [product_id] in
  let batch_no := given_batch_no (rg_Batch_No pl) in
  let existing_batch :=
    match batch_no with
    | Some bn => find_one (batch_no_filter product_id hub_id bn) (batches s)
    | None => find_one (expiry_filter product_id hub_id (rg_Expiry_Date pl)) (batches s)
    end in
  let q := rg_Quantity pl in
  let unit_price := if 0 <? q then py_div (rg_Value pl) (py_of_int q) else py_zero in
  let '(bs, batch_no_used) :=
    match existing_batch with
    | Some (i, b) =>
        let old_qty := Quantity b in
        let new_qty := old_qty + q in
        let new_unit_price :=
          if 0 <? new_qty
          then py_div (py_add (py_mul (default py_zero (Purchase_Unit_Price b)) (py_of_int old_qty))
                              (py_mul unit_price (py_of_int q)))
                      (py_of_int new_qty)
          else unit_price in
        (update_at i (merge_batch q (rg_Value pl) new_unit_price now) (batches s), Batch_No b)
    | None =>
        let bn := default gen_no batch_no in
        (* insert_one; the unique index on (Product_ID, Hub_ID, Batch_No)
           raises DuplicateKeyError, handled by the fallback merge *)
        match find_one (batch_no_filter product_id hub_id bn) (batches s) with
        | None =>
            (batches s ++ [mkBatch product_id hub_id bn q (Some (rg_Expiry_Date pl))
                             (Some (rg_Value pl)) (Some unit_price) active (Some now) now], bn)
        | Some (i, _) => (update_at i (fallback_merge q (rg_Value pl) now) (batches s), bn)
        end
    end in
  let txn := mkTxn IN product_id hub_id batch_no_used q unit_price (rg_Value pl)
               (rg_Purchase_Ref pl) in
  Ok (batch_no_used,
      mkDb (hubs s) prods bs (stock_txns s ++ [txn]) (dispatches s) (drivers s) (vehicles s)).

(** The fields of [UpdateInventory] that bear on stock. *)
Record update_payload := mkUpdate {
  up_Hub_ID : string;
  up_Product_ID : string;
  up_Quantity : option Z;
  up_Value : option R;
  up_Expiry_Date : option Z;
  up_Batch_No : option string
}.

(** Python's [x or y] on optional floats. *)
Definition py_or (x : option R) (y : R) : R :=
  match x with Some v => if py_truthy v then v else y | None => y end.

(** [update_inventory(payload)]: the master-field updates are left out; the
    stock part is modelled.  Returns the batch number used, or [None] when
    no quantity was given. *)
Definition update_inventory (pl : update_payload) (gen_no : string) (now : Z)
    (s : db R) : result (option string * db R) :=
  let hub_id := _normalize_id (up_Hub_ID pl) in
  let product_id := _normalize_id (up_Product_ID pl) in
  if negb (hub_exists hub_id (hubs s)) then Err (HubNotFound hub_id) else
  if negb (existsb (String.eqb product_id) (products s)) then Err (ProductNotFound product_id) else
  match up_Quantity pl with
  | None => Ok (None, s)
  | Some q =>
    if q =? 0 then Ok (None, s) else
    let expiry_dt := up_Expiry_Date pl in
    let batch_no := given_batch_no (up_Batch_No pl) in
    let unit_price := match up_Value pl with
                      | Some v => Some (py_div v (py_of_int q))
                      | None => None
                      end in
    let existing_batch :=
      match batch_no, expiry_dt with
      | Some bn, _ => find_one (batch_no_filter product_id hub_id bn) (batches s)
      | None, Some e => find_one (expiry_filter product_id hub_id e) (batches s)
      | None, None => None
      end in
    let value := py_or (up_Value pl) py_zero in
    let txn bn := mkTxn IN product_id hub_id bn q (py_or unit_price py_zero) value None in
    match existing_batch with
    | Some (i, b) =>
        let old_qty := Quantity b in
        let new_qty := old_qty + q in
        let old_price := default py_zero (Purchase_Unit_Price b) in
        let new_unit_price :=
          if 0 <? new_qty
          then py_div (py_add (py_mul old_price (py_of_int old_qty))
                              (py_mul (py_or unit_price old_price) (py_of_int q)))
                      (py_of_int new_qty)
          else py_or unit_price old_price in
        Ok (Some (Batch_No b),
            mkDb (hubs s) (products s)
              (update_at i (merge_batch q value new_unit_price now) (batches s))
              (stock_txns s ++ [txn (Batch_No b)]) (dispatches s) (drivers s) (vehicles s))
    | None =>
        let bn := default gen_no batch_no in
        match find_one (batch_no_filter product_id hub_id bn) (batches s) with
        | Some _ => Err DuplicateKeyError
        | None =>
            Ok (Some bn,
                mkDb (hubs s) (products s)
                  (batches s ++ [mkBatch product_id hub_id bn q expiry_dt (Some value)
                                   (Some (py_or unit_price py_zero)) active (Some now) now])
                  (stock_txns s ++ [txn bn]) (dispatches s) (drivers s) (vehicles s))
        end
    end
  end.

End StockIn.
Arguments register_payload R : clear implicits.
Arguments update_payload R : clear implicits.

(** ** Receiving: [mark_dispatch_received_service] *)

(** The filter [{"dispatch_id": id}]. *)
Definition dispatch_by_id {R} (id : string) (d : dispatch R) : bool :=
  String.eqb (dispatch_id d) id.


Section Receive.
Context {R : Type} `{PyNum R}.

(** [update_one({"Product_ID": p, "Hub_ID": to, "Batch_No": bn},
    {"$inc": {"Quantity": qty}, "$set": {"status": "active", ...}}, upsert=True)].
    An upserted document gets the filter's fields and the update's. *)
Definition upsert_received (p to_hub : string) (now : Z) (bs : list (batch R))
    (c : consumption R) : list (batch R) :=
  match find_one (batch_no_filter p to_hub (c_Batch_No c)) bs with
  | Some (i, _) => update_at i (receive_batch (c_Qty c) now) bs
  | None => bs ++ [mkBatch p to_hub (c_Batch_No c) (c_Qty c) None None None active None now]
  end.

(** Step 2 of the service: one IN transaction and one upsert per entry of
    the stored consumption trace. *)
Fixpoint credit_destination (id p to_hub : string) (now : Z)
    (trace : list (consumption R)) (bs : list (batch R)) (txs : list (stock_txn R))
  : list (batch R) * list (stock_txn R) :=
  match trace with
  | [] => (bs, txs)
  | c :: rest =>
      let txn := mkTxn IN p to_hub (c_Batch_No c) (c_Qty c) (c_Unit_Cost c)
                   (py_mul (c_Unit_Cost c) (py_of_int (c_Qty c))) (Some id) in
      credit_destination id p to_hub now rest
        (upsert_received p to_hub now bs c) (txs ++ [txn])
  end.

Definition receive_credit (id : string) (d : dispatch R) (now : Z) (s : db R) : db R :=
  let '(bs, txs) := credit_destination id (d_Product_ID d) (To_Hub_ID d) now
                      (Batch_Consumption d) (batches s) (stock_txns s) in
  mkDb (hubs s) (products s) bs txs (dispatches s) (drivers s) (vehicles s).

(** Step 3: the driver back to ["active"], the vehicle back to ["Available"]. *)
Definition receive_release (d : dispatch R) (s : db R) : db R :=
  mkDb (hubs s) (products s) (batches s) (stock_txns s) (dispatches s)
    (update_one (fun dr => String.eqb (driver_id dr) (Driver_Assigned d))
       (fun dr => mkDriver (driver_id dr) (name dr) "active") (drivers s))
    (update_one (fun v => String.eqb (Vehicle_ID v) (Vehicle_Assigned d))
       (fun v => mkVehicle (Vehicle_ID v) "Available") (vehicles s)).

Definition complete_dispatch (now : Z) (d : dispatch R) : dispatch R :=
  mkDispatch (dispatch_id d) (d_Product_ID d) (From_Hub_ID d) (To_Hub_ID d)
    (d_Quantity d) (Batch_Consumption d) (Vehicle_Assigned d) (Driver_Assigned d)
    "Completed" (Some now).

(** Step 4: the dispatch to ["Completed"], stamping the arrival time. *)
Definition receive_complete (id : string) (now : Z) (s : db R) : db R :=
  mkDb (hubs s) (products s) (batches s) (stock_txns s)
    (update_one (dispatch_by_id id) (complete_dispatch now)
       (dispatches s))
    (drivers s) (vehicles s).

(** Step 1, the checks: the dispatch read for the given id. *)
Definition receive_read (id : string) (s : db R) : result (dispatch R) :=
  match find_one (dispatch_by_id id) (dispatches s) with
  | None => Err (DispatchNotFound id)
  | Some (_, d) =>
      if String.eqb (Status d) "In-Transit" then Ok d else Err (InvalidState (Status d))
  end.

Definition mark_dispatch_received_service (id : string) (now : Z) (s : db R)
  : result (db R) :=
  match receive_read id s with
  | Err e => Err e
  | Ok d => Ok (receive_complete id now (receive_release d (receive_credit id d now s)))
  end.

End Receive.

(** ** Resource assignment: [dispatch_vehicle_service] (assignResources) *)

Inductive assign_outcome :=
| NoDispatchPending            (* "No need to dispatch vehicle" *)
| NoDriverAvailable            (* "... but no driver available" *)
| NoVehicleAvailable           (* "... but no vehicle available" *)
| AssignedResources (vehicle_id driver_name : string).

(** The filters [{"Status": "In-Progress"}], [{"status": "active"}] and
    [{"Status": "Available"}]. *)
Definition in_progress {R} (d : dispatch R) : bool := String.eqb (Status d) "In-Progress".
Definition idle_driver (dr : driver) : bool := String.eqb (driver_status dr) "active".
Definition idle_vehicle (v : vehicle) : bool := String.eqb (vehicle_Status v) "Available".

Section Assign.
Context {R : Type}.

Definition assign_dispatch (dr : driver) (v : vehicle) (d : dispatch R) : dispatch R :=
  mkDispatch (dispatch_id d) (d_Product_ID d) (From_Hub_ID d) (To_Hub_ID d)
    (d_Quantity d) (Batch_Consumption d) (Vehicle_ID v) (driver_id dr)
    "In-Transit" (Arrival_Time d).

Definition dispatch_vehicle_service (s : db R) : assign_outcome * db R :=
  match find_one in_progress (dispatches s) with
  | None => (NoDispatchPending, s)
  | Some (di, d) =>
    match find_one idle_driver (drivers s) with
    | None => (NoDriverAvailable, s)
    | Some (_, dr) =>
      match find_one idle_vehicle (vehicles s) with
      | None => (NoVehicleAvailable, s)
      | Some (_, v) =>
          (AssignedResources (Vehicle_ID v) (name dr),
           mkDb (hubs s) (products s) (batches s) (stock_txns s)
             (update_at di (assign_dispatch dr v) (dispatches s))
             (update_one (fun x => String.eqb (driver_id x) (driver_id dr))
                (fun x => mkDriver (driver_id x) (name x) "Assigned") (drivers s))
             (update_one (fun x => String.eqb (Vehicle_ID x) (Vehicle_ID v))
                (fun x => mkVehicle (Vehicle_ID x) "In-Transit") (vehicles s)))
      end
    end
  end.

End Assign.

(** ** Readings of the specification *)

Definition sumZ {A} (f : A -> Z) (l : list A) : Z :=
  fold_right (fun x acc => f x + acc) 0 l.

(** A batch's share of [total_available p h]. *)
Definition contrib {R} (p h : string) (b : batch R) : Z :=
  if batch_key p h b && is_active (status b) then Quantity b else 0.

Definition sum_consumed {R} (trace : list (consumption R)) : Z :=
  sumZ (fun c => c_Qty c) trace.

(** The spec's consumeFIFO: walk the batches in FIFO order, taking
    [take = min(batch.quantity, remaining)] from each until the request is
    covered, and record [{batch_no, qty, unit_cost}]. *)
Fixpoint fifo_takes_spec {R} `{PyNum R} (cursor : list (nat * batch R)) (remaining : Z)
  : list (consumption R) :=
  match cursor with
  | [] => []
  | (_, b) :: rest =>
      if remaining <=? 0 then []
      else
        let take := Z.min (Quantity b) remaining in
        mkConsumption (Batch_No b) take (default py_zero (Purchase_Unit_Price b))
          :: fifo_takes_spec rest (remaining - take)
  end.

Definition fifo_sorted {R} (cursor : list (nat * batch R)) : Prop :=
  Sorted (fun x y => fifo_le x y = true) cursor.

(** The candidates of FIFO consumption, in natural order. *)
Definition fifo_candidates {R} (p h : string) (bs : list (batch R)) : list (nat * batch R) :=
  filter (fifo_match p h) (indexed bs).

(** The database after a service call: the call's writes when it returns,
    the database as it was when it raises. *)
Definition db_after {R A} (r : result (A * db R)) (s : db R) : db R :=
  match r with
  | Ok (_, s') => s'
  | Err _ => s
  end.

(** The stock of product [p] held at hub [h], whatever the batch status. *)
Definition hub_stock {R} (p h : string) (b : batch R) : Z :=
  if batch_key p h b then Quantity b else 0.

(** [x] at position [i] is the first element of [l] satisfying [f]:
    "first match wins" in natural storage order. *)
Definition first_match {A} (f : A -> bool) (l : list A) (i : nat) (x : A) : Prop :=
  nth_error l i = Some x /\ f x = true
  /\ forall j y, (j < i)%nat -> nth_error l j = Some y -> f y = false.

(** Successive [register_inventory] calls on one (product, hub, expiry
    date), none of them with a batch number; each incoming lot is its
    (Quantity, Value).  [gen_no] is the batch number generated for the call
    that creates the batch. *)
Fixpoint register_sequence {R} `{PyNum R} (p h : string) (e : Z) (gen_no : string)
    (now : Z) (incoming : list (Z * R)) (s : db R) : result (db R) :=
  match incoming with
  | [] => Ok s
  | (q, v) :: rest =>
      match register_inventory (mkRegister h p q v e None None) gen_no now s with
      | Ok (_, s') => register_sequence p h e gen_no now rest s'
      | Err err => Err err
      end
  end.

(** The total value of incoming lots, exactly. *)
Definition sum_values (incoming : list (Z * Q)) : Q :=
  fold_right (fun x acc => snd x + acc)%Q 0%Q incoming.

(** ** A small deployment used by the concrete runs below *)

Definition demo_db : db float :=
  mkDb ["HUB_A"; "HUB_B"] [] [] [] []
    [mkDriver "DRV1" "Asha" "active"] [mkVehicle "VH1" "Available"].

(** Three lots of one unit each, valued 0.1, 0.2 and 0.3: the binary64
    values Python reads from these literals are the correctly rounded
    quotients 1/10, 2/10 and 3/10. *)
Definition demo_lots : list (Z * float) :=
  [(1, (1 / 10)%float); (1, (2 / 10)%float); (1, (3 / 10)%float)].

(** A batch of product [P1] at [HUB_A] bought at 40 per unit. *)
Definition demo_batch (bn : string) (q exp : Z) (st : batch_status) (created : Z)
  : batch float :=
  mkBatch "P1" "HUB_A" bn q (Some exp) (Some (float_of_Z (40 * q))) (Some 40%float)
    st (Some created) created.

(** [HUB_A] holds two active batches of [P1] (the later-expiring one stored
    first) and a depleted one. *)
Definition demo_stock : db float :=
  mkDb ["HUB_A"; "HUB_B"] ["P1"]
    [demo_batch "B-LATE" 10 20261201 active 2; demo_batch "B-SOON" 5 20261001 active 1;
     demo_batch "B-OLD" 0 20260901 depleted 0]
    [] [] [mkDriver "DRV1" "Asha" "active"] [mkVehicle "VH1" "Available"].

(** A registration of 7 units worth 280 under the batch number [" B-OLD "],
    which the strip turns into [B-OLD]. *)
Definition demo_restock : register_payload float :=
  mkRegister "HUB_A" "P1" 7 280%float 20270101 (Some " B-OLD ") None.

(** [demo_stock] after a dispatch of 8 units of [P1] from [HUB_A] to
    [HUB_B]: one dispatch in [In-Progress], an idle driver and an idle
    vehicle. *)
Definition demo_pending : db float :=
  match dispatch_inventory "P1" "HUB_A" "HUB_B" 8 "DSP1" 100 demo_stock with
  | Ok (_, s) => s
  | Err _ => demo_stock
  end.

(** One active batch of 10 units of [P1] at [HUB_A]. *)
Definition demo_single : db float :=
  mkDb ["HUB_A"; "HUB_B"] ["P1"] [demo_batch "B-ONE" 10 20261201 active 1] [] [] [] [].

(** ** Batch statuses across operations *)

(** [l'] is at least as long as [l], and each document of [l] is related
    by [rel] to the document at its position in [l']. *)
Definition pointwise {A} (rel : A -> A -> Prop) (l l' : list A) : Prop :=
  (List.length l <= List.length l')%nat /\
  forall j x y, nth_error l j = Some x -> nth_error l' j = Some y -> rel x y.

(** What one dispatch may do to a batch: leave it as it is, or lower the
    quantity of an active batch, marking it depleted exactly when the
    quantity is then at most 0. *)
Definition dispatch_effect {R} (b0 b : batch R) : Prop :=
  b = b0 \/ (status b0 = active /\ Quantity b < Quantity b0
             /\ ((status b = depleted /\ Quantity b <= 0) \/ (status b = active /\ 0 < Quantity b))).

(** Chaining service calls that return a database. *)
Definition and_then {A} (r : result A) (f : A -> result (db float)) : result (db float) :=
  match r with Ok a => f a | Err e => Err e end.

(** A reachable run with one driver and one vehicle: 10 units registered at
    [HUB_B] under batch [B1] are dispatched to [HUB_A] (depleting [B1] at
    [HUB_B]), assigned and received; then they are dispatched back, and
    the second dispatch is assigned.  Returns the database before and
    after receiving that second dispatch. *)
Definition demo_round_trip : result (db float * db float) :=
  match
    and_then (register_inventory (mkRegister "HUB_B" "P1" 10 400%float 20261201 (Some "B1") None)
                "GEN1" 1 demo_db) (fun '(_, s1) =>
    and_then (dispatch_inventory "P1" "HUB_B" "HUB_A" 10 "DSP1" 2 s1) (fun '(_, s2) =>
    let s3 := snd (dispatch_vehicle_service s2) in
    and_then (mark_dispatch_received_service "DSP1" 4 s3) (fun s4 =>
    and_then (dispatch_inventory "P1" "HUB_A" "HUB_B" 10 "DSP2" 5 s4) (fun '(_, s5) =>
    Ok (snd (dispatch_vehicle_service s5))))))
  with
  | Ok s6 =>
      match mark_dispatch_received_service "DSP2" 7 s6 with
      | Ok s7 => Ok (s6, s7)
      | Err e => Err e
      end
  | Err e => Err e
  end.

(** ** Drivers and vehicles held by dispatches *)

Definition in_transit {R} (d : dispatch R) : bool := String.eqb (Status d) "In-Transit".

(** Every dispatch in transit holds a driver and a vehicle that exist and
    are not idle, and no two dispatches in transit hold the same driver or
    the same vehicle. *)
Definition fleet_exclusive {R} (s : db R) : Prop :=
  NoDup (map driver_id (drivers s)) /\ NoDup (map Vehicle_ID (vehicles s))
  /\ (forall i d, nth_error (dispatches s) i = Some d -> in_transit d = true ->
        (exists k dr, nth_error (drivers s) k = Some dr
                      /\ driver_id dr = Driver_Assigned d /\ idle_driver dr = false)
        /\ (exists k v, nth_error (vehicles s) k = Some v
                       /\ Vehicle_ID v = Vehicle_Assigned d /\ idle_vehicle v = false))
  /\ (forall i j d1 d2, i <> j ->
        nth_error (dispatches s) i = Some d1 -> nth_error (dispatches s) j = Some d2 ->
        in_transit d1 = true -> in_transit d2 = true ->
        Driver_Assigned d1 <> Driver_Assigned d2 /\ Vehicle_Assigned d1 <> Vehicle_Assigned d2).

(** Every dispatch in [In-Progress] carries the ["In-Progress"] placeholder
    as its driver and its vehicle. *)
Definition in_progress_placeholder {R} (s : db R) : Prop :=
  forall i d, nth_error (dispatches s) i = Some d -> Status d = "In-Progress" ->
    Driver_Assigned d = "In-Progress" /\ Vehicle_Assigned d = "In-Progress".

(** The core service calls, each run to completion before the next starts. *)
Inductive core_step {R} `{PyNum R} : db R -> db R -> Prop :=
| step_register (pl : register_payload R) gen_no now s bn s' :
    register_inventory pl gen_no now s = Ok (bn, s') -> core_step s s'
| step_update (pl : update_payload R) gen_no now s bn s' :
    update_inventory pl gen_no now s = Ok (bn, s') -> core_step s s'
| step_dispatch p from_hub to_hub qty new_id now s r s' :
    dispatch_inventory p from_hub to_hub qty new_id now s = Ok (r, s') -> core_step s s'
| step_assign s : core_step s (snd (dispatch_vehicle_service s))
| step_receive id now s s' :
    mark_dispatch_received_service id now s = Ok s' -> core_step s s'.

(** One driver and one vehicle: [DSP1] is in transit with them and [DSP2]
    waits in [In-Progress]. *)
Definition demo_fleet_state : result (db float) :=
  and_then (register_inventory (mkRegister "HUB_A" "P1" 20 800%float 20261201 None None)
              "GEN1" 1 demo_db) (fun '(_, s1) =>
  and_then (dispatch_inventory "P1" "HUB_A" "HUB_B" 10 "DSP1" 2 s1) (fun '(_, s2) =>
  let s3 := snd (dispatch_vehicle_service s2) in
  and_then (dispatch_inventory "P1" "HUB_A" "HUB_B" 10 "DSP2" 4 s3) (fun '(_, s4) =>
  Ok s4))).

(** ** A transfer between hubs *)

(** The stock of product [p] held by a batch, at any hub and in any status. *)
Definition product_stock {R} (p : string) (b : batch R) : Z :=
  if String.eqb (Product_ID b) p then Quantity b else 0.

(** 100 units of [P1] bought for 4000 are registered at [HUB_A]; 30 of
    them are dispatched to [HUB_B], assigned and received.  Returns the
    database before the dispatch and after the receipt. *)
Definition demo_transfer : result (db float * db float) :=
  match register_inventory (mkRegister "HUB_A" "P1" 100 4000%float 20261201 None None)
          "GEN1" 1 demo_db with
  | Err e => Err e
  | Ok (_, s1) =>
      match dispatch_inventory "P1" "HUB_A" "HUB_B" 30 "DSP1" 2 s1 with
      | Err e => Err e
      | Ok (_, s2) =>
          match mark_dispatch_received_service "DSP1" 4 (snd (dispatch_vehicle_service s2)) with
          | Ok s4 => Ok (s1, s4)
          | Err e => Err e
          end
      end
  end.

(** ** Product summary: [get_product_summary] *)

(** The response fields computed from batches (the master fields
    [Product_Name], [Category] and [Brand] are copied from the product
    document and not modelled). *)
Record product_summary := mkSummary {
  ps_Product_ID : string;
  ps_Hub_ID : string;
  ps_Total_Quantity : Z;
  ps_Nearest_Expiry : option Z;
  ps_Batches_Count : Z
}.

(** The accumulator of [$min] over a date field: documents where the field
    is missing or null are skipped; with none left the result is null. *)
Definition min_opt (e acc : option Z) : option Z :=
  match e, acc with
  | None, a => a
  | Some x, None => Some x
  | Some x, Some y => Some (Z.min x y)
  end.

Definition nearest_expiry {R} (bs : list (batch R)) : option Z :=
  fold_right (fun b acc => min_opt (Expiry_Date b) acc) None bs.

(** [get_product_summary(product_id, hub_id)]: the product must exist;
    then [$match] on product, hub and [status: "active"] and one [$group]
    with [$sum] of [Quantity], [$min] of [Expiry_Date] and [$sum: 1].  When
    nothing matches the pipeline returns no group and the code falls back to
    [0], [None] and [0], which is what the group gives on no documents. *)
Definition get_product_summary {R} (product_id hub_id : string) (s : db R)
  : result product_summary :=
  let product_id := _normalize_id product_id in
  let hub_id := _normalize_id hub_id in
  if negb (existsb (String.eqb product_id) (products s))
  then Err (ProductNotFound product_id)
  else
    let m := filter (fun b => batch_key product_id hub_id b && is_active (status b))
               (batches s) in
    Ok (mkSummary product_id hub_id (sum_quantity m) (nearest_expiry m)
          (Z.of_nat (List.length m))).

(** ** Batch listing: [list_inventory_batches] *)

(** The stored value of the [status] field. *)
Definition status_name (st : batch_status) : string :=
  match st with
  | active => "active"
  | depleted => "depleted"
  | archived => "archived"
  end.

(** [str.lower] (Python 3.11, Unicode 14.0).  [lower_runs] lists the
    code points with a one-character lower case as runs [(lo, hi, step,
    delta)]: every [cp] from [lo] to [hi] in steps of [step] becomes
    [cp + delta].  U+0130 is the one code point whose lower case has two
    characters. *)
Definition lower_runs : list (Z * Z * Z * Z) := [
  (65, 90, 1, 32); (192, 214, 1, 32); (216, 222, 1, 32); (256, 302, 2, 1);
  (306, 310, 2, 1); (313, 327, 2, 1); (330, 374, 2, 1);
  (376, 376, 1, (-121)); (377, 381, 2, 1); (385, 385, 1, 210);
  (386, 388, 2, 1); (390, 390, 1, 206); (391, 391, 1, 1); (393, 394, 1, 205);
  (395, 395, 1, 1); (398, 398, 1, 79); (399, 399, 1, 202);
  (400, 400, 1, 203); (401, 401, 1, 1); (403, 403, 1, 205);
  (404, 404, 1, 207); (406, 406, 1, 211); (407, 407, 1, 209);
  (408, 408, 1, 1); (412, 412, 1, 211); (413, 413, 1, 213);
  (415, 415, 1, 214); (416, 420, 2, 1); (422, 422, 1, 218); (423, 423, 1, 1);
  (425, 425, 1, 218); (428, 428, 1, 1); (430, 430, 1, 218); (431, 431, 1, 1);
  (433, 434, 1, 217); (435, 437, 2, 1); (439, 439, 1, 219); (440, 440, 1, 1);
  (444, 444, 1, 1); (452, 452, 1, 2); (453, 453, 1, 1); (455, 455, 1, 2);
  (456, 456, 1, 1); (458, 458, 1, 2); (459, 475, 2, 1); (478, 494, 2, 1);
  (497, 497, 1, 2); (498, 500, 2, 1); (502, 502, 1, (-97));
  (503, 503, 1, (-56)); (504, 542, 2, 1); (544, 544, 1, (-130));
  (546, 562, 2, 1); (570, 570, 1, 10795); (571, 571, 1, 1);
  (573, 573, 1, (-163)); (574, 574, 1, 10792); (577, 577, 1, 1);
  (579, 579, 1, (-195)); (580, 580, 1, 69); (581, 581, 1, 71);
  (582, 590, 2, 1); (880, 882, 2, 1); (886, 886, 1, 1); (895, 895, 1, 116);
  (902, 902, 1, 38); (904, 906, 1, 37); (908, 908, 1, 64); (910, 911, 1, 63);
  (913, 929, 1, 32); (931, 939, 1, 32); (975, 975, 1, 8); (984, 1006, 2, 1);
  (1012, 1012, 1, (-60)); (1015, 1015, 1, 1); (1017, 1017, 1, (-7));
  (1018, 1018, 1, 1); (1021, 1023, 1, (-130)); (1024, 1039, 1, 80);
  (1040, 1071, 1, 32); (1120, 1152, 2, 1); (1162, 1214, 2, 1);
  (1216, 1216, 1, 15); (1217, 1229, 2, 1); (1232, 1326, 2, 1);
  (1329, 1366, 1, 48); (4256, 4293, 1, 7264); (4295, 4295, 1, 7264);
  (4301, 4301, 1, 7264); (5024, 5103, 1, 38864); (5104, 5109, 1, 8);
  (7312, 7354, 1, (-3008)); (7357, 7359, 1, (-3008)); (7680, 7828, 2, 1);
  (7838, 7838, 1, (-7615)); (7840, 7934, 2, 1); (7944, 7951, 1, (-8));
  (7960, 7965, 1, (-8)); (7976, 7983, 1, (-8)); (7992, 7999, 1, (-8));
  (8008, 8013, 1, (-8)); (8025, 8031, 2, (-8)); (8040, 8047, 1, (-8));
  (8072, 8079, 1, (-8)); (8088, 8095, 1, (-8)); (8104, 8111, 1, (-8));
  (8120, 8121, 1, (-8)); (8122, 8123, 1, (-74)); (8124, 8124, 1, (-9));
  (8136, 8139, 1, (-86)); (8140, 8140, 1, (-9)); (8152, 8153, 1, (-8));
  (8154, 8155, 1, (-100)); (8168, 8169, 1, (-8)); (8170, 8171, 1, (-112));
  (8172, 8172, 1, (-7)); (8184, 8185, 1, (-128)); (8186, 8187, 1, (-126));
  (8188, 8188, 1, (-9)); (8486, 8486, 1, (-7517)); (8490, 8490, 1, (-8383));
  (8491, 8491, 1, (-8262)); (8498, 8498, 1, 28); (8544, 8559, 1, 16);
  (8579, 8579, 1, 1); (9398, 9423, 1, 26); (11264, 11311, 1, 48);
  (11360, 11360, 1, 1); (11362, 11362, 1, (-10743));
  (11363, 11363, 1, (-3814)); (11364, 11364, 1, (-10727));
  (11367, 11371, 2, 1); (11373, 11373, 1, (-10780));
  (11374, 11374, 1, (-10749)); (11375, 11375, 1, (-10783));
  (11376, 11376, 1, (-10782)); (11378, 11378, 1, 1); (11381, 11381, 1, 1);
  (11390, 11391, 1, (-10815)); (11392, 11490, 2, 1); (11499, 11501, 2, 1);
  (11506, 11506, 1, 1); (42560, 42604, 2, 1); (42624, 42650, 2, 1);
  (42786, 42798, 2, 1); (42802, 42862, 2, 1); (42873, 42875, 2, 1);
  (42877, 42877, 1, (-35332)); (42878, 42886, 2, 1); (42891, 42891, 1, 1);
  (42893, 42893, 1, (-42280)); (42896, 42898, 2, 1); (42902, 42920, 2, 1);
  (42922, 42922, 1, (-42308)); (42923, 42923, 1, (-42319));
  (42924, 42924, 1, (-42315)); (42925, 42925, 1, (-42305));
  (42926, 42926, 1, (-42308)); (42928, 42928, 1, (-42258));
  (42929, 42929, 1, (-42282)); (42930, 42930, 1, (-42261));
  (42931, 42931, 1, 928); (42932, 42946, 2, 1); (42948, 42948, 1, (-48));
  (42949, 42949, 1, (-42307)); (42950, 42950, 1, (-35384));
  (42951, 42953, 2, 1); (42960, 42960, 1, 1); (42966, 42968, 2, 1);
  (42997, 42997, 1, 1); (65313, 65338, 1, 32); (66560, 66599, 1, 40);
  (66736, 66771, 1, 40); (66928, 66938, 1, 39); (66940, 66954, 1, 39);
  (66956, 66962, 1, 39); (66964, 66965, 1, 39); (68736, 68786, 1, 64);
  (71840, 71871, 1, 32); (93760, 93791, 1, 32); (125184, 125217, 1, 34)].

Definition lower_delta (cp : Z) : Z :=
  match find (fun '(lo, hi, st, _) => (lo <=? cp) && (cp <=? hi) && (Z.modulo (cp - lo) st =? 0))
             lower_runs with
  | Some (_, _, _, d) => d
  | None => 0
  end.

Definition lower_cp (cp : Z) : list Z :=
  if cp =? 304 then [105; 775] else [cp + lower_delta cp].

(** One character; a byte sequence that is not the encoding of a code
    point is left as it is. *)
Definition py_lower_char (c : string) : string :=
  let cp := utf8_decode c in
  if String.eqb (utf8_encode cp) c then concat_str (map utf8_encode (lower_cp cp)) else c.

Definition py_lower (s : string) : string :=
  concat_str (map py_lower_char (utf8_chars s)).

(** [if x:] on an optional string: [None] and [""] are both false. *)
Definition nonempty (o : option string) : option string :=
  match o with
  | Some s => if String.eqb s "" then None else Some s
  | None => None
  end.

Definition listing_match {R} (p h : string) (st : option string) (b : batch R) : bool :=
  String.eqb (Product_ID b) p && String.eqb (Hub_ID b) h
  && match st with
     | Some x => String.eqb (status_name (status b)) x
     | None => true
     end.

(** The sort key [("Expiry_Date", 1)]; a missing date sorts first. *)
Definition expiry_le {R} (b1 b2 : batch R) : bool :=
  opt_le (Expiry_Date b1) (Expiry_Date b2).

(** [cursor.limit(n)]: [0] means no limit; a negative [n] returns one batch
    of at most [|n|] documents. *)
Definition mongo_limit {A} (n : Z) (l : list A) : list A :=
  if n =? 0 then l else firstn (Z.to_nat (Z.abs n)) l.

(** [list_inventory_batches(product_id, hub_id, status, skip, limit)];
    [None] is the [ValueError] that [cursor.skip] raises on a negative
    [skip].  MongoDB leaves the order of documents with equal [Expiry_Date]
    unspecified; the model keeps their natural order. *)
Definition list_inventory_batches {R} (product_id hub_id : string)
    (st : option string) (skip limit : Z) (bs : list (batch R))
  : option (Z * list (batch R)) :=
  let query_status := match nonempty st with
                      | Some x => Some (py_lower (py_strip x))
                      | None => None
                      end in
  if skip <? 0 then None
  else
    let matched := sort_by expiry_le
                     (filter (listing_match (py_strip product_id) (py_strip hub_id)
                                query_status) bs) in
    let page := mongo_limit limit (skipn (Z.to_nat skip) matched) in
    Some (Z.of_nat (List.length page), page).

(** ** Vehicle management: [app/services/vehicle_service.py] *)

(** A document of [vehicles] as the CRUD services see it (timestamps are
    not modelled).  [update_vehicle_service] can store an explicit null in
    [Vehicle_Number] or [Status], so both are options. *)
Record vehicle_doc := mkVehicleDoc {
  vd_Vehicle_ID : string;
  vd_Vehicle_Number : option string;
  vd_Capacity : Z;
  vd_Status : option string
}.

(** [VehicleCreate]: [Capacity > 0] is checked by the schema. *)
Record vehicle_create := mkVehicleCreate {
  vc_Vehicle_ID : string;
  vc_Vehicle_Number : string;
  vc_Capacity : Z;
  vc_Status : string
}.

(** [VehicleUpdate] as [update.dict(exclude_unset=True)] sees it: the outer
    [None] is a field left unset, [Some None] an explicit null. *)
Record vehicle_update := mkVehicleUpdate {
  vu_Vehicle_ID : string;
  vu_Vehicle_Number : option (option string);
  vu_Status : option (option string)
}.

(** The [HTTPException]s of the vehicle services. *)
Inductive vehicle_error :=
| VehicleConflict      (* 409 "Vehicle_ID or Vehicle_Number already exists" *)
| InvalidStatus        (* 400 "Invalid Status. Allowed: ..." *)
| VehicleNotFound      (* 404 "Vehicle not found" *)
| NoSearchCriteria.    (* 400 "No search criteria provided" *)

Inductive vehicle_result (A : Type) :=
| VOk (a : A)
| VErr (e : vehicle_error).
Arguments VOk {A}.
Arguments VErr {A}.

Definition VALID_STATUSES : list string :=
  ["Available"; "Unavailable"; "In-Transit"; "Under-Maintenance"].

(** A query [{"field": x}] on a field that may be null. *)
Definition opt_str_eqb (o : option string) (x : string) : bool :=
  match o with Some y => String.eqb y x | None => false end.

(** [add_vehicle_service(vehicle)]. *)
Definition add_vehicle_service (v : vehicle_create) (vs : list vehicle_doc)
  : vehicle_result (list vehicle_doc) :=
  match find_one (fun d => String.eqb (vd_Vehicle_ID d) (vc_Vehicle_ID v)
                           || opt_str_eqb (vd_Vehicle_Number d) (vc_Vehicle_Number v)) vs with
  | Some _ => VErr VehicleConflict
  | None => VOk (vs ++ [mkVehicleDoc (vc_Vehicle_ID v) (Some (vc_Vehicle_Number v))
                          (vc_Capacity v) (Some (vc_Status v))])
  end.

(** [{"$set": {**update.dict(exclude_unset=True), ...}}]. *)
Definition apply_vehicle_update (u : vehicle_update) (d : vehicle_doc) : vehicle_doc :=
  mkVehicleDoc (vu_Vehicle_ID u)
    (match vu_Vehicle_Number u with Some n => n | None => vd_Vehicle_Number d end)
    (vd_Capacity d)
    (match vu_Status u with Some st => st | None => vd_Status d end).

(** [if update.Status and update.Status not in VALID_STATUSES]. *)
Definition status_rejected (u : vehicle_update) : bool :=
  match vu_Status u with
  | Some (Some st) => negb (String.eqb st "") && negb (existsb (String.eqb st) VALID_STATUSES)
  | _ => false
  end.

(** [update_vehicle_service(update)]: the status check, then
    [find_one_and_update] on the first document with the [Vehicle_ID]. *)
Definition update_vehicle_service (u : vehicle_update) (vs : list vehicle_doc)
  : vehicle_result (list vehicle_doc) :=
  if status_rejected u then VErr InvalidStatus
  else
    match find_one (fun d => String.eqb (vd_Vehicle_ID d) (vu_Vehicle_ID u)) vs with
    | None => VErr VehicleNotFound
    | Some (i, _) => VOk (update_at i (apply_vehicle_update u) vs)
    end.

(** [delete_one({"_id": i})]. *)
Definition remove_at {A} (i : nat) (l : list A) : list A :=
  firstn i l ++ skipn (S i) l.

(** [delete_vehicle_service(req)]: the document found is copied into
    [ClosedVehicles] (with a [Closed_Date], not modelled) and deleted from
    [vehicles].  Returns the new [vehicles] and [ClosedVehicles]. *)
Definition delete_vehicle_service (vid num : string) (vs closed : list vehicle_doc)
  : vehicle_result (list vehicle_doc * list vehicle_doc) :=
  match find_one (fun d => String.eqb (vd_Vehicle_ID d) vid
                           && opt_str_eqb (vd_Vehicle_Number d) num) vs with
  | None => VErr VehicleNotFound
  | Some (i, v) => VOk (remove_at i vs, closed ++ [v])
  end.

Definition criterion (c : option string) (field : option string) : bool :=
  match c with Some x => opt_str_eqb field x | None => true end.

Definition search_match (vid num st : option string) (d : vehicle_doc) : bool :=
  criterion vid (Some (vd_Vehicle_ID d)) && criterion num (vd_Vehicle_Number d)
  && criterion st (vd_Status d).

(** [search_vehicle_service(Vehicle_ID, Vehicle_Number, Status)]: empty
    criteria are dropped; [find(query).to_list(100)]. *)
Definition search_vehicle_service (vid num st : option string) (vs : list vehicle_doc)
  : vehicle_result (list vehicle_doc) :=
  let vid := nonempty vid in
  let num := nonempty num in
  let st := nonempty st in
  match vid, num, st with
  | None, None, None => VErr NoSearchCriteria
  | _, _, _ => VOk (firstn 100 (filter (search_match vid num st) vs))
  end.

(** ** Ledger entries and counts used by the properties *)

(** The OUT transaction [dispatch_inventory] writes for a trace entry. *)
Definition out_txn {R} `{PyNum R} (p from_hub : string) (c : consumption R) : stock_txn R :=
  mkTxn OUT p from_hub (c_Batch_No c) (c_Qty c) (c_Unit_Cost c)
    (py_mul (c_Unit_Cost c) (py_of_int (c_Qty c))) None.

(** The IN transaction [mark_dispatch_received_service] writes for a trace entry. *)
Definition in_txn {R} `{PyNum R} (id p to_hub : string) (c : consumption R) : stock_txn R :=
  mkTxn IN p to_hub (c_Batch_No c) (c_Qty c) (c_Unit_Cost c)
    (py_mul (c_Unit_Cost c) (py_of_int (c_Qty c))) (Some id).

(** The fields of a batch other than [Quantity], [status] and [last_updated]. *)
Definition same_identity {R} (b0 b : batch R) : Prop :=
  Product_ID b = Product_ID b0 /\ Hub_ID b = Hub_ID b0 /\ Batch_No b = Batch_No b0
  /\ Expiry_Date b = Expiry_Date b0 /\ Purchase_Value b = Purchase_Value b0
  /\ Purchase_Unit_Price b = Purchase_Unit_Price b0 /\ created_at b = created_at b0.

Definition count {A} (f : A -> bool) (l : list A) : nat := List.length (filter f l).

Definition vehicle_numbers (vs : list vehicle_doc) : list string :=
  flat_map (fun d => match vd_Vehicle_Number d with Some n => [n] | None => [] end) vs.

(* ==================================================================== *)
(** * Properties *)

Section Primitives.

Lemma nth_error_update_at_eq {A} (g : A -> A) (l : list A) (i : nat) :
  nth_error (update_at i g l) i = option_map g (nth_error l i).
Proof.
  revert i; induction l as [| x r IH]; intros [| i]; simpl; auto.
Qed.

Lemma nth_error_update_at_neq {A} (g : A -> A) (l : list A) (i j : nat) :
  i <> j -> nth_error (update_at i g l) j = nth_error l j.
Proof.
  revert i j; induction l as [| x r IH]; intros [| i] [| j] Hij; simpl; auto.
  - congruence.
Qed.

Lemma length_update_at {A} (g : A -> A) (l : list A) (i : nat) :
  List.length (update_at i g l) = List.length l.
Proof.
  revert i; induction l as [| x r IH]; intros [| i]; simpl; auto.
Qed.

Lemma sumZ_app {A} (f : A -> Z) (l1 l2 : list A) :
  sumZ f (l1 ++ l2) = sumZ f l1 + sumZ f l2.
Proof.
  induction l1 as [| x r IH]; simpl; [reflexivity | unfold sumZ in *; simpl; lia].
Qed.

Lemma sumZ_update_at {A} (f : A -> Z) (g : A -> A) (l : list A) (i : nat) (x : A) :
  nth_error l i = Some x ->
  sumZ f (update_at i g l) = sumZ f l - f x + f (g x).
Proof.
  revert i; induction l as [| y r IH]; intros [| i] Hi; simpl in *; try discriminate.
  - injection Hi as ->. unfold sumZ; simpl. lia.
  - unfold sumZ in *; simpl. rewrite (IH i Hi). lia.
Qed.

Lemma sumZ_perm {A} (f : A -> Z) (l1 l2 : list A) :
  Permutation l1 l2 -> sumZ f l1 = sumZ f l2.
Proof.
  induction 1; unfold sumZ in *; simpl; lia.
Qed.

Lemma total_available_sumZ {R} (p h : string) (bs : list (batch R)) :
  total_available p h bs = sumZ (contrib p h) bs.
Proof.
  unfold total_available, sum_quantity, contrib, sumZ.
  induction bs as [| b r IH]; simpl; [reflexivity |].
  destruct (batch_key p h b && is_active (status b)); simpl; lia.
Qed.

Lemma indexed_from_in {A} (l : list A) (k i : nat) (x : A) :
  In (i, x) (indexed_from k l) -> (k <= i)%nat /\ nth_error l (i - k) = Some x.
Proof.
  revert k; induction l as [| y r IH]; intros k Hin; simpl in Hin; [contradiction |].
  destruct Hin as [Heq | Hin].
  - injection Heq as <- <-. rewrite Nat.sub_diag. split; [lia | reflexivity].
  - destruct (IH (S k) Hin) as [Hle Hnth]. split; [lia |].
    replace (i - k)%nat with (S (i - S k)) by lia. exact Hnth.
Qed.

Lemma indexed_in {A} (l : list A) (i : nat) (x : A) :
  In (i, x) (indexed l) -> nth_error l i = Some x.
Proof.
  intros Hin. destruct (indexed_from_in l 0 i x Hin) as [_ H].
  rewrite Nat.sub_0_r in H. exact H.
Qed.

Lemma indexed_from_fst {A} (l : list A) (k : nat) :
  map fst (indexed_from k l) = seq k (List.length l).
Proof.
  revert k; induction l as [| y r IH]; intros k; simpl; [reflexivity | f_equal; apply IH].
Qed.

Lemma NoDup_map_filter {A B} (f : A -> B) (P : A -> bool) (l : list A) :
  NoDup (map f l) -> NoDup (map f (filter P l)).
Proof.
  induction l as [| x r IH]; simpl; intros Hnd; [constructor |].
  inversion Hnd as [| ? ? Hnotin Hnd']; subst.
  destruct (P x); simpl; [| auto].
  constructor; [| auto].
  intros Hin. apply Hnotin. apply in_map_iff in Hin as (y & Hy & Hiny).
  apply filter_In in Hiny as [Hiny _]. rewrite <- Hy. apply in_map, Hiny.
Qed.

Lemma find_one_from_some {A} (f : A -> bool) (l : list A) (k i : nat) (x : A) :
  find_one_from f l k = Some (i, x) ->
  (k <= i)%nat /\ nth_error l (i - k) = Some x /\ f x = true
  /\ (forall j y, (j < i - k)%nat -> nth_error l j = Some y -> f y = false).
Proof.
  revert k; induction l as [| z r IH]; intros k Hf; simpl in Hf; [discriminate |].
  destruct (f z) eqn:Ez.
  - injection Hf as <- <-. rewrite Nat.sub_diag. repeat split; auto; intros; lia.
  - destruct (IH (S k) Hf) as (Hle & Hn & Hx & Hbefore).
    replace (i - k)%nat with (S (i - S k)) by lia.
    repeat split; auto; [lia |].
    intros [| j] y Hj Hy; simpl in Hy.
    + injection Hy as <-. exact Ez.
    + apply (Hbefore j y); [lia | exact Hy].
Qed.

Lemma find_one_some {A} (f : A -> bool) (l : list A) (i : nat) (x : A) :
  find_one f l = Some (i, x) ->
  nth_error l i = Some x /\ f x = true
  /\ (forall j y, (j < i)%nat -> nth_error l j = Some y -> f y = false).
Proof.
  intros Hf. destruct (find_one_from_some f l 0 i x Hf) as (_ & Hn & Hx & Hb).
  rewrite Nat.sub_0_r in *. auto.
Qed.

Lemma find_one_from_none {A} (f : A -> bool) (l : list A) (k : nat) :
  find_one_from f l k = None -> forall x, In x l -> f x = false.
Proof.
  revert k; induction l as [| z r IH]; intros k Hf x Hin; [contradiction |].
  simpl in Hf. destruct (f z) eqn:Ez; [discriminate |].
  destruct Hin as [<- | Hin]; [exact Ez | exact (IH (S k) Hf x Hin)].
Qed.

Lemma find_one_none {A} (f : A -> bool) (l : list A) :
  find_one f l = None -> forall x, In x l -> f x = false.
Proof. apply find_one_from_none. Qed.

Lemma nth_error_update_at_inv {A} (g : A -> A) (l : list A) (i j : nat) (y : A) :
  nth_error (update_at i g l) j = Some y ->
  (i = j /\ exists x, nth_error l j = Some x /\ y = g x) \/ (i <> j /\ nth_error l j = Some y).
Proof.
  intros Hy. destruct (Nat.eq_dec i j) as [<- | Hij].
  - left. split; [reflexivity |]. rewrite nth_error_update_at_eq in Hy.
    destruct (nth_error l i) as [x |]; simpl in Hy; [| discriminate].
    injection Hy as <-. eauto.
  - right. rewrite nth_error_update_at_neq in Hy by exact Hij. auto.
Qed.

Lemma find_one_from_update {A} (f : A -> bool) (g : A -> A) (l : list A) (k i : nat) (x : A) :
  find_one_from f l k = Some (i, x) -> f (g x) = true ->
  find_one_from f (update_at (i - k) g l) k = Some (i, g x).
Proof.
  revert k; induction l as [| z r IH]; intros k Hf Hg; simpl in Hf; [discriminate |].
  destruct (f z) eqn:Ez.
  - injection Hf as <- <-. rewrite Nat.sub_diag. simpl. rewrite Hg. reflexivity.
  - destruct (find_one_from_some f r (S k) i x Hf) as (Hle & _).
    replace (i - k)%nat with (S (i - S k)) by lia. simpl. rewrite Ez.
    apply IH; assumption.
Qed.

Lemma find_one_update {A} (f : A -> bool) (g : A -> A) (l : list A) (i : nat) (x : A) :
  find_one f l = Some (i, x) -> f (g x) = true ->
  find_one f (update_at i g l) = Some (i, g x).
Proof.
  intros Hf Hg. pose proof (find_one_from_update f g l 0 i x Hf Hg) as E.
  rewrite Nat.sub_0_r in E. exact E.
Qed.

Lemma first_match_find_one {A} (f : A -> bool) (l : list A) (i : nat) (x : A) :
  first_match f l i x -> find_one f l = Some (i, x).
Proof.
  unfold find_one. intros (Hn & Hx & Hb).
  assert (G : forall k l i, nth_error l i = Some x ->
            (forall j y, (j < i)%nat -> nth_error l j = Some y -> f y = false) ->
            find_one_from f l k = Some ((k + i)%nat, x)).
  { clear - Hx. intros k l. revert k. induction l as [| z r IH]; intros k i Hn Hb;
      [destruct i; discriminate |].
    destruct i as [| i]; simpl in Hn |- *.
    - injection Hn as ->. rewrite Hx, Nat.add_0_r. reflexivity.
    - rewrite (Hb 0%nat z ltac:(lia) eq_refl).
      rewrite (IH (S k) i Hn); [f_equal; f_equal; lia |].
      intros j y Hj Hy. apply (Hb (S j) y); [lia | exact Hy]. }
  exact (G 0%nat l i Hn Hb).
Qed.

Lemma find_one_none_intro {A} (f : A -> bool) (l : list A) :
  (forall x, In x l -> f x = false) -> find_one f l = None.
Proof.
  unfold find_one. generalize 0%nat.
  induction l as [| z r IH]; intros k Hall; simpl; [reflexivity |].
  rewrite (Hall z (or_introl eq_refl)). apply IH. intros x Hx. apply Hall. right. exact Hx.
Qed.

Lemma NoDup_map_nth_error {A B} (f : A -> B) (l : list A) (i j : nat) (x y : A) :
  NoDup (map f l) -> nth_error l i = Some x -> nth_error l j = Some y -> f x = f y -> i = j.
Proof.
  intros Hnd Hi Hj Hf. apply (proj1 (NoDup_nth_error _) Hnd).
  - rewrite length_map. apply nth_error_Some. congruence.
  - rewrite !nth_error_map, Hi, Hj. simpl. congruence.
Qed.

(** With unique keys, [update_one] on the key of the document at [j]
    rewrites exactly that document. *)
Lemma update_one_unique {A} (key : A -> string) (g : A -> A) (l : list A) (j : nat) (x : A) :
  NoDup (map key l) -> nth_error l j = Some x ->
  update_one (fun y => String.eqb (key y) (key x)) g l = update_at j g l.
Proof.
  intros Hnd Hj. unfold update_one.
  rewrite (first_match_find_one _ _ j x); [reflexivity |].
  split; [exact Hj |]. split; [apply String.eqb_refl |].
  intros k y Hk Hy. apply String.eqb_neq. intros Heq.
  pose proof (NoDup_map_nth_error key l k j y x Hnd Hy Hj Heq). lia.
Qed.

End Primitives.

Section Sorting.
Context {A : Type} (le : A -> A -> bool).
Hypothesis le_total : forall x y, le x y = false -> le y x = true.

Lemma insert_sorted_perm (x : A) (l : list A) :
  Permutation (x :: l) (insert_sorted le x l).
Proof.
  induction l as [| y r IH]; simpl; [reflexivity |].
  destruct (le x y); [reflexivity |].
  eapply perm_trans; [apply perm_swap | constructor; exact IH].
Qed.

Lemma sort_by_perm (l : list A) : Permutation l (sort_by le l).
Proof.
  induction l as [| x r IH]; simpl; [reflexivity |].
  eapply perm_trans; [constructor; exact IH | apply insert_sorted_perm].
Qed.

Lemma insert_sorted_sorted (x : A) (l : list A) :
  Sorted (fun a b => le a b = true) l ->
  Sorted (fun a b => le a b = true) (insert_sorted le x l).
Proof.
  induction 1 as [| y r Hs IH Hhd]; simpl.
  - repeat constructor.
  - destruct (le x y) eqn:E.
    + constructor; [constructor; assumption | constructor; assumption].
    + constructor; [exact IH |].
      destruct r as [| z r']; simpl.
      * constructor. apply le_total, E.
      * inversion Hhd as [| ? ? Hyz]; subst.
        destruct (le x z); constructor; [apply le_total, E | exact Hyz].
Qed.

Lemma sort_by_sorted (l : list A) : Sorted (fun a b => le a b = true) (sort_by le l).
Proof.
  induction l as [| x r IH]; simpl; [constructor | apply insert_sorted_sorted, IH].
Qed.

End Sorting.

Section FifoProofs.
Context {R : Type} `{PyNum R}.
Variables (p h : string) (now : Z).

(** The cursor documents are still the live ones, they are distinct, and
    each is an active batch of [(p, h)] with a positive quantity. *)
Definition cursor_live (bs : list (batch R)) (cur : list (nat * batch R)) : Prop :=
  NoDup (map fst cur) /\
  Forall (fun ib => nth_error bs (fst ib) = Some (snd ib)
                    /\ batch_key p h (snd ib) && is_active (status (snd ib)) = true
                    /\ 0 < Quantity (snd ib)) cur.

Lemma contrib_inc (d : Z) (b : batch R) :
  contrib p h (inc_quantity d now b) =
  if batch_key p h b && is_active (status b) then Quantity b + d else 0.
Proof. reflexivity. Qed.

Lemma contrib_depleted (b : batch R) :
  contrib p h (set_status depleted now b) = 0.
Proof.
  unfold contrib, set_status; simpl. rewrite andb_false_r. reflexivity.
Qed.

Lemma cursor_live_tail (bs bs' : list (batch R)) (i : nat) (b : batch R)
    (rest : list (nat * batch R)) :
  cursor_live bs ((i, b) :: rest) ->
  (forall j, j <> i -> nth_error bs' j = nth_error bs j) ->
  cursor_live bs' rest.
Proof.
  intros [Hnd Hall] Hsame.
  inversion Hnd as [| ? ? Hnotin Hnd']; subst.
  split; [exact Hnd' |].
  rewrite Forall_forall in *.
  intros [j c] Hin.
  destruct (Hall (j, c) (or_intror Hin)) as (Hj & Hk & Hq); simpl in *.
  repeat split; auto.
  rewrite Hsame; [exact Hj |].
  intros ->. apply Hnotin. change i with (fst (i, c)). apply in_map, Hin.
Qed.

Lemma contrib_cursor (b : batch R) :
  batch_key p h b && is_active (status b) = true -> contrib p h b = Quantity b.
Proof. intros Hk. unfold contrib. rewrite Hk. reflexivity. Qed.

(** The loop of [dispatch_inventory] records exactly the spec's greedy
    takes and lowers the available total by their sum. *)
Lemma consume_fifo_correct (cur : list (nat * batch R)) :
  forall rem bs txs tr bs' txs' tr' rem',
  cursor_live bs cur -> 0 <= rem ->
  consume_fifo p h now cur rem bs txs tr = (bs', txs', tr', rem') ->
  tr' = tr ++ fifo_takes_spec cur rem
  /\ total_available p h bs' =
     total_available p h bs - sum_consumed (fifo_takes_spec cur rem).
Proof.
  induction cur as [| [i b] rest IH];
    intros rem bs txs tr bs' txs' tr' rem' Hlive Hrem Hrun; simpl in Hrun |- *.
  - injection Hrun as <- <- <- <-. rewrite app_nil_r.
    split; [reflexivity | unfold sum_consumed, sumZ; simpl; lia].
  - destruct (rem <=? 0) eqn:Er.
    { injection Hrun as <- <- <- <-. rewrite app_nil_r.
      split; [reflexivity | unfold sum_consumed, sumZ; simpl; lia]. }
    apply Z.leb_gt in Er.
    pose proof (proj2 Hlive) as Hall.
    inversion Hall as [| ? ? (Hi & Hk & Hq) _]; subst; simpl in Hi, Hk, Hq.
    assert (Hq' : (Quantity b <=? 0) = false) by (apply Z.leb_gt; lia).
    rewrite Hq' in Hrun.
    set (take := if Quantity b <=? rem then Quantity b else rem) in Hrun.
    assert (Htake : take = Z.min (Quantity b) rem)
      by (unfold take; destruct (Z.leb_spec (Quantity b) rem); lia).
    rewrite nth_error_update_at_eq, Hi in Hrun; simpl in Hrun.
    assert (Hb1 : total_available p h (update_at i (inc_quantity (- take) now) bs)
                  = total_available p h bs - take).
    { rewrite !total_available_sumZ, (sumZ_update_at _ _ _ _ b Hi).
      rewrite contrib_inc, Hk, (contrib_cursor b Hk). lia. }
    destruct (Quantity b + - take <=? 0) eqn:Ez.
    + apply Z.leb_le in Ez.
      edestruct IH as [Htr Htot]; [| | exact Hrun |].
      * eapply cursor_live_tail; [exact Hlive |].
        intros j Hj. rewrite !nth_error_update_at_neq by auto. reflexivity.
      * lia.
      * rewrite <- Htake. split.
        -- rewrite Htr, <- app_assoc. reflexivity.
        -- rewrite Htot.
           rewrite total_available_sumZ
             at 1.
           rewrite (sumZ_update_at _ _ _ _ (inc_quantity (- take) now b))
             by (rewrite nth_error_update_at_eq, Hi; reflexivity).
           rewrite contrib_depleted, <- total_available_sumZ, Hb1.
           rewrite contrib_inc, Hk.
           unfold sum_consumed, sumZ; simpl. lia.
    + apply Z.leb_gt in Ez.
      edestruct IH as [Htr Htot]; [| | exact Hrun |].
      * eapply cursor_live_tail; [exact Hlive |].
        intros j Hj. rewrite nth_error_update_at_neq by auto. reflexivity.
      * lia.
      * rewrite <- Htake. split.
        -- rewrite Htr, <- app_assoc. reflexivity.
        -- rewrite Htot, Hb1. unfold sum_consumed, sumZ; simpl. lia.
Qed.

End FifoProofs.

Section CursorFacts.
Context {R : Type} `{PyNum R}.

Lemma opt_lt_total (a b : option Z) :
  opt_lt a b = false -> opt_Z_eqb a b = false -> opt_lt b a = true.
Proof.
  destruct a as [x |], b as [y |]; simpl; try discriminate; auto.
  intros H1 H2. apply Z.ltb_ge in H1. apply Z.eqb_neq in H2. apply Z.ltb_lt. lia.
Qed.

Lemma opt_Z_eqb_sym (a b : option Z) : opt_Z_eqb a b = opt_Z_eqb b a.
Proof. destruct a, b; simpl; auto using Z.eqb_sym. Qed.

Lemma opt_le_total (a b : option Z) : opt_le a b = false -> opt_le b a = true.
Proof.
  unfold opt_le. intros Hf. apply orb_false_iff in Hf as [H1 H2].
  rewrite (opt_lt_total a b H1 H2). reflexivity.
Qed.

Lemma fifo_le_total (x y : nat * batch R) : fifo_le x y = false -> fifo_le y x = true.
Proof.
  unfold fifo_le. intros Hf. apply orb_false_iff in Hf as [H1 H2].
  destruct (opt_Z_eqb (Expiry_Date (snd x)) (Expiry_Date (snd y))) eqn:Ee.
  - simpl in H2. rewrite opt_Z_eqb_sym, Ee, (opt_le_total _ _ H2).
    apply orb_true_r.
  - rewrite (opt_lt_total _ _ H1 Ee). reflexivity.
Qed.

Lemma fifo_cursor_perm (p h : string) (bs : list (batch R)) :
  Permutation (fifo_candidates p h bs) (fifo_cursor p h bs).
Proof. apply sort_by_perm. Qed.

Lemma fifo_cursor_sorted (p h : string) (bs : list (batch R)) :
  fifo_sorted (fifo_cursor p h bs).
Proof. apply sort_by_sorted, fifo_le_total. Qed.

Lemma fifo_cursor_live (p h : string) (bs : list (batch R)) :
  cursor_live p h bs (fifo_cursor p h bs).
Proof.
  pose proof (fifo_cursor_perm p h bs) as Hperm.
  split.
  - eapply Permutation_NoDup; [apply Permutation_map, Hperm |].
    apply NoDup_map_filter. unfold indexed. rewrite indexed_from_fst. apply seq_NoDup.
  - apply Forall_forall. intros [i b] Hin.
    apply (Permutation_in _ (Permutation_sym Hperm)) in Hin.
    unfold fifo_candidates in Hin. apply filter_In in Hin as [Hin Hm].
    unfold fifo_match in Hm; simpl in Hm.
    apply andb_true_iff in Hm as [Hk Hq]. apply Z.ltb_lt in Hq.
    simpl. repeat split; auto. apply indexed_in, Hin.
Qed.

Lemma sumZ_cons {A} (f : A -> Z) (x : A) (l : list A) :
  sumZ f (x :: l) = f x + sumZ f l.
Proof. reflexivity. Qed.

Lemma sumZ_pos {A} (f : A -> Z) (l : list A) :
  Forall (fun x => 0 < f x) l -> 0 <= sumZ f l.
Proof. induction 1; unfold sumZ in *; simpl; lia. Qed.

Lemma fifo_takes_sum (cur : list (nat * batch R)) :
  forall rem, 0 <= rem -> Forall (fun ib => 0 < Quantity (snd ib)) cur ->
  sum_consumed (fifo_takes_spec cur rem) = Z.min rem (sumZ (fun ib => Quantity (snd ib)) cur).
Proof.
  induction cur as [| [i b] rest IH]; intros rem Hrem Hall; cbn [fifo_takes_spec].
  - unfold sum_consumed, sumZ; simpl. lia.
  - inversion Hall as [| ? ? Hb Hrest]; subst; simpl in Hb.
    pose proof (sumZ_pos _ _ Hrest) as Hpos.
    unfold sum_consumed in *. rewrite sumZ_cons.
    destruct (rem <=? 0) eqn:Er.
    + apply Z.leb_le in Er. unfold sumZ at 1; simpl. lia.
    + apply Z.leb_gt in Er. rewrite sumZ_cons, IH by (auto; lia). cbn [c_Qty snd]. lia.
Qed.

Lemma candidates_cover_from (p h : string) (bs : list (batch R)) (k : nat) :
  total_available p h bs <=
  sumZ (fun ib => Quantity (snd ib)) (filter (fifo_match p h) (indexed_from k bs)).
Proof.
  rewrite total_available_sumZ. revert k.
  induction bs as [| b r IH]; intros k; simpl; [unfold sumZ; simpl; lia |].
  unfold fifo_match at 1; simpl. unfold contrib at 1.
  specialize (IH (S k)).
  destruct (batch_key p h b && is_active (status b)); simpl.
  - destruct (Z.ltb_spec 0 (Quantity b)); unfold sumZ in *; simpl; lia.
  - unfold sumZ in *; simpl. lia.
Qed.

Lemma fifo_cursor_covers (p h : string) (bs : list (batch R)) :
  total_available p h bs <= sumZ (fun ib => Quantity (snd ib)) (fifo_cursor p h bs).
Proof.
  rewrite <- (sumZ_perm _ _ _ (fifo_cursor_perm p h bs)).
  apply candidates_cover_from.
Qed.

End CursorFacts.

Section DispatchClaims.
Context {R : Type} `{PyNum R}.

(** C1: a dispatch whose quantity is covered by the active stock of
    [(product, from_hub)] succeeds; it consumes the active batches in the
    order [(Expiry_Date, created_at)] ascending, taking
    [min(batch.quantity, remaining)] from each until the request is covered;
    the trace quantities add up to the request; and the reported remaining
    quantity is the active total before the dispatch minus the request. *)
Theorem dispatch_fifo_consumption (p from_hub to_hub new_id : string)
    (qty now : Z) (s : db R) :
  hub_exists from_hub (hubs s) = true ->
  hub_exists to_hub (hubs s) = true ->
  0 < qty ->
  qty <= total_available p from_hub (batches s) ->
  exists r s',
    dispatch_inventory p from_hub to_hub qty new_id now s = Ok (r, s')
    /\ Permutation (fifo_candidates p from_hub (batches s))
                   (fifo_cursor p from_hub (batches s))
    /\ fifo_sorted (fifo_cursor p from_hub (batches s))
    /\ r_Batch_Consumption r = fifo_takes_spec (fifo_cursor p from_hub (batches s)) qty
    /\ sum_consumed (r_Batch_Consumption r) = qty
    /\ r_Remaining_Quantity r = total_available p from_hub (batches s) - qty.
Proof.
  intros Hf Ht Hq Hle.
  unfold dispatch_inventory, dispatch_read. rewrite Hf, Ht; simpl negb; cbv iota.
  destruct (Z.ltb_spec (total_available p from_hub (batches s)) qty) as [Hlt | _];
    [lia |].
  unfold dispatch_write.
  destruct (consume_fifo p from_hub now (fifo_cursor p from_hub (batches s)) qty
              (batches s) (stock_txns s) []) as [[[bs txs] tr] rem'] eqn:Hrun.
  pose proof (fifo_cursor_live p from_hub (batches s)) as Hlive.
  destruct (consume_fifo_correct p from_hub now _ _ _ _ _ _ _ _ _ Hlive
              (Z.lt_le_incl _ _ Hq) Hrun) as [Htr Htot].
  assert (Hsum : sum_consumed (fifo_takes_spec (fifo_cursor p from_hub (batches s)) qty) = qty).
  { rewrite fifo_takes_sum by
      (first [lia | eapply Forall_impl; [| exact (proj2 Hlive)]; intros ib (_ & _ & Hpos); exact Hpos]).
    pose proof (fifo_cursor_covers p from_hub (batches s)). lia. }
  eexists _, _. split; [reflexivity |]. simpl.
  repeat split.
  - apply fifo_cursor_perm.
  - apply fifo_cursor_sorted.
  - exact Htr.
  - rewrite Htr. exact Hsum.
  - rewrite Htot, Hsum. reflexivity.
Qed.

End DispatchClaims.

Section ErrorClaims.
Context {R : Type} `{PyNum R}.

(** C2: a dispatch asking for more than the active total of
    [(product, from_hub)] (both hubs existing) fails with
    [InsufficientStock] carrying the requested and the available amounts,
    and leaves the database as it was: no batch, transaction or dispatch is
    written. *)
Theorem dispatch_insufficient_stock (p from_hub to_hub new_id : string)
    (qty now : Z) (s : db R) :
  hub_exists from_hub (hubs s) = true ->
  hub_exists to_hub (hubs s) = true ->
  total_available p from_hub (batches s) < qty ->
  dispatch_inventory p from_hub to_hub qty new_id now s
    = Err (InsufficientStock qty (total_available p from_hub (batches s)))
  /\ db_after (dispatch_inventory p from_hub to_hub qty new_id now s) s = s.
Proof.
  intros Hf Ht Hlt.
  assert (E : dispatch_inventory p from_hub to_hub qty new_id now s
              = Err (InsufficientStock qty (total_available p from_hub (batches s)))).
  { unfold dispatch_inventory, dispatch_read. rewrite Hf, Ht; simpl negb; cbv iota.
    destruct (Z.ltb_spec (total_available p from_hub (batches s)) qty); [reflexivity | lia]. }
  rewrite E. split; reflexivity.
Qed.

End ErrorClaims.

Section RegisterClaims.
Context {R : Type} `{PyNum R}.

Lemma contrib_inactive (p h : string) (b : batch R) :
  status b <> active -> contrib p h b = 0.
Proof.
  intros Hst. unfold contrib. destruct (status b); [congruence | |];
    rewrite andb_false_r; reflexivity.
Qed.

Lemma fifo_cursor_active (p h : string) (bs : list (batch R)) (i : nat) :
  In i (map fst (fifo_cursor p h bs)) ->
  exists b, nth_error bs i = Some b /\ status b = active.
Proof.
  intros Hin. apply in_map_iff in Hin as ([j b] & Hj & Hin). simpl in Hj; subst j.
  apply (Permutation_in _ (Permutation_sym (fifo_cursor_perm p h bs))) in Hin.
  apply filter_In in Hin as [Hin Hm].
  exists b. split; [apply indexed_in, Hin |].
  unfold fifo_match in Hm; simpl in Hm.
  destruct (status b); simpl in Hm; rewrite ?andb_false_r in Hm; simpl in Hm;
    try discriminate; reflexivity.
Qed.

(** C10: with an explicit batch number that, stripped, is non-empty and
    names an existing batch of [(product, hub)] whose status is not active,
    [register_inventory] merges the quantity into that batch and leaves its
    status as it is; so the available totals are unchanged and the batch is
    no FIFO candidate. *)
Theorem register_into_inactive_batch (pl : register_payload R) (gen_no : string)
    (now : Z) (s : db R) (raw : string) (i : nat) (b : batch R) :
  hub_exists (rg_Hub_ID pl) (hubs s) = true ->
  rg_Batch_No pl = Some raw -> py_strip raw <> "" ->
  find_one (batch_no_filter (rg_Product_ID pl) (rg_Hub_ID pl) (py_strip raw)) (batches s)
    = Some (i, b) ->
  status b <> active ->
  exists s' b',
    register_inventory pl gen_no now s = Ok (Batch_No b, s')
    /\ nth_error (batches s') i = Some b'
    /\ Quantity b' = Quantity b + rg_Quantity pl
    /\ status b' = status b
    /\ (forall p' h', total_available p' h' (batches s') = total_available p' h' (batches s))
    /\ (forall p' h', ~ In i (map fst (fifo_cursor p' h' (batches s')))).
Proof.
  intros Hhub Hbn Hne Hfind Hst.
  destruct (find_one_some _ _ _ _ Hfind) as (Hi & _ & _).
  unfold register_inventory. rewrite Hhub; simpl negb; cbv iota.
  rewrite Hbn. unfold given_batch_no.
  destruct (String.eqb_spec (py_strip raw) "") as [E | _]; [congruence |].
  rewrite Hfind.
  eexists _, _. split; [reflexivity |]. simpl.
  split; [rewrite nth_error_update_at_eq, Hi; reflexivity |].
  split; [reflexivity |]. split; [reflexivity |].
  split.
  - intros p' h'. rewrite !total_available_sumZ.
    rewrite (sumZ_update_at _ _ _ _ b Hi).
    rewrite !contrib_inactive by (simpl; exact Hst). lia.
  - intros p' h' Hin.
    destruct (fifo_cursor_active _ _ _ _ Hin) as (b'' & Hn & Ha).
    rewrite nth_error_update_at_eq, Hi in Hn. simpl in Hn. injection Hn as <-.
    unfold merge_batch in Ha; simpl in Ha. congruence.
Qed.

End RegisterClaims.

Section ReceiveClaims.
Context {R : Type} `{PyNum R}.

Lemma upsert_received_stock (p to_hub : string) (now : Z) (bs : list (batch R))
    (c : consumption R) :
  sumZ (hub_stock p to_hub) (upsert_received p to_hub now bs c)
  = sumZ (hub_stock p to_hub) bs + c_Qty c.
Proof.
  unfold upsert_received.
  destruct (find_one (batch_no_filter p to_hub (c_Batch_No c)) bs) as [[i b] |] eqn:Hf.
  - destruct (find_one_some _ _ _ _ Hf) as (Hi & Hk & _).
    rewrite (sumZ_update_at _ _ _ _ b Hi).
    unfold batch_no_filter in Hk. apply andb_true_iff in Hk as [Hk _].
    unfold hub_stock, receive_batch; simpl. unfold batch_key in *; simpl. rewrite Hk. lia.
  - rewrite sumZ_app. unfold sumZ at 2, hub_stock, batch_key; simpl.
    rewrite !String.eqb_refl. simpl. lia.
Qed.

Lemma credit_destination_stock (id p to_hub : string) (now : Z) (trace : list (consumption R)) :
  forall bs txs bs' txs',
  credit_destination id p to_hub now trace bs txs = (bs', txs') ->
  sumZ (hub_stock p to_hub) bs' = sumZ (hub_stock p to_hub) bs + sum_consumed trace.
Proof.
  induction trace as [| c rest IH]; intros bs txs bs' txs' Hrun; simpl in Hrun.
  - injection Hrun as <- <-. unfold sum_consumed, sumZ; simpl. lia.
  - rewrite (IH _ _ _ _ Hrun), upsert_received_stock.
    unfold sum_consumed. rewrite sumZ_cons. lia.
Qed.

Lemma receive_dispatches (id : string) (d : dispatch R) (now : Z) (s : db R) :
  dispatches (receive_release d (receive_credit id d now s)) = dispatches s.
Proof.
  unfold receive_release, receive_credit.
  destruct (credit_destination _ _ _ _ _ _ _); reflexivity.
Qed.

(** C4: [mark_dispatch_received_service] succeeds only on an existing
    dispatch in [In-Transit]; on any other status it fails with
    [InvalidState] and writes nothing; after a success the same call fails
    with [InvalidState "Completed"], and the one success credited the
    destination hub with exactly the dispatch's consumption trace. *)
Theorem mark_received_in_transit_only (id : string) (now now' : Z) (s : db R) :
  (find_one (dispatch_by_id id) (dispatches s) = None ->
     mark_dispatch_received_service id now s = Err (DispatchNotFound id))
  /\ (forall i d, find_one (dispatch_by_id id) (dispatches s) = Some (i, d) ->
       Status d <> "In-Transit" ->
       mark_dispatch_received_service id now s = Err (InvalidState (Status d))
       /\ db_after (match mark_dispatch_received_service id now s with
                    | Ok s' => Ok (tt, s') | Err e => Err e end) s = s)
  /\ (forall s', mark_dispatch_received_service id now s = Ok s' ->
       exists i d,
         find_one (dispatch_by_id id) (dispatches s) = Some (i, d)
         /\ Status d = "In-Transit"
         /\ mark_dispatch_received_service id now' s' = Err (InvalidState "Completed")
         /\ sumZ (hub_stock (d_Product_ID d) (To_Hub_ID d)) (batches s')
            = sumZ (hub_stock (d_Product_ID d) (To_Hub_ID d)) (batches s)
              + sum_consumed (Batch_Consumption d)).
Proof.
  unfold mark_dispatch_received_service, receive_read.
  split; [| split].
  - intros Hn. rewrite Hn. reflexivity.
  - intros i d Hf Hst. rewrite Hf.
    destruct (String.eqb_spec (Status d) "In-Transit") as [E | _]; [congruence |].
    split; reflexivity.
  - intros s' Hok.
    destruct (find_one (dispatch_by_id id) (dispatches s)) as [[i d] |] eqn:Hf;
      [| discriminate].
    destruct (String.eqb_spec (Status d) "In-Transit") as [Hst | _]; [| discriminate].
    injection Hok as <-.
    exists i, d. split; [reflexivity |]. split; [exact Hst |]. split.
    + assert (Hd : dispatches (receive_complete id now (receive_release d (receive_credit id d now s)))
                   = update_at i (complete_dispatch now) (dispatches s)).
      { unfold receive_complete at 1. cbn [dispatches]. rewrite receive_dispatches.
        unfold update_one. rewrite Hf. reflexivity. }
      rewrite Hd, (find_one_update _ _ _ _ _ Hf).
      * reflexivity.
      * destruct (find_one_some _ _ _ _ Hf) as (_ & Hid & _). exact Hid.
    + unfold receive_complete, receive_release, receive_credit.
      destruct (credit_destination id (d_Product_ID d) (To_Hub_ID d) now
                  (Batch_Consumption d) (batches s) (stock_txns s)) as [bs txs] eqn:Hc.
      simpl. exact (credit_destination_stock _ _ _ _ _ _ _ _ _ Hc).
Qed.

End ReceiveClaims.

Section AssignClaims.
Context {R : Type}.

(** C8: [dispatch_vehicle_service] (assignResources) takes the first
    dispatch in [In-Progress], the first idle driver and the first idle
    vehicle in natural order.  With none of one of them it writes nothing
    and its outcome names what is missing; otherwise it marks exactly that
    driver [Assigned] and that vehicle [In-Transit] and moves that dispatch
    to [In-Transit] with their references.  Driver and vehicle ids are
    unique (the unique index on [driver_id]; [add_vehicle_service] refuses
    a duplicate [Vehicle_ID]). *)
Theorem assign_resources_first_match (s : db R) :
  NoDup (map driver_id (drivers s)) ->
  NoDup (map Vehicle_ID (vehicles s)) ->
  let out := fst (dispatch_vehicle_service s) in
  let s' := snd (dispatch_vehicle_service s) in
  ((forall d, In d (dispatches s) -> in_progress d = false) ->
     out = NoDispatchPending /\ s' = s)
  /\ (forall di d, first_match in_progress (dispatches s) di d ->
       (forall dr, In dr (drivers s) -> idle_driver dr = false) ->
       out = NoDriverAvailable /\ s' = s)
  /\ (forall di d dj dr, first_match in_progress (dispatches s) di d ->
       first_match idle_driver (drivers s) dj dr ->
       (forall v, In v (vehicles s) -> idle_vehicle v = false) ->
       out = NoVehicleAvailable /\ s' = s)
  /\ (forall di d dj dr vk v, first_match in_progress (dispatches s) di d ->
       first_match idle_driver (drivers s) dj dr ->
       first_match idle_vehicle (vehicles s) vk v ->
       out = AssignedResources (Vehicle_ID v) (name dr)
       /\ dispatches s' = update_at di (assign_dispatch dr v) (dispatches s)
       /\ drivers s' = update_at dj (fun x => mkDriver (driver_id x) (name x) "Assigned") (drivers s)
       /\ vehicles s' = update_at vk (fun x => mkVehicle (Vehicle_ID x) "In-Transit") (vehicles s)
       /\ Status (assign_dispatch dr v d) = "In-Transit"
       /\ Driver_Assigned (assign_dispatch dr v d) = driver_id dr
       /\ Vehicle_Assigned (assign_dispatch dr v d) = Vehicle_ID v
       /\ batches s' = batches s /\ stock_txns s' = stock_txns s).
Proof.
  intros Hdr Hv out s'. subst out s'. unfold dispatch_vehicle_service.
  split; [| split; [| split]].
  - intros Hnone. rewrite (find_one_none_intro _ _ Hnone). split; reflexivity.
  - intros di d Hd Hnone.
    rewrite (first_match_find_one _ _ _ _ Hd), (find_one_none_intro _ _ Hnone).
    split; reflexivity.
  - intros di d dj dr Hd Hdr1 Hnone.
    rewrite (first_match_find_one _ _ _ _ Hd), (first_match_find_one _ _ _ _ Hdr1),
      (find_one_none_intro _ _ Hnone).
    split; reflexivity.
  - intros di d dj dr vk v Hd Hdr1 Hv1.
    rewrite (first_match_find_one _ _ _ _ Hd), (first_match_find_one _ _ _ _ Hdr1),
      (first_match_find_one _ _ _ _ Hv1).
    simpl.
    rewrite (update_one_unique driver_id _ _ dj dr Hdr (proj1 Hdr1)).
    rewrite (update_one_unique Vehicle_ID _ _ vk v Hv (proj1 Hv1)).
    repeat split.
Qed.

End AssignClaims.

Section MergeFacts.
Context {R : Type} `{PyNum R}.

Lemma find_one_from_app_last {A} (f : A -> bool) (pre : list A) (x : A) (k : nat) :
  find_one_from f pre k = None -> f x = true ->
  find_one_from f (pre ++ [x]) k = Some ((k + List.length pre)%nat, x).
Proof.
  revert k; induction pre as [| y r IH]; intros k Hn Hx; simpl in *.
  - rewrite Hx, Nat.add_0_r. reflexivity.
  - destruct (f y); [discriminate |]. rewrite (IH (S k) Hn Hx).
    f_equal; f_equal; lia.
Qed.

Lemma find_one_app_last {A} (f : A -> bool) (pre : list A) (x : A) :
  find_one f pre = None -> f x = true ->
  find_one f (pre ++ [x]) = Some (List.length pre, x).
Proof. intros Hn Hx. exact (find_one_from_app_last f pre x 0 Hn Hx). Qed.

Lemma update_at_app_last {A} (g : A -> A) (pre : list A) (x : A) :
  update_at (List.length pre) g (pre ++ [x]) = pre ++ [g x].
Proof. induction pre as [| y r IH]; simpl; congruence. Qed.

Lemma expiry_filter_merge (p h : string) (e q now : Z) (v pr : R) (b : batch R) :
  expiry_filter p h e (merge_batch q v pr now b) = expiry_filter p h e b.
Proof. reflexivity. Qed.

(** The first lot creates the batch. *)
Lemma register_create (p h gen : string) (e now q : Z) (v : R) (s : db R) :
  hub_exists h (hubs s) = true ->
  find_one (expiry_filter p h e) (batches s) = None ->
  find_one (batch_no_filter p h gen) (batches s) = None ->
  exists s', register_inventory (mkRegister h p q v e None None) gen now s = Ok (gen, s')
    /\ hubs s' = hubs s
    /\ batches s' = batches s ++ [mkBatch p h gen q (Some e) (Some v)
         (Some (if 0 <? q then py_div v (py_of_int q) else py_zero)) active (Some now) now].
Proof.
  intros Hh He Hb.
  unfold register_inventory. cbn [rg_Hub_ID rg_Product_ID rg_Batch_No given_batch_no
    rg_Expiry_Date rg_Quantity rg_Value].
  rewrite Hh. cbn [negb]. rewrite He. cbn [default]. rewrite Hb.
  eexists. split; [reflexivity | split; reflexivity].
Qed.

(** Each further lot is merged into the batch by its expiry date. *)
Lemma register_merge (p h gen : string) (e now q : Z) (v : R) (s : db R)
    (pre : list (batch R)) (B : batch R) :
  hub_exists h (hubs s) = true ->
  batches s = pre ++ [B] ->
  find_one (expiry_filter p h e) pre = None ->
  expiry_filter p h e B = true ->
  exists s', register_inventory (mkRegister h p q v e None None) gen now s = Ok (Batch_No B, s')
    /\ hubs s' = hubs s
    /\ batches s' = pre ++ [merge_batch q v
         (let up := if 0 <? q then py_div v (py_of_int q) else py_zero in
          if 0 <? Quantity B + q
          then py_div (py_add (py_mul (default py_zero (Purchase_Unit_Price B))
                                      (py_of_int (Quantity B)))
                              (py_mul up (py_of_int q)))
                      (py_of_int (Quantity B + q))
          else up) now B].
Proof.
  intros Hh Hbs Hpre HB.
  unfold register_inventory. cbn [rg_Hub_ID rg_Product_ID rg_Batch_No given_batch_no
    rg_Expiry_Date rg_Quantity rg_Value].
  rewrite Hh. cbn [negb]. rewrite Hbs, (find_one_app_last _ _ _ Hpre HB).
  rewrite update_at_app_last. eexists. split; [reflexivity | split; reflexivity].
Qed.

Lemma register_sequence_tail (p h gen : string) (e now : Z) (incoming : list (Z * R)) :
  forall (s : db R) pre B,
  hub_exists h (hubs s) = true -> batches s = pre ++ [B] ->
  find_one (expiry_filter p h e) pre = None -> expiry_filter p h e B = true ->
  exists s' B', register_sequence p h e gen now incoming s = Ok s'
    /\ batches s' = pre ++ [B'] /\ expiry_filter p h e B' = true
    /\ Quantity B' = Quantity B + sumZ fst incoming.
Proof.
  induction incoming as [| [q v] rest IH]; intros s pre B Hh Hbs Hpre HB.
  - exists s, B. simpl. repeat split; auto. lia.
  - destruct (register_merge p h gen e now q v s pre B Hh Hbs Hpre HB)
      as (s1 & Hreg & Hh1 & Hbs1).
    simpl. rewrite Hreg.
    destruct (IH s1 pre _ ltac:(rewrite Hh1; exact Hh) Hbs1 Hpre
                ltac:(rewrite expiry_filter_merge; exact HB)) as (s' & B' & Hseq & Hb' & Hf' & Hq').
    exists s', B'. repeat split; auto. rewrite Hq'. simpl. lia.
Qed.

Lemma register_sequence_quantity (p h gen : string) (e now : Z) (incoming : list (Z * R))
    (s : db R) :
  hub_exists h (hubs s) = true ->
  find_one (expiry_filter p h e) (batches s) = None ->
  find_one (batch_no_filter p h gen) (batches s) = None ->
  incoming <> [] ->
  exists s' B, register_sequence p h e gen now incoming s = Ok s'
    /\ batches s' = batches s ++ [B] /\ Quantity B = sumZ fst incoming.
Proof.
  intros Hh He Hb Hne. destruct incoming as [| [q v] rest]; [congruence |].
  destruct (register_create p h gen e now q v s Hh He Hb) as (s1 & Hreg & Hh1 & Hbs1).
  simpl. rewrite Hreg.
  edestruct (register_sequence_tail p h gen e now rest s1 (batches s) _
               ltac:(rewrite Hh1; exact Hh) Hbs1 He) as (s' & B' & Hseq & Hb' & _ & Hq');
    [unfold expiry_filter, batch_key; simpl; rewrite !String.eqb_refl, Z.eqb_refl;
     reflexivity |].
  exists s', B'. repeat split; auto.
Qed.

End MergeFacts.

Section MergeExact.

Lemma inject_Z_nonzero (z : Z) : 0 < z -> ~ inject_Z z == 0.
Proof. intros Hz E. unfold Qeq in E. simpl in E. lia. Qed.

(** One merge step keeps [price * quantity] equal to the value received. *)
Lemma weighted_step (pr V v : Q) (a b : Z) :
  0 < a -> 0 < b -> pr * inject_Z a == V ->
  (pr * inject_Z a + v / inject_Z b * inject_Z b) / inject_Z (a + b) * inject_Z (a + b)
  == V + v.
Proof.
  intros Ha Hb HV. rewrite <- HV.
  pose proof (inject_Z_nonzero b Hb). pose proof (inject_Z_nonzero (a + b) ltac:(lia)).
  field. auto.
Qed.

Lemma sum_values_perm (l l' : list (Z * Q)) :
  Permutation l l' -> sum_values l == sum_values l'.
Proof.
  induction 1 as [| x l l' _ IH | x y l | l l' l'' _ IH1 _ IH2]; simpl.
  - reflexivity.
  - rewrite IH. reflexivity.
  - ring.
  - rewrite IH1. exact IH2.
Qed.

Lemma register_sequence_tail_Q (p h gen : string) (e now : Z) (incoming : list (Z * Q)) :
  forall (s : db Q) pre B pr V,
  hub_exists h (hubs s) = true -> batches s = pre ++ [B] ->
  find_one (expiry_filter p h e) pre = None -> expiry_filter p h e B = true ->
  0 < Quantity B -> Purchase_Unit_Price B = Some pr -> pr * inject_Z (Quantity B) == V ->
  Forall (fun l => 0 < fst l) incoming ->
  exists s' B' pr', register_sequence p h e gen now incoming s = Ok s'
    /\ batches s' = pre ++ [B'] /\ Quantity B' = Quantity B + sumZ fst incoming
    /\ Purchase_Unit_Price B' = Some pr'
    /\ pr' * inject_Z (Quantity B') == V + sum_values incoming.
Proof.
  induction incoming as [| [q v] rest IH];
    intros s pre B pr V Hh Hbs Hpre HB Hq0 Hpr HV Hpos.
  - exists s, B, pr. simpl. repeat split; auto; [lia | rewrite Qplus_0_r; exact HV].
  - inversion Hpos as [| ? ? Hq Hrest]; subst. simpl in Hq.
    destruct (register_merge p h gen e now q v s pre B Hh Hbs Hpre HB)
      as (s1 & Hreg & Hh1 & Hbs1).
    simpl. rewrite Hreg.
    set (pr1 := (let up := if 0 <? q then v / inject_Z q else 0 in
                 if 0 <? Quantity B + q
                 then (default 0 (Purchase_Unit_Price B) * inject_Z (Quantity B)
                       + up * inject_Z q) / inject_Z (Quantity B + q)
                 else up)%Q).
    set (B1 := merge_batch q v pr1 now B).
    assert (HV1 : pr1 * inject_Z (Quantity B1) == V + v).
    { unfold pr1. rewrite Hpr. cbn [default Quantity B1 merge_batch].
      rewrite (proj2 (Z.ltb_lt 0 q) Hq), (proj2 (Z.ltb_lt 0 (Quantity B + q)) ltac:(lia)).
      exact (weighted_step pr V v (Quantity B) q Hq0 Hq HV). }
    destruct (IH s1 pre B1 pr1 (V + v)%Q ltac:(rewrite Hh1; exact Hh) Hbs1 Hpre
                ltac:(unfold B1; rewrite expiry_filter_merge; exact HB)
                ltac:(cbn [B1 merge_batch Quantity]; lia) eq_refl HV1 Hrest)
      as (s' & B' & pr' & Hseq & Hb' & Hq' & Hpr' & HV').
    exists s', B', pr'. repeat split; auto.
    + rewrite Hq'. cbn [B1 merge_batch Quantity sumZ fold_right fst]. unfold sumZ. lia.
    + rewrite HV'. cbn [sum_values fold_right snd]. unfold sum_values. ring.
Qed.

Lemma register_sequence_price_Q (p h gen : string) (e now : Z) (incoming : list (Z * Q))
    (s : db Q) :
  hub_exists h (hubs s) = true ->
  find_one (expiry_filter p h e) (batches s) = None ->
  find_one (batch_no_filter p h gen) (batches s) = None ->
  incoming <> [] -> Forall (fun l => 0 < fst l) incoming ->
  exists s' B pr, register_sequence p h e gen now incoming s = Ok s'
    /\ batches s' = batches s ++ [B] /\ Quantity B = sumZ fst incoming
    /\ Purchase_Unit_Price B = Some pr
    /\ pr == sum_values incoming / inject_Z (sumZ fst incoming).
Proof.
  intros Hh He Hb Hne Hpos. destruct incoming as [| [q v] rest]; [congruence |].
  inversion Hpos as [| ? ? Hq Hrest]; subst. simpl in Hq.
  destruct (register_create p h gen e now q v s Hh He Hb) as (s1 & Hreg & Hh1 & Hbs1).
  cbn [register_sequence]. rewrite Hreg. cbn beta iota.
  rewrite (proj2 (Z.ltb_lt 0 q) Hq) in Hbs1.
  edestruct (register_sequence_tail_Q p h gen e now rest s1 (batches s) _ (v / inject_Z q)%Q v
               ltac:(rewrite Hh1; exact Hh) Hbs1 He) as (s' & B' & pr' & Hseq & Hb' & Hq' & Hpr' & HV');
    [unfold expiry_filter, batch_key; simpl; rewrite !String.eqb_refl, Z.eqb_refl;
     reflexivity | exact Hq | reflexivity
    | cbn [Quantity]; pose proof (inject_Z_nonzero q Hq); simpl; field; auto
    | exact Hrest |].
  exists s', B', pr'. repeat split; auto.
  assert (Hpos' : 0 < Quantity B') by (rewrite Hq'; cbn [Quantity];
    pose proof (sumZ_pos fst rest Hrest); lia).
  pose proof (inject_Z_nonzero _ Hpos').
  assert (E : sumZ fst ((q, v) :: rest) = Quantity B') by (rewrite Hq'; reflexivity).
  rewrite E. change (sum_values ((q, v) :: rest)) with (v + sum_values rest)%Q.
  rewrite <- HV'. field. auto.
Qed.

End MergeExact.

Section MergeClaims.

(** C5 (as the code does it): successive registrations on one (product,
    hub, expiry date) with no batch number end in one batch whose quantity
    is the sum of the registered quantities, in every number
    representation, the code's floats included.  The unit price the merge
    formula keeps is the quantity-weighted average of the incoming unit
    costs, [sum of values / sum of quantities], and so does not depend on
    the order of the lots, when computed exactly; the code computes it in
    binary64 floats, where each step rounds (see
    [register_sequence_float_order]). *)
Theorem register_sequence_weighted_merge :
  (forall (R : Type) (HR : PyNum R) (p h gen : string) (e now : Z)
          (incoming : list (Z * R)) (s : db R),
     hub_exists h (hubs s) = true ->
     find_one (expiry_filter p h e) (batches s) = None ->
     find_one (batch_no_filter p h gen) (batches s) = None ->
     incoming <> [] ->
     exists s' B, register_sequence p h e gen now incoming s = Ok s'
       /\ batches s' = batches s ++ [B] /\ Quantity B = sumZ fst incoming)
  /\ (forall (p h gen : string) (e now : Z) (incoming incoming' : list (Z * Q)) (s : db Q),
     hub_exists h (hubs s) = true ->
     find_one (expiry_filter p h e) (batches s) = None ->
     find_one (batch_no_filter p h gen) (batches s) = None ->
     incoming <> [] -> Forall (fun l => 0 < fst l) incoming ->
     Permutation incoming incoming' ->
     exists s1 B1 pr1 s2 B2 pr2,
       register_sequence p h e gen now incoming s = Ok s1
       /\ batches s1 = batches s ++ [B1]
       /\ register_sequence p h e gen now incoming' s = Ok s2
       /\ batches s2 = batches s ++ [B2]
       /\ Quantity B1 = sumZ fst incoming /\ Quantity B2 = Quantity B1
       /\ Purchase_Unit_Price B1 = Some pr1 /\ Purchase_Unit_Price B2 = Some pr2
       /\ pr1 == sum_values incoming / inject_Z (sumZ fst incoming)
       /\ pr2 == pr1).
Proof.
  split.
  - intros R HR p h gen e now incoming s. apply register_sequence_quantity.
  - intros p h gen e now incoming incoming' s Hh He Hb Hne Hpos Hperm.
    destruct (register_sequence_price_Q p h gen e now incoming s Hh He Hb Hne Hpos)
      as (s1 & B1 & pr1 & Hseq1 & Hbs1 & Hq1 & Hpr1 & HV1).
    assert (Hne' : incoming' <> []).
    { intros ->. apply Hne, Permutation_nil, Permutation_sym, Hperm. }
    destruct (register_sequence_price_Q p h gen e now incoming' s Hh He Hb Hne'
                (Permutation_Forall Hperm Hpos))
      as (s2 & B2 & pr2 & Hseq2 & Hbs2 & Hq2 & Hpr2 & HV2).
    exists s1, B1, pr1, s2, B2, pr2. repeat split; auto.
    + rewrite Hq2, Hq1. symmetry. apply sumZ_perm, Hperm.
    + rewrite HV2, HV1, (sum_values_perm _ _ Hperm), (sumZ_perm fst _ _ Hperm).
      reflexivity.
Qed.

(** C5 fails as stated: in the code's binary64 arithmetic the final unit
    price depends on the order of the lots.  Registering one unit at 0.1,
    then 0.2, then 0.3 leaves 0.20000000000000004; the reverse order
    leaves 0.19999999999999998.  Both runs hold 3 units. *)
Lemma register_sequence_float_order :
  exists s1 B1 pr1 s2 B2 pr2,
    register_sequence "P1" "HUB_A" 20261231 "GEN1" 1 demo_lots demo_db = Ok s1
    /\ batches s1 = [B1]
    /\ register_sequence "P1" "HUB_A" 20261231 "GEN1" 1 (rev demo_lots) demo_db = Ok s2
    /\ batches s2 = [B2]
    /\ Permutation demo_lots (rev demo_lots)
    /\ Quantity B1 = 3 /\ Quantity B2 = 3
    /\ Purchase_Unit_Price B1 = Some pr1 /\ Purchase_Unit_Price B2 = Some pr2
    /\ PrimFloat.eqb pr1 pr2 = false.
Proof.
  do 6 eexists. split; [vm_compute; reflexivity |].
  split; [vm_compute; reflexivity |].
  split; [vm_compute; reflexivity |].
  split; [vm_compute; reflexivity |].
  split; [apply Permutation_rev |].
  split; [reflexivity |]. split; [reflexivity |].
  split; [reflexivity |]. split; [reflexivity |].
  vm_compute. reflexivity.
Qed.

End MergeClaims.

(** ** Witnesses: the claims' hypotheses hold of concrete databases *)

Section Witnesses.

Lemma dispatch_fifo_consumption_witness :
  hub_exists "HUB_A" (hubs demo_stock) = true
  /\ hub_exists "HUB_B" (hubs demo_stock) = true
  /\ 0 < 8 /\ 8 <= total_available "P1" "HUB_A" (batches demo_stock)
  /\ exists r s', dispatch_inventory "P1" "HUB_A" "HUB_B" 8 "DSP1" 100 demo_stock = Ok (r, s')
       /\ r_Batch_Consumption r = fifo_takes_spec (fifo_cursor "P1" "HUB_A" (batches demo_stock)) 8.
Proof.
  split; [reflexivity |]. split; [reflexivity |]. split; [lia |].
  split; [vm_compute; intro E; discriminate E |].
  destruct (dispatch_fifo_consumption "P1" "HUB_A" "HUB_B" "DSP1" 8 100 demo_stock
              eq_refl eq_refl ltac:(lia) ltac:(vm_compute; intro E; discriminate E))
    as (r & s' & E & _ & _ & Hc & _).
  exists r, s'. split; [exact E | exact Hc].
Defined.

Lemma dispatch_insufficient_stock_witness :
  hub_exists "HUB_A" (hubs demo_stock) = true
  /\ hub_exists "HUB_B" (hubs demo_stock) = true
  /\ total_available "P1" "HUB_A" (batches demo_stock) < 16
  /\ dispatch_inventory "P1" "HUB_A" "HUB_B" 16 "DSP1" 100 demo_stock
     = Err (InsufficientStock 16 (total_available "P1" "HUB_A" (batches demo_stock))).
Proof.
  split; [reflexivity |]. split; [reflexivity |]. split; [vm_compute; reflexivity |].
  exact (proj1 (dispatch_insufficient_stock "P1" "HUB_A" "HUB_B" "DSP1" 16 100 demo_stock
                  eq_refl eq_refl ltac:(vm_compute; reflexivity))).
Defined.

Lemma register_into_inactive_batch_witness :
  hub_exists (rg_Hub_ID demo_restock) (hubs demo_stock) = true
  /\ rg_Batch_No demo_restock = Some " B-OLD " /\ py_strip " B-OLD " = "B-OLD"
  /\ find_one (batch_no_filter (rg_Product_ID demo_restock) (rg_Hub_ID demo_restock) "B-OLD")
       (batches demo_stock) = Some (2%nat, demo_batch "B-OLD" 0 20260901 depleted 0)
  /\ status (demo_batch "B-OLD" 0 20260901 depleted 0) <> active
  /\ exists s', register_inventory demo_restock "GEN1" 100 demo_stock = Ok ("B-OLD", s').
Proof.
  split; [reflexivity |]. split; [reflexivity |]. split; [vm_compute; reflexivity |].
  split; [vm_compute; reflexivity |]. split; [intro E; discriminate E |].
  destruct (register_into_inactive_batch demo_restock "GEN1" 100 demo_stock " B-OLD " 2%nat
              (demo_batch "B-OLD" 0 20260901 depleted 0) eq_refl eq_refl
              ltac:(vm_compute; intro E; discriminate E) ltac:(vm_compute; reflexivity)
              ltac:(intro E; discriminate E)) as (s' & b' & E & _).
  exists s'. exact E.
Defined.

Lemma assign_resources_first_match_witness :
  NoDup (map driver_id (drivers demo_pending))
  /\ NoDup (map Vehicle_ID (vehicles demo_pending))
  /\ exists d,
       first_match in_progress (dispatches demo_pending) 0 d
       /\ first_match idle_driver (drivers demo_pending) 0 (mkDriver "DRV1" "Asha" "active")
       /\ first_match idle_vehicle (vehicles demo_pending) 0 (mkVehicle "VH1" "Available")
       /\ fst (dispatch_vehicle_service demo_pending) = AssignedResources "VH1" "Asha"
       /\ dispatches (snd (dispatch_vehicle_service demo_pending))
          = update_at 0 (assign_dispatch (mkDriver "DRV1" "Asha" "active")
                           (mkVehicle "VH1" "Available")) (dispatches demo_pending)
       /\ Status (assign_dispatch (mkDriver "DRV1" "Asha" "active")
                    (mkVehicle "VH1" "Available") d) = "In-Transit".
Proof.
  assert (Hd : NoDup (map driver_id (drivers demo_pending)))
    by (vm_compute; constructor; [intros [] | constructor]).
  assert (Hv : NoDup (map Vehicle_ID (vehicles demo_pending)))
    by (vm_compute; constructor; [intros [] | constructor]).
  assert (Fd : exists d, first_match in_progress (dispatches demo_pending) 0 d).
  { eexists. split; [vm_compute; reflexivity |].
    split; [vm_compute; reflexivity | intros j y Hj; lia]. }
  destruct Fd as (d & Fd).
  assert (Fdr : first_match idle_driver (drivers demo_pending) 0 (mkDriver "DRV1" "Asha" "active")).
  { split; [vm_compute; reflexivity |]. split; [reflexivity | intros j y Hj; lia]. }
  assert (Fv : first_match idle_vehicle (vehicles demo_pending) 0 (mkVehicle "VH1" "Available")).
  { split; [vm_compute; reflexivity |]. split; [reflexivity | intros j y Hj; lia]. }
  destruct (proj2 (proj2 (proj2 (assign_resources_first_match demo_pending Hd Hv)))
              0%nat d 0%nat _ 0%nat _ Fd Fdr Fv) as (Ho & Hdisp & _ & _ & Hst & _).
  split; [exact Hd |]. split; [exact Hv |].
  exists d. split; [exact Fd |]. split; [exact Fdr |]. split; [exact Fv |].
  split; [exact Ho |]. split; [exact Hdisp | exact Hst].
Defined.

End Witnesses.

Section DecrementFacts.
Context {R : Type} `{PyNum R}.

Lemma Forall_update_at {A} (P : A -> Prop) (g : A -> A) (l : list A) (i : nat) (x : A) :
  Forall P l -> nth_error l i = Some x -> P (g x) -> Forall P (update_at i g l).
Proof.
  revert i; induction l as [| y r IH]; intros i Hall Hx Hg; [destruct i; constructor |].
  inversion Hall as [| ? ? Hy Hr]; subst.
  destruct i as [| i]; simpl in Hx |- *.
  - injection Hx as ->. constructor; assumption.
  - constructor; [exact Hy | exact (IH i Hr Hx Hg)].
Qed.

Lemma Forall_nth_error {A} (P : A -> Prop) (l : list A) (i : nat) (x : A) :
  Forall P l -> nth_error l i = Some x -> P x.
Proof.
  intros Hall Hx. rewrite Forall_forall in Hall. apply Hall, (nth_error_In _ _ Hx).
Qed.

(** The loop run on a cursor that is still live never takes a batch below
    zero: each take is at most the batch's quantity. *)
Lemma consume_fifo_nonneg (p h : string) (now : Z) (cur : list (nat * batch R)) :
  forall rem bs txs tr bs' txs' tr' rem',
  cursor_live p h bs cur ->
  Forall (fun b => 0 <= Quantity b) bs ->
  consume_fifo p h now cur rem bs txs tr = (bs', txs', tr', rem') ->
  Forall (fun b => 0 <= Quantity b) bs'.
Proof.
  induction cur as [| [i b] rest IH];
    intros rem bs txs tr bs' txs' tr' rem' Hlive Hnn Hrun; simpl in Hrun.
  - injection Hrun as <- _ _ _. exact Hnn.
  - destruct (rem <=? 0) eqn:Er; [injection Hrun as <- _ _ _; exact Hnn |].
    apply Z.leb_gt in Er.
    pose proof (proj2 Hlive) as Hall.
    inversion Hall as [| ? ? (Hi & Hk & Hq) _]; subst; simpl in Hi, Hk, Hq.
    assert (Hq' : (Quantity b <=? 0) = false) by (apply Z.leb_gt; lia).
    rewrite Hq' in Hrun.
    set (take := if Quantity b <=? rem then Quantity b else rem) in Hrun.
    assert (Htake : 0 < take <= Quantity b)
      by (unfold take; destruct (Z.leb_spec (Quantity b) rem); lia).
    assert (Hnn1 : Forall (fun b => 0 <= Quantity b) (update_at i (inc_quantity (- take) now) bs))
      by (apply (Forall_update_at _ _ _ _ b Hnn Hi); simpl; lia).
    rewrite nth_error_update_at_eq, Hi in Hrun; simpl in Hrun.
    destruct (Quantity b + - take <=? 0).
    + eapply IH; [| | exact Hrun].
      * eapply cursor_live_tail; [exact Hlive |].
        intros j Hj. rewrite !nth_error_update_at_neq by auto. reflexivity.
      * apply (Forall_update_at _ _ _ _ (inc_quantity (- take) now b) Hnn1);
          [rewrite nth_error_update_at_eq, Hi; reflexivity | simpl; lia].
    + eapply IH; [| exact Hnn1 | exact Hrun].
      eapply cursor_live_tail; [exact Hlive |].
      intros j Hj. rewrite nth_error_update_at_neq by auto. reflexivity.
Qed.

(** One step of the loop: the [$inc] lowers the live quantity by the take
    computed from the cursor's copy, whatever the live quantity is. *)
Lemma consume_fifo_step (p h : string) (now : Z) (i : nat) (b b_live : batch R)
    (rem : Z) (bs : list (batch R)) (txs : list (stock_txn R)) (tr : list (consumption R)) :
  0 < rem -> 0 < Quantity b -> nth_error bs i = Some b_live ->
  exists b', nth_error (fst (fst (fst (consume_fifo p h now [(i, b)] rem bs txs tr)))) i = Some b'
    /\ Quantity b' = Quantity b_live - Z.min (Quantity b) rem.
Proof.
  intros Hr Hq Hi. simpl.
  rewrite (proj2 (Z.leb_gt rem 0) Hr), (proj2 (Z.leb_gt (Quantity b) 0) Hq).
  rewrite nth_error_update_at_eq, Hi. simpl.
  set (take := if Quantity b <=? rem then Quantity b else rem).
  assert (Htake : take = Z.min (Quantity b) rem)
    by (unfold take; destruct (Z.leb_spec (Quantity b) rem); lia).
  destruct (Quantity b_live + - take <=? 0); simpl.
  - rewrite nth_error_update_at_eq, nth_error_update_at_eq, Hi. simpl.
    eexists; split; [reflexivity | simpl; lia].
  - rewrite nth_error_update_at_eq, Hi. simpl.
    eexists; split; [reflexivity | simpl; lia].
Qed.

End DecrementFacts.

Section DecrementClaims.
Context {R : Type} `{PyNum R}.

(** C6 (as the code does it): the per-batch decrement of the dispatch loop
    is an unconditional [$inc] of [-take], where [take] comes from the
    cursor's copy of the batch; it lowers the live quantity by that amount
    whatever the live quantity is.  A dispatch that runs alone leaves every
    quantity non-negative, because its cursor is the live data and each
    take is at most the batch's quantity. *)
Theorem dispatch_decrement_unconditional :
  (forall (p h : string) (now : Z) (i : nat) (b b_live : batch R) (rem : Z)
          (bs : list (batch R)) (txs : list (stock_txn R)) (tr : list (consumption R)),
     0 < rem -> 0 < Quantity b -> nth_error bs i = Some b_live ->
     exists b', nth_error (fst (fst (fst (consume_fifo p h now [(i, b)] rem bs txs tr)))) i
                = Some b'
       /\ Quantity b' = Quantity b_live - Z.min (Quantity b) rem)
  /\ (forall (p from_hub to_hub new_id : string) (qty now : Z) (s : db R)
             (r : dispatch_result R) (s' : db R),
     Forall (fun b => 0 <= Quantity b) (batches s) ->
     dispatch_inventory p from_hub to_hub qty new_id now s = Ok (r, s') ->
     Forall (fun b => 0 <= Quantity b) (batches s')).
Proof.
  split; [exact consume_fifo_step |].
  intros p from_hub to_hub new_id qty now s r s' Hnn Hok.
  unfold dispatch_inventory, dispatch_read in Hok.
  destruct (negb (hub_exists from_hub (hubs s))); [discriminate |].
  destruct (negb (hub_exists to_hub (hubs s))); [discriminate |].
  destruct (total_available p from_hub (batches s) <? qty); [discriminate |].
  unfold dispatch_write in Hok.
  destruct (consume_fifo p from_hub now (fifo_cursor p from_hub (batches s)) qty
              (batches s) (stock_txns s) []) as [[[bs txs] tr] rem] eqn:Ec.
  injection Hok as _ <-. simpl.
  exact (consume_fifo_nonneg p from_hub now _ _ _ _ _ _ _ _ _
           (fifo_cursor_live p from_hub (batches s)) Hnn Ec).
Qed.

End DecrementClaims.

(** C6 fails as stated: two dispatches of 8 units against one batch of 10
    both pass the availability check and read the batch at 10 before either
    writes (each [await] lets the other call run).  The first takes the
    batch to 2; the second, taking [min(10, 8)] from its stale copy,
    applies [$inc: -8] unconditionally and the quantity becomes -6. *)
Lemma interleaved_dispatch_negative :
  exists cur,
    dispatch_read "P1" "HUB_A" "HUB_B" 8 demo_single = Ok cur
    /\ map (@Quantity float) (batches (snd (dispatch_write "P1" "HUB_A" "HUB_B" 8 "DSP1" 100 cur
                                     demo_single))) = [2]
    /\ map (@Quantity float) (batches (snd (dispatch_write "P1" "HUB_A" "HUB_B" 8 "DSP2" 101 cur
         (snd (dispatch_write "P1" "HUB_A" "HUB_B" 8 "DSP1" 100 cur demo_single))))) = [-6].
Proof.
  eexists. split; [vm_compute; reflexivity |]. split; vm_compute; reflexivity.
Qed.

Section StatusFacts.
Context {R : Type} `{PyNum R}.

Lemma pointwise_refl {A} (rel : A -> A -> Prop) (l : list A) :
  (forall x, rel x x) -> pointwise rel l l.
Proof. intros Hr. split; [lia |]. intros j x y Hx Hy. rewrite Hx in Hy. injection Hy as <-. auto. Qed.

Lemma pointwise_trans {A} (rel : A -> A -> Prop) (l1 l2 l3 : list A) :
  (forall x y z, rel x y -> rel y z -> rel x z) ->
  pointwise rel l1 l2 -> pointwise rel l2 l3 -> pointwise rel l1 l3.
Proof.
  intros Ht [Hl12 H12] [Hl23 H23]. split; [lia |].
  intros j x z Hx Hz.
  assert (Hj : (j < List.length l2)%nat).
  { assert (Hx' : nth_error l1 j <> None) by congruence.
    apply nth_error_Some in Hx'. lia. }
  destruct (nth_error l2 j) as [y |] eqn:Hy; [| apply nth_error_None in Hy; lia].
  eauto.
Qed.

Lemma pointwise_update_at {A} (rel : A -> A -> Prop) (g : A -> A) (l : list A) (i : nat) :
  (forall x, rel x x) -> (forall x, nth_error l i = Some x -> rel x (g x)) ->
  pointwise rel l (update_at i g l).
Proof.
  intros Hr Hg. split; [rewrite length_update_at; lia |].
  intros j x y Hx Hy.
  destruct (nth_error_update_at_inv g l i j y Hy) as [(-> & z & Hz & ->) | (_ & Hy')].
  - rewrite Hx in Hz. injection Hz as <-. auto.
  - rewrite Hx in Hy'. injection Hy' as <-. auto.
Qed.

Lemma pointwise_app {A} (rel : A -> A -> Prop) (l extra : list A) :
  (forall x, rel x x) -> pointwise rel l (l ++ extra).
Proof.
  intros Hr. split; [rewrite length_app; lia |].
  intros j x y Hx Hy.
  rewrite nth_error_app1 in Hy by (apply nth_error_Some; congruence).
  rewrite Hx in Hy. injection Hy as <-. auto.
Qed.

(** Stock-in never changes the status of a stored batch. *)
Definition same_status (b0 b : batch R) : Prop := status b = status b0.

Lemma register_status (pl : register_payload R) (gen_no : string) (now : Z) (s s' : db R)
    (bn : string) :
  register_inventory pl gen_no now s = Ok (bn, s') ->
  pointwise same_status (batches s) (batches s').
Proof.
  intros Hok. unfold register_inventory in Hok.
  destruct (negb (hub_exists (rg_Hub_ID pl) (hubs s))); [discriminate |].
  assert (Hr : forall x : batch R, same_status x x) by reflexivity.
  destruct (match given_batch_no (rg_Batch_No pl) with
            | Some bn0 => find_one (batch_no_filter (rg_Product_ID pl) (rg_Hub_ID pl) bn0) (batches s)
            | None => find_one (expiry_filter (rg_Product_ID pl) (rg_Hub_ID pl) (rg_Expiry_Date pl))
                        (batches s)
            end) as [[i b] |].
  - injection Hok as _ <-. apply pointwise_update_at; [exact Hr | reflexivity].
  - destruct (find_one (batch_no_filter (rg_Product_ID pl) (rg_Hub_ID pl)
                          (default gen_no (given_batch_no (rg_Batch_No pl)))) (batches s))
      as [[i b] |]; injection Hok as _ <-.
    + apply pointwise_update_at; [exact Hr | reflexivity].
    + apply pointwise_app, Hr.
Qed.

Lemma update_status (pl : update_payload R) (gen_no : string) (now : Z) (s s' : db R)
    (bn : option string) :
  update_inventory pl gen_no now s = Ok (bn, s') ->
  pointwise same_status (batches s) (batches s').
Proof.
  intros Hok. unfold update_inventory in Hok.
  assert (Hr : forall x : batch R, same_status x x) by reflexivity.
  destruct (negb (hub_exists (_normalize_id (up_Hub_ID pl)) (hubs s))); [discriminate |].
  destruct (negb (existsb (String.eqb (_normalize_id (up_Product_ID pl))) (products s))); [discriminate |].
  destruct (up_Quantity pl) as [q |]; [| injection Hok as _ <-; apply pointwise_refl, Hr].
  destruct (q =? 0); [injection Hok as _ <-; apply pointwise_refl, Hr |].
  destruct (match given_batch_no (up_Batch_No pl), up_Expiry_Date pl with
            | Some bn0, _ => find_one (batch_no_filter (_normalize_id (up_Product_ID pl)) (_normalize_id (up_Hub_ID pl)) bn0) (batches s)
            | None, Some e => find_one (expiry_filter (_normalize_id (up_Product_ID pl)) (_normalize_id (up_Hub_ID pl)) e) (batches s)
            | None, None => None
            end) as [[i b] |].
  - injection Hok as _ <-. apply pointwise_update_at; [exact Hr | reflexivity].
  - destruct (find_one _ (batches s)) as [[i b] |]; [discriminate |].
    injection Hok as _ <-. apply pointwise_app, Hr.
Qed.

(** Receiving may set a batch's status only to active. *)
Definition to_active (b0 b : batch R) : Prop := status b = status b0 \/ status b = active.

Lemma to_active_trans (x y z : batch R) : to_active x y -> to_active y z -> to_active x z.
Proof.
  unfold to_active. intros [E1 | E1] [E2 | E2];
    [left; congruence | right; exact E2 | right; congruence | right; exact E2].
Qed.

Lemma credit_destination_status (id p to_hub : string) (now : Z) (trace : list (consumption R)) :
  forall bs txs bs' txs',
  credit_destination id p to_hub now trace bs txs = (bs', txs') ->
  pointwise to_active bs bs'.
Proof.
  assert (Hr : forall x : batch R, to_active x x) by (left; reflexivity).
  induction trace as [| c rest IH]; intros bs txs bs' txs' Hrun; simpl in Hrun.
  - injection Hrun as <- _. apply pointwise_refl, Hr.
  - apply (pointwise_trans to_active bs (upsert_received p to_hub now bs c) bs'
             to_active_trans); [| exact (IH _ _ _ _ Hrun)].
    unfold upsert_received.
    destruct (find_one _ bs) as [[i b] |].
    + apply pointwise_update_at; [exact Hr |]. intros x _. right. reflexivity.
    + apply pointwise_app, Hr.
Qed.

Lemma receive_status (id : string) (now : Z) (s s' : db R) :
  mark_dispatch_received_service id now s = Ok s' ->
  pointwise to_active (batches s) (batches s').
Proof.
  unfold mark_dispatch_received_service.
  destruct (receive_read id s) as [d |]; [| discriminate].
  intros Hok. injection Hok as <-. cbn [receive_complete receive_release batches].
  unfold receive_credit.
  destruct (credit_destination id (d_Product_ID d) (To_Hub_ID d) now (Batch_Consumption d)
              (batches s) (stock_txns s)) as [bs txs] eqn:Ec.
  exact (credit_destination_status _ _ _ _ _ _ _ _ _ Ec).
Qed.

End StatusFacts.

Section DispatchStatus.
Context {R : Type} `{PyNum R}.

Lemma pointwise_replace {A} (rel : A -> A -> Prop) (l0 l l' : list A) (i : nat) (x x' : A) :
  pointwise rel l0 l -> List.length l' = List.length l ->
  (forall j, j <> i -> nth_error l' j = nth_error l j) ->
  nth_error l0 i = Some x -> nth_error l' i = Some x' -> rel x x' ->
  pointwise rel l0 l'.
Proof.
  intros [Hlen Hpw] Hl' Hsame Hx Hx' Hr. split; [lia |].
  intros j y y' Hy Hy'. destruct (Nat.eq_dec j i) as [-> | Hji].
  - rewrite Hx in Hy. rewrite Hx' in Hy'. congruence.
  - rewrite Hsame in Hy' by exact Hji. eauto.
Qed.

Lemma consume_fifo_effect (p h : string) (now : Z) (bs0 : list (batch R))
    (cur : list (nat * batch R)) :
  forall rem bs txs tr bs' txs' tr' rem',
  cursor_live p h bs cur ->
  (forall j c, In (j, c) cur -> nth_error bs j = nth_error bs0 j) ->
  pointwise dispatch_effect bs0 bs ->
  consume_fifo p h now cur rem bs txs tr = (bs', txs', tr', rem') ->
  pointwise dispatch_effect bs0 bs'.
Proof.
  induction cur as [| [i b] rest IH];
    intros rem bs txs tr bs' txs' tr' rem' Hlive Hcur Hpw Hrun; simpl in Hrun.
  - injection Hrun as <- _ _ _. exact Hpw.
  - destruct (rem <=? 0) eqn:Er; [injection Hrun as <- _ _ _; exact Hpw |].
    apply Z.leb_gt in Er.
    pose proof (proj2 Hlive) as Hall.
    inversion Hall as [| ? ? (Hi & Hk & Hq) _]; subst; simpl in Hi, Hk, Hq.
    assert (Hq' : (Quantity b <=? 0) = false) by (apply Z.leb_gt; lia).
    rewrite Hq' in Hrun.
    set (take := if Quantity b <=? rem then Quantity b else rem) in Hrun.
    assert (Htake : 0 < take <= Quantity b)
      by (unfold take; destruct (Z.leb_spec (Quantity b) rem); lia).
    assert (Hi0 : nth_error bs0 i = Some b)
      by (rewrite <- (Hcur i b (or_introl eq_refl)); exact Hi).
    assert (Hact : status b = active).
    { apply andb_true_iff in Hk as [_ Ha]. destruct (status b); try discriminate; reflexivity. }
    assert (Hnd : forall j c, In (j, c) rest -> j <> i).
    { intros j c Hin ->. destruct Hlive as [Hnd _]. inversion Hnd as [| ? ? Hnotin _]; subst.
      apply Hnotin. change i with (fst (i, c)). apply in_map, Hin. }
    rewrite nth_error_update_at_eq, Hi in Hrun; simpl in Hrun.
    destruct (Quantity b + - take <=? 0) eqn:Ez.
    + apply Z.leb_le in Ez.
      eapply IH; [| | | exact Hrun].
      * eapply cursor_live_tail; [exact Hlive |].
        intros j Hj. rewrite !nth_error_update_at_neq by auto. reflexivity.
      * intros j c Hin. rewrite !nth_error_update_at_neq by (apply not_eq_sym, (Hnd j c Hin)).
        apply (Hcur j c). right. exact Hin.
      * apply (pointwise_replace _ bs0 bs _ i b
                 (set_status depleted now (inc_quantity (- take) now b)) Hpw).
        -- rewrite !length_update_at. reflexivity.
        -- intros j Hj. rewrite !nth_error_update_at_neq by auto. reflexivity.
        -- exact Hi0.
        -- rewrite nth_error_update_at_eq, nth_error_update_at_eq, Hi. reflexivity.
        -- right. simpl. repeat split; [exact Hact | lia |]. left. split; [reflexivity | lia].
    + apply Z.leb_gt in Ez.
      eapply IH; [| | | exact Hrun].
      * eapply cursor_live_tail; [exact Hlive |].
        intros j Hj. rewrite nth_error_update_at_neq by auto. reflexivity.
      * intros j c Hin. rewrite nth_error_update_at_neq by (apply not_eq_sym, (Hnd j c Hin)).
        apply (Hcur j c). right. exact Hin.
      * apply (pointwise_replace _ bs0 bs _ i b (inc_quantity (- take) now b) Hpw).
        -- rewrite length_update_at. reflexivity.
        -- intros j Hj. rewrite nth_error_update_at_neq by auto. reflexivity.
        -- exact Hi0.
        -- rewrite nth_error_update_at_eq, Hi. reflexivity.
        -- right. simpl. repeat split; [exact Hact | lia |]. right. split; [exact Hact | lia].
Qed.

Lemma dispatch_status (p from_hub to_hub new_id : string) (qty now : Z) (s : db R)
    (r : dispatch_result R) (s' : db R) :
  dispatch_inventory p from_hub to_hub qty new_id now s = Ok (r, s') ->
  pointwise dispatch_effect (batches s) (batches s').
Proof.
  intros Hok. unfold dispatch_inventory, dispatch_read in Hok.
  destruct (negb (hub_exists from_hub (hubs s))); [discriminate |].
  destruct (negb (hub_exists to_hub (hubs s))); [discriminate |].
  destruct (total_available p from_hub (batches s) <? qty); [discriminate |].
  unfold dispatch_write in Hok.
  destruct (consume_fifo p from_hub now (fifo_cursor p from_hub (batches s)) qty
              (batches s) (stock_txns s) []) as [[[bs txs] tr] rem] eqn:Ec.
  injection Hok as _ <-. simpl.
  apply (consume_fifo_effect p from_hub now (batches s) _ _ _ _ _ _ _ _ _
           (fifo_cursor_live p from_hub (batches s)) (fun _ _ _ => eq_refl)
           (pointwise_refl _ _ (fun x => or_introl eq_refl)) Ec).
Qed.

End DispatchStatus.

Section ReceiveActive.
Context {R : Type} `{PyNum R}.

Lemma find_one_update_at_same {A} (f : A -> bool) (g : A -> A) (l : list A)
    (i k : nat) (y : A) :
  (forall x, f (g x) = f x) -> find_one f l = Some (k, y) ->
  find_one f (update_at i g l) = Some (k, if Nat.eqb k i then g y else y).
Proof.
  intros Hg Hf. destruct (find_one_some _ _ _ _ Hf) as (Hk & Hy & Hbefore).
  apply first_match_find_one. split; [| split].
  - destruct (Nat.eqb_spec k i) as [-> | Hne].
    + rewrite nth_error_update_at_eq, Hk. reflexivity.
    + rewrite nth_error_update_at_neq by auto. exact Hk.
  - destruct (Nat.eqb k i); [rewrite Hg |]; exact Hy.
  - intros j z Hj Hz.
    destruct (nth_error_update_at_inv _ _ _ _ _ Hz) as [(_ & x & Hx & ->) | (_ & Hx)].
    + rewrite Hg. exact (Hbefore j x Hj Hx).
    + exact (Hbefore j z Hj Hx).
Qed.

Lemma find_one_update_at_none {A} (f : A -> bool) (g : A -> A) (l : list A) (i : nat) :
  (forall x, f (g x) = f x) -> find_one f l = None -> find_one f (update_at i g l) = None.
Proof.
  intros Hg Hf. apply find_one_none_intro. intros z Hz.
  apply In_nth_error in Hz as (j & Hz).
  destruct (nth_error_update_at_inv _ _ _ _ _ Hz) as [(_ & x & Hx & ->) | (_ & Hx)].
  - rewrite Hg. exact (find_one_none _ _ Hf x (nth_error_In _ _ Hx)).
  - exact (find_one_none _ _ Hf z (nth_error_In _ _ Hx)).
Qed.

Lemma find_one_app_some {A} (f : A -> bool) (l : list A) (x : A) (k : nat) (y : A) :
  find_one f l = Some (k, y) -> find_one f (l ++ [x]) = Some (k, y).
Proof.
  intros Hf. destruct (find_one_some _ _ _ _ Hf) as (Hk & Hy & Hbefore).
  assert (Hlt : (k < List.length l)%nat) by (apply nth_error_Some; congruence).
  apply first_match_find_one. split; [| split; [exact Hy |]].
  - rewrite nth_error_app1 by exact Hlt. exact Hk.
  - intros j z Hj Hz. rewrite nth_error_app1 in Hz by lia. exact (Hbefore j z Hj Hz).
Qed.

(** One receiving upsert: the batch that a batch-number filter of the
    destination finds stays where it is and stays active if it was; the
    batch of the credited batch number is active afterwards. *)
Lemma upsert_received_find (p to_hub : string) (now : Z) (bs : list (batch R))
    (c : consumption R) (bn : string) :
  let bs' := upsert_received p to_hub now bs c in
  (forall k b, find_one (batch_no_filter p to_hub bn) bs = Some (k, b) ->
     exists b', find_one (batch_no_filter p to_hub bn) bs' = Some (k, b')
                /\ (status b = active -> status b' = active))
  /\ (bn = c_Batch_No c ->
      exists k b', find_one (batch_no_filter p to_hub bn) bs' = Some (k, b')
                   /\ status b' = active).
Proof.
  cbv zeta. unfold upsert_received.
  assert (Hg : forall bn' (x : batch R), batch_no_filter p to_hub bn' (receive_batch (c_Qty c) now x)
                             = batch_no_filter p to_hub bn' x) by reflexivity.
  destruct (find_one (batch_no_filter p to_hub (c_Batch_No c)) bs) as [[i b1] |] eqn:Hf.
  - split.
    + intros k b Hk. rewrite (find_one_update_at_same _ _ _ i k b (Hg bn) Hk).
      eexists. split; [reflexivity |].
      destruct (Nat.eqb k i); [reflexivity | exact (fun E => E)].
    + intros ->. rewrite (find_one_update_at_same _ _ _ i i b1 (Hg _) Hf), Nat.eqb_refl.
      do 2 eexists. split; reflexivity.
  - split.
    + intros k b Hk. exists b. split; [apply find_one_app_some, Hk | exact (fun E => E)].
    + intros ->. rewrite (find_one_app_last _ _ _ Hf).
      * do 2 eexists. split; reflexivity.
      * unfold batch_no_filter, batch_key. simpl. rewrite !String.eqb_refl. reflexivity.
Qed.

Lemma credit_destination_find (id p to_hub : string) (now : Z)
    (trace : list (consumption R)) :
  forall bs txs bs' txs',
  credit_destination id p to_hub now trace bs txs = (bs', txs') ->
  (forall bn k b, find_one (batch_no_filter p to_hub bn) bs = Some (k, b) ->
     exists b', find_one (batch_no_filter p to_hub bn) bs' = Some (k, b')
                /\ (status b = active -> status b' = active))
  /\ (forall c, In c trace ->
      exists k b', find_one (batch_no_filter p to_hub (c_Batch_No c)) bs' = Some (k, b')
                   /\ status b' = active).
Proof.
  induction trace as [| c rest IH]; intros bs txs bs' txs' Hrun; simpl in Hrun.
  - injection Hrun as <- _. split; [| intros c []].
    intros bn k b Hk. exists b. split; [exact Hk | exact (fun E => E)].
  - destruct (IH _ _ _ _ Hrun) as [K2 C2].
    split.
    + intros bn k b Hk.
      destruct (proj1 (upsert_received_find p to_hub now bs c bn) k b Hk) as (b1 & Hk1 & Ha1).
      destruct (K2 bn k b1 Hk1) as (b' & Hk' & Ha'). exists b'. split; [exact Hk' | auto].
    + intros c0 [<- | Hin]; [| exact (C2 c0 Hin)].
      destruct (proj2 (upsert_received_find p to_hub now bs c (c_Batch_No c)) eq_refl)
        as (k & b1 & Hk1 & Ha1).
      destruct (K2 _ k b1 Hk1) as (b' & Hk' & Ha'). exists k, b'. split; [exact Hk' | auto].
Qed.

(** Receiving a dispatch: the destination batch that each entry of its
    consumption trace credits is active afterwards, at the position where
    the batch of that number already was, if there was one. *)
Lemma receive_active (id : string) (now : Z) (s s' : db R) :
  mark_dispatch_received_service id now s = Ok s' ->
  exists i d, find_one (dispatch_by_id id) (dispatches s) = Some (i, d)
    /\ forall c, In c (Batch_Consumption d) ->
       exists k b, find_one (batch_no_filter (d_Product_ID d) (To_Hub_ID d) (c_Batch_No c))
                     (batches s') = Some (k, b)
         /\ status b = active
         /\ forall k0 b0, find_one (batch_no_filter (d_Product_ID d) (To_Hub_ID d) (c_Batch_No c))
                            (batches s) = Some (k0, b0) -> k = k0.
Proof.
  unfold mark_dispatch_received_service, receive_read.
  destruct (find_one (dispatch_by_id id) (dispatches s)) as [[i d] |] eqn:Ef; [| discriminate].
  destruct (String.eqb (Status d) "In-Transit"); [| discriminate].
  intros Hok. injection Hok as <-. cbn [receive_complete receive_release batches].
  unfold receive_credit.
  destruct (credit_destination id (d_Product_ID d) (To_Hub_ID d) now (Batch_Consumption d)
              (batches s) (stock_txns s)) as [bs txs] eqn:Ec.
  cbn [batches]. exists i, d. split; [reflexivity |].
  destruct (credit_destination_find _ _ _ _ _ _ _ _ _ Ec) as [K C].
  intros c Hc. destruct (C c Hc) as (k & b & Hk & Ha).
  exists k, b. split; [exact Hk |]. split; [exact Ha |].
  intros k0 b0 H0. destruct (K _ _ _ H0) as (b' & Hk' & _). congruence.
Qed.

End ReceiveActive.

Section StatusClaims.
Context {R : Type} `{PyNum R}.

(** C7 (as the code does it): a dispatch changes a batch's status only by
    marking it depleted, and marks a batch it decrements depleted exactly
    when the quantity is then at most 0; registration and update leave the
    status of every stored batch as it is; receiving a dispatch may change
    a stored batch's status, but only to active, and every destination
    batch it credits is active afterwards, a depleted or archived one
    included (the upsert sets [status: "active"] on the destination batch
    it credits, whatever its status was). *)
Theorem batch_status_transitions :
  (forall (p from_hub to_hub new_id : string) (qty now : Z) (s : db R)
          (r : dispatch_result R) (s' : db R),
     dispatch_inventory p from_hub to_hub qty new_id now s = Ok (r, s') ->
     forall j b0 b, nth_error (batches s) j = Some b0 -> nth_error (batches s') j = Some b ->
       (status b <> status b0 -> status b = depleted /\ Quantity b <= 0)
       /\ (Quantity b <> Quantity b0 -> (status b = depleted <-> Quantity b <= 0)))
  /\ (forall (pl : register_payload R) (gen_no : string) (now : Z) (s : db R)
             (bn : string) (s' : db R),
     register_inventory pl gen_no now s = Ok (bn, s') ->
     forall j b0 b, nth_error (batches s) j = Some b0 -> nth_error (batches s') j = Some b ->
       status b = status b0)
  /\ (forall (pl : update_payload R) (gen_no : string) (now : Z) (s : db R)
             (bn : option string) (s' : db R),
     update_inventory pl gen_no now s = Ok (bn, s') ->
     forall j b0 b, nth_error (batches s) j = Some b0 -> nth_error (batches s') j = Some b ->
       status b = status b0)
  /\ (forall (id : string) (now : Z) (s s' : db R),
     mark_dispatch_received_service id now s = Ok s' ->
     (forall j b0 b, nth_error (batches s) j = Some b0 -> nth_error (batches s') j = Some b ->
        status b = status b0 \/ status b = active)
     /\ exists i d, find_one (dispatch_by_id id) (dispatches s) = Some (i, d)
        /\ forall c, In c (Batch_Consumption d) ->
           exists k b,
             find_one (batch_no_filter (d_Product_ID d) (To_Hub_ID d) (c_Batch_No c))
               (batches s') = Some (k, b)
             /\ status b = active
             /\ forall k0 b0,
                  find_one (batch_no_filter (d_Product_ID d) (To_Hub_ID d) (c_Batch_No c))
                    (batches s) = Some (k0, b0) -> k = k0).
Proof.
  split; [| split; [| split]].
  - intros p from_hub to_hub new_id qty now s r s' Hok j b0 b Hb0 Hb.
    destruct (proj2 (dispatch_status _ _ _ _ _ _ _ _ _ Hok) j b0 b Hb0 Hb)
      as [-> | (Ha & Hlt & [(Hd & Hle) | (Ha' & Hpos)])].
    + split; intros E; contradiction E; reflexivity.
    + split; [intros _; split; assumption | intros _; split; intros _; assumption].
    + split.
      * intros E. contradiction E. congruence.
      * intros _. rewrite Ha'. split; [discriminate | lia].
  - intros pl gen_no now s bn s' Hok j b0 b Hb0 Hb.
    exact (proj2 (register_status _ _ _ _ _ _ Hok) j b0 b Hb0 Hb).
  - intros pl gen_no now s bn s' Hok j b0 b Hb0 Hb.
    exact (proj2 (update_status _ _ _ _ _ _ Hok) j b0 b Hb0 Hb).
  - intros id now s s' Hok. split; [| exact (receive_active _ _ _ _ Hok)].
    intros j b0 b Hb0 Hb. exact (proj2 (receive_status _ _ _ _ Hok) j b0 b Hb0 Hb).
Qed.

End StatusClaims.

(** C7 fails as stated: in the reachable run [demo_round_trip], batch [B1]
    at [HUB_B] is depleted by the first dispatch; receiving the second
    dispatch credits it again and sets it back to active with 10 units. *)
Lemma received_batch_reactivated :
  exists s6 s7 b6 b7,
    demo_round_trip = Ok (s6, s7)
    /\ nth_error (batches s6) 0 = Some b6 /\ nth_error (batches s7) 0 = Some b7
    /\ Hub_ID b6 = "HUB_B" /\ Batch_No b6 = "B1"
    /\ status b6 = depleted /\ Quantity b6 = 0
    /\ status b7 = active /\ Quantity b7 = 10.
Proof.
  do 4 eexists.
  split; [vm_compute; reflexivity |].
  split; [vm_compute; reflexivity |].
  split; [vm_compute; reflexivity |].
  repeat split; reflexivity.
Qed.

Section FleetFacts.
Context {R : Type} `{PyNum R}.

(** Case analysis on every [match] of a hypothesis. *)
Ltac break_matches H :=
  repeat match type of H with
  | context [match ?x with _ => _ end] => destruct x
  end.

Lemma register_fleet (pl : register_payload R) (gen_no : string) (now : Z) (s s' : db R)
    (bn : string) :
  register_inventory pl gen_no now s = Ok (bn, s') ->
  dispatches s' = dispatches s /\ drivers s' = drivers s /\ vehicles s' = vehicles s.
Proof.
  intros Hok. unfold register_inventory in Hok. break_matches Hok;
    try discriminate; injection Hok as _ <-; auto.
Qed.

Lemma update_fleet (pl : update_payload R) (gen_no : string) (now : Z) (s s' : db R)
    (bn : option string) :
  update_inventory pl gen_no now s = Ok (bn, s') ->
  dispatches s' = dispatches s /\ drivers s' = drivers s /\ vehicles s' = vehicles s.
Proof.
  intros Hok. unfold update_inventory in Hok. break_matches Hok;
    try discriminate; injection Hok as _ <-; auto.
Qed.

Lemma dispatch_fleet (p from_hub to_hub new_id : string) (qty now : Z) (s : db R)
    (r : dispatch_result R) (s' : db R) :
  dispatch_inventory p from_hub to_hub qty new_id now s = Ok (r, s') ->
  (exists d, dispatches s' = dispatches s ++ [d] /\ in_transit d = false)
  /\ drivers s' = drivers s /\ vehicles s' = vehicles s.
Proof.
  intros Hok. unfold dispatch_inventory, dispatch_read in Hok.
  destruct (negb (hub_exists from_hub (hubs s))); [discriminate |].
  destruct (negb (hub_exists to_hub (hubs s))); [discriminate |].
  destruct (total_available p from_hub (batches s) <? qty); [discriminate |].
  unfold dispatch_write in Hok.
  destruct (consume_fifo p from_hub now (fifo_cursor p from_hub (batches s)) qty
              (batches s) (stock_txns s) []) as [[[bs txs] tr] rem].
  injection Hok as _ <-. simpl. split; [| split; reflexivity].
  eexists. split; reflexivity.
Qed.

End FleetFacts.

Section FleetInvariant.
Context {R : Type} `{PyNum R}.

Lemma map_update_at_id {A B} (f : A -> B) (g : A -> A) (l : list A) (i : nat) :
  (forall x, f (g x) = f x) -> map f (update_at i g l) = map f l.
Proof.
  intros Hg. revert i; induction l as [| x r IH]; intros [| i]; simpl;
    rewrite ?Hg, ?IH; reflexivity.
Qed.

Lemma fleet_same (s s' : db R) :
  dispatches s' = dispatches s -> drivers s' = drivers s -> vehicles s' = vehicles s ->
  fleet_exclusive s -> fleet_exclusive s'.
Proof. unfold fleet_exclusive. intros -> -> ->. exact (fun H => H). Qed.

Lemma nth_error_app_last_inv {A} (l : list A) (x y : A) (j : nat) :
  nth_error (l ++ [x]) j = Some y -> nth_error l j = Some y \/ y = x.
Proof.
  intros Hj. destruct (Nat.lt_ge_cases j (List.length l)) as [Hlt | Hge].
  - left. rewrite nth_error_app1 in Hj by exact Hlt. exact Hj.
  - right. rewrite nth_error_app2 in Hj by exact Hge.
    destruct (j - List.length l)%nat as [| k]; simpl in Hj; [congruence |].
    destruct k; discriminate.
Qed.

Lemma fleet_append (s s' : db R) (d : dispatch R) :
  dispatches s' = dispatches s ++ [d] -> in_transit d = false ->
  drivers s' = drivers s -> vehicles s' = vehicles s ->
  fleet_exclusive s -> fleet_exclusive s'.
Proof.
  intros Ed Hd Edr Ev (Hdr & Hv & Hheld & Hpair).
  unfold fleet_exclusive. rewrite Ed, Edr, Ev.
  split; [exact Hdr |]. split; [exact Hv |]. split.
  - intros i d' Hi Ht. destruct (nth_error_app_last_inv _ _ _ _ Hi) as [Hi' | ->];
      [exact (Hheld i d' Hi' Ht) | congruence].
  - intros i j d1 d2 Hij Hi Hj Ht1 Ht2.
    destruct (nth_error_app_last_inv _ _ _ _ Hi) as [Hi' | ->]; [| congruence].
    destruct (nth_error_app_last_inv _ _ _ _ Hj) as [Hj' | ->]; [| congruence].
    exact (Hpair i j d1 d2 Hij Hi' Hj' Ht1 Ht2).
Qed.

End FleetInvariant.

Section FleetSteps.
Context {R : Type} `{PyNum R}.

(** A driver picked as idle is held by no dispatch in transit. *)
Lemma idle_driver_free (s : db R) (dj : nat) (dr : driver) (i : nat) (d : dispatch R) :
  fleet_exclusive s -> nth_error (drivers s) dj = Some dr -> idle_driver dr = true ->
  nth_error (dispatches s) i = Some d -> in_transit d = true ->
  Driver_Assigned d <> driver_id dr.
Proof.
  intros (Hdr & _ & Hheld & _) Hdj Hidle Hd Ht E.
  destruct (proj1 (Hheld i d Hd Ht)) as (k & dr' & Hk & Hid & Hbusy).
  assert (k = dj) as ->
    by (apply (NoDup_map_nth_error driver_id (drivers s) k dj dr' dr Hdr Hk Hdj); congruence).
  congruence.
Qed.

Lemma idle_vehicle_free (s : db R) (vk : nat) (v : vehicle) (i : nat) (d : dispatch R) :
  fleet_exclusive s -> nth_error (vehicles s) vk = Some v -> idle_vehicle v = true ->
  nth_error (dispatches s) i = Some d -> in_transit d = true ->
  Vehicle_Assigned d <> Vehicle_ID v.
Proof.
  intros (_ & Hv & Hheld & _) Hvk Hidle Hd Ht E.
  destruct (proj2 (Hheld i d Hd Ht)) as (k & v' & Hk & Hid & Hbusy).
  assert (k = vk) as ->
    by (apply (NoDup_map_nth_error Vehicle_ID (vehicles s) k vk v' v Hv Hk Hvk); congruence).
  congruence.
Qed.

Lemma assign_fleet (s : db R) :
  fleet_exclusive s -> fleet_exclusive (snd (dispatch_vehicle_service s)).
Proof.
  intros Hinv. pose proof Hinv as (Hdr & Hv & Hheld & Hpair).
  unfold dispatch_vehicle_service.
  destruct (find_one in_progress (dispatches s)) as [[di d] |] eqn:Ed; [| exact Hinv].
  destruct (find_one idle_driver (drivers s)) as [[dj dr] |] eqn:Edr; [| exact Hinv].
  destruct (find_one idle_vehicle (vehicles s)) as [[vk v] |] eqn:Ev; [| exact Hinv].
  destruct (find_one_some _ _ _ _ Edr) as (Hdj & Hidle_dr & _).
  destruct (find_one_some _ _ _ _ Ev) as (Hvk & Hidle_v & _).
  cbn [snd].
  rewrite (update_one_unique driver_id _ _ dj dr Hdr Hdj).
  rewrite (update_one_unique Vehicle_ID _ _ vk v Hv Hvk).
  unfold fleet_exclusive. cbn [dispatches drivers vehicles].
  split; [rewrite map_update_at_id by reflexivity; exact Hdr |].
  split; [rewrite map_update_at_id by reflexivity; exact Hv |].
  split.
  - intros i' d' Hd' Ht'.
    destruct (nth_error_update_at_inv _ _ _ _ _ Hd') as [(<- & d0 & Hd0 & ->) | (Hne & Hd0)].
    + split.
      * exists dj, (mkDriver (driver_id dr) (name dr) "Assigned").
        rewrite nth_error_update_at_eq, Hdj. repeat split.
      * exists vk, (mkVehicle (Vehicle_ID v) "In-Transit").
        rewrite nth_error_update_at_eq, Hvk. repeat split.
    + destruct (Hheld i' d' Hd0 Ht') as [(k & dr' & Hk & Hid & Hbusy) (k2 & v' & Hk2 & Hvid & Hvbusy)].
      split.
      * exists k, dr'. rewrite nth_error_update_at_neq; [auto |].
        intros ->. rewrite Hdj in Hk. congruence.
      * exists k2, v'. rewrite nth_error_update_at_neq; [auto |].
        intros ->. rewrite Hvk in Hk2. congruence.
  - intros i1 i2 d1 d2 Hne Hd1 Hd2 Ht1 Ht2.
    destruct (nth_error_update_at_inv _ _ _ _ _ Hd1) as [(<- & e1 & He1 & ->) | (Hne1 & He1)];
    destruct (nth_error_update_at_inv _ _ _ _ _ Hd2) as [(<- & e2 & He2 & ->) | (Hne2 & He2)].
    + contradiction.
    + cbn [Driver_Assigned Vehicle_Assigned assign_dispatch]. split.
      * apply not_eq_sym, (idle_driver_free s dj dr i2 d2 Hinv Hdj Hidle_dr He2 Ht2).
      * apply not_eq_sym, (idle_vehicle_free s vk v i2 d2 Hinv Hvk Hidle_v He2 Ht2).
    + cbn [Driver_Assigned Vehicle_Assigned assign_dispatch]. split.
      * exact (idle_driver_free s dj dr i1 d1 Hinv Hdj Hidle_dr He1 Ht1).
      * exact (idle_vehicle_free s vk v i1 d1 Hinv Hvk Hidle_v He1 Ht1).
    + exact (Hpair i1 i2 d1 d2 Hne He1 He2 Ht1 Ht2).
Qed.

Lemma receive_fleet (id : string) (now : Z) (s s' : db R) :
  fleet_exclusive s -> mark_dispatch_received_service id now s = Ok s' -> fleet_exclusive s'.
Proof.
  intros Hinv Hok. pose proof Hinv as (Hdr & Hv & Hheld & Hpair).
  unfold mark_dispatch_received_service, receive_read in Hok.
  destruct (find_one (dispatch_by_id id) (dispatches s)) as [[i d] |] eqn:Ef; [| discriminate].
  destruct (String.eqb (Status d) "In-Transit") eqn:Et; [| discriminate].
  injection Hok as <-.
  destruct (find_one_some _ _ _ _ Ef) as (Hi & _ & _).
  destruct (Hheld i d Hi Et) as [(k & dr & Hk & Hid & Hbusy) (k2 & v & Hk2 & Hvid & Hvbusy)].
  assert (Edisp : dispatches (receive_complete id now (receive_release d (receive_credit id d now s)))
                  = update_at i (complete_dispatch now) (dispatches s)).
  { unfold receive_complete at 1. cbn [dispatches]. rewrite receive_dispatches.
    unfold update_one. rewrite Ef. reflexivity. }
  assert (Edrv : drivers (receive_complete id now (receive_release d (receive_credit id d now s)))
                 = update_at k (fun x => mkDriver (driver_id x) (name x) "active") (drivers s)).
  { unfold receive_complete, receive_release, receive_credit.
    destruct (credit_destination _ _ _ _ _ _ _). cbn [drivers].
    rewrite <- Hid. exact (update_one_unique driver_id _ _ k dr Hdr Hk). }
  assert (Eveh : vehicles (receive_complete id now (receive_release d (receive_credit id d now s)))
                 = update_at k2 (fun x => mkVehicle (Vehicle_ID x) "Available") (vehicles s)).
  { unfold receive_complete, receive_release, receive_credit.
    destruct (credit_destination _ _ _ _ _ _ _). cbn [vehicles].
    rewrite <- Hvid. exact (update_one_unique Vehicle_ID _ _ k2 v Hv Hk2). }
  unfold fleet_exclusive. rewrite Edisp, Edrv, Eveh.
  assert (Hold : forall i' d', nth_error (update_at i (complete_dispatch now) (dispatches s)) i' = Some d' ->
                   in_transit d' = true -> i' <> i /\ nth_error (dispatches s) i' = Some d').
  { intros i' d' Hd' Ht'.
    destruct (nth_error_update_at_inv _ _ _ _ _ Hd') as [(<- & d0 & _ & ->) | (Hne & Hd0)].
    - cbn in Ht'. discriminate.
    - split; [auto | exact Hd0]. }
  split; [rewrite map_update_at_id by reflexivity; exact Hdr |].
  split; [rewrite map_update_at_id by reflexivity; exact Hv |].
  split.
  - intros i' d' Hd' Ht'. destruct (Hold i' d' Hd' Ht') as [Hne Hd0].
    destruct (Hpair i' i d' d Hne Hd0 Hi Ht' Et) as [Hndr Hnv].
    destruct (Hheld i' d' Hd0 Ht') as [(k' & dr' & Hk' & Hid' & Hbusy') (k2' & v' & Hk2' & Hvid' & Hvbusy')].
    split.
    + exists k', dr'. rewrite nth_error_update_at_neq; [auto |].
      intros ->. rewrite Hk in Hk'. congruence.
    + exists k2', v'. rewrite nth_error_update_at_neq; [auto |].
      intros ->. rewrite Hk2 in Hk2'. congruence.
  - intros i1 i2 d1 d2 Hne Hd1 Hd2 Ht1 Ht2.
    destruct (Hold i1 d1 Hd1 Ht1) as [_ He1]. destruct (Hold i2 d2 Hd2 Ht2) as [_ He2].
    exact (Hpair i1 i2 d1 d2 Hne He1 He2 Ht1 Ht2).
Qed.

Lemma core_step_fleet (s s' : db R) :
  core_step s s' -> fleet_exclusive s -> fleet_exclusive s'.
Proof.
  intros Hstep Hinv. destruct Hstep as [pl gen_no now s bn s' Hok | pl gen_no now s bn s' Hok
    | p from_hub to_hub qty new_id now s r s' Hok | s | id now s s' Hok].
  - destruct (register_fleet _ _ _ _ _ _ Hok) as (E1 & E2 & E3). exact (fleet_same s s' E1 E2 E3 Hinv).
  - destruct (update_fleet _ _ _ _ _ _ Hok) as (E1 & E2 & E3). exact (fleet_same s s' E1 E2 E3 Hinv).
  - destruct (dispatch_fleet _ _ _ _ _ _ _ _ _ Hok) as ((d & E1 & Hd) & E2 & E3).
    exact (fleet_append s s' d E1 Hd E2 E3 Hinv).
  - exact (assign_fleet s Hinv).
  - exact (receive_fleet id now s s' Hinv Hok).
Qed.

End FleetSteps.

Section FleetPlaceholder.
Context {R : Type} `{PyNum R}.

Lemma placeholder_update_at (g : dispatch R -> dispatch R) (i : nat) (s s' : db R) :
  (forall d, Status (g d) <> "In-Progress") ->
  dispatches s' = update_at i g (dispatches s) ->
  in_progress_placeholder s -> in_progress_placeholder s'.
Proof.
  intros Hg Ed Hs j d Hd Hst. rewrite Ed in Hd.
  destruct (nth_error_update_at_inv _ _ _ _ _ Hd) as [(_ & x & _ & ->) | (_ & Hx)].
  - exfalso. exact (Hg x Hst).
  - exact (Hs j d Hx Hst).
Qed.

Lemma dispatch_new_record (p from_hub to_hub new_id : string) (qty now : Z) (s : db R)
    (r : dispatch_result R) (s' : db R) :
  dispatch_inventory p from_hub to_hub qty new_id now s = Ok (r, s') ->
  exists d, dispatches s' = dispatches s ++ [d]
    /\ Driver_Assigned d = "In-Progress" /\ Vehicle_Assigned d = "In-Progress".
Proof.
  intros Hok. unfold dispatch_inventory, dispatch_read in Hok.
  destruct (negb (hub_exists from_hub (hubs s))); [discriminate |].
  destruct (negb (hub_exists to_hub (hubs s))); [discriminate |].
  destruct (total_available p from_hub (batches s) <? qty); [discriminate |].
  unfold dispatch_write in Hok.
  destruct (consume_fifo p from_hub now (fifo_cursor p from_hub (batches s)) qty
              (batches s) (stock_txns s) []) as [[[bs txs] tr] rem].
  injection Hok as _ <-. eexists. split; [reflexivity | split; reflexivity].
Qed.

Lemma core_step_placeholder (s s' : db R) :
  core_step s s' -> in_progress_placeholder s -> in_progress_placeholder s'.
Proof.
  intros Hstep Hs. destruct Hstep as [pl gen_no now s bn s' Hok | pl gen_no now s bn s' Hok
    | p from_hub to_hub qty new_id now s r s' Hok | s | id now s s' Hok].
  - destruct (register_fleet _ _ _ _ _ _ Hok) as (E1 & _ & _).
    unfold in_progress_placeholder. rewrite E1. exact Hs.
  - destruct (update_fleet _ _ _ _ _ _ Hok) as (E1 & _ & _).
    unfold in_progress_placeholder. rewrite E1. exact Hs.
  - destruct (dispatch_new_record _ _ _ _ _ _ _ _ _ Hok) as (d & E1 & Hdr & Hv).
    intros j d' Hd' Hst. rewrite E1 in Hd'.
    destruct (nth_error_app_last_inv _ _ _ _ Hd') as [Hj | ->];
      [exact (Hs j d' Hj Hst) | split; assumption].
  - unfold dispatch_vehicle_service.
    destruct (find_one in_progress (dispatches s)) as [[di d] |]; [| exact Hs].
    destruct (find_one idle_driver (drivers s)) as [[dj dr] |]; [| exact Hs].
    destruct (find_one idle_vehicle (vehicles s)) as [[vk v] |]; [| exact Hs].
    apply (placeholder_update_at (assign_dispatch dr v) di s); [| reflexivity | exact Hs].
    intros d' E. discriminate E.
  - unfold mark_dispatch_received_service in Hok.
    destruct (receive_read id s) as [d | e]; [| discriminate].
    injection Hok as <-.
    assert (Ed : dispatches (receive_complete id now (receive_release d (receive_credit id d now s)))
                 = update_one (dispatch_by_id id) (complete_dispatch now) (dispatches s)).
    { unfold receive_complete at 1. cbn [dispatches]. rewrite receive_dispatches. reflexivity. }
    unfold update_one in Ed.
    destruct (find_one (dispatch_by_id id) (dispatches s)) as [[i d0] |].
    + apply (placeholder_update_at (complete_dispatch now) i s); [| exact Ed | exact Hs].
      intros d' E. discriminate E.
    + unfold in_progress_placeholder. rewrite Ed. exact Hs.
Qed.

End FleetPlaceholder.

Section FleetClaims.
Context {R : Type} `{PyNum R}.

(** C9 (as the code does it): when the core service calls run one at a
    time, every state reached from one where each dispatch in transit
    holds its own busy driver and vehicle (with unique driver and vehicle
    ids, and each dispatch in [In-Progress] holding only the
    ["In-Progress"] placeholder) is again such a state: no two dispatches
    in transit hold the same driver or the same vehicle, and the dispatches
    in [In-Progress] hold no driver or vehicle but the placeholder. *)
Theorem fleet_exclusive_reachable (s0 s : db R) :
  fleet_exclusive s0 -> in_progress_placeholder s0 ->
  clos_refl_trans (db R) core_step s0 s ->
  fleet_exclusive s
  /\ (forall i j d1 d2, i <> j ->
        nth_error (dispatches s) i = Some d1 -> nth_error (dispatches s) j = Some d2 ->
        in_transit d1 = true -> in_transit d2 = true ->
        Driver_Assigned d1 <> Driver_Assigned d2 /\ Vehicle_Assigned d1 <> Vehicle_Assigned d2)
  /\ (forall i d, nth_error (dispatches s) i = Some d -> Status d = "In-Progress" ->
        Driver_Assigned d = "In-Progress" /\ Vehicle_Assigned d = "In-Progress").
Proof.
  intros Hinv Hph Hreach.
  assert (Hs : fleet_exclusive s /\ in_progress_placeholder s).
  { induction Hreach as [x y Hstep | x | x y z _ IH1 _ IH2].
    - exact (conj (core_step_fleet x y Hstep Hinv) (core_step_placeholder x y Hstep Hph)).
    - exact (conj Hinv Hph).
    - destruct (IH1 Hinv Hph) as [Hy Hyp]. exact (IH2 Hy Hyp). }
  destruct Hs as [Hs Hsp].
  split; [exact Hs |]. split; [exact (proj2 (proj2 (proj2 Hs))) | exact Hsp].
Qed.

End FleetClaims.

(** C9 fails as stated: [mark_dispatch_received_service] releases the
    driver and the vehicle (step 3) before it completes the dispatch
    (step 4), with [await]s in between.  An assignment that runs in that
    gap gives the released driver [DRV1] and vehicle [VH1] to [DSP2] while
    [DSP1] is still in transit with them. *)
Lemma receive_assign_interleaving :
  exists s d d1 d2,
    demo_fleet_state = Ok s /\ receive_read "DSP1" s = Ok d
    /\ nth_error (dispatches (snd (dispatch_vehicle_service
                   (receive_release d (receive_credit "DSP1" d 5 s))))) 0 = Some d1
    /\ nth_error (dispatches (snd (dispatch_vehicle_service
                   (receive_release d (receive_credit "DSP1" d 5 s))))) 1 = Some d2
    /\ dispatch_id d1 = "DSP1" /\ dispatch_id d2 = "DSP2"
    /\ in_transit d1 = true /\ in_transit d2 = true
    /\ Driver_Assigned d1 = "DRV1" /\ Driver_Assigned d2 = "DRV1"
    /\ Vehicle_Assigned d1 = "VH1" /\ Vehicle_Assigned d2 = "VH1".
Proof.
  do 4 eexists.
  split; [vm_compute; reflexivity |].
  split; [vm_compute; reflexivity |].
  split; [vm_compute; reflexivity |].
  split; [vm_compute; reflexivity |].
  repeat split; reflexivity.
Qed.

Section FleetWitness.

Lemma fleet_exclusive_reachable_witness :
  exists s, demo_fleet_state = Ok s
    /\ fleet_exclusive demo_db /\ in_progress_placeholder demo_db
    /\ clos_refl_trans (db float) core_step demo_db s
    /\ fleet_exclusive s /\ in_progress_placeholder s.
Proof.
  eexists. split; [vm_compute; reflexivity |].
  assert (P0 : in_progress_placeholder demo_db).
  { intros [| i] d Hd; discriminate Hd. }
  assert (H0 : fleet_exclusive demo_db).
  { unfold fleet_exclusive. cbn [demo_db dispatches drivers vehicles map].
    split; [constructor; [intros [] | constructor] |].
    split; [constructor; [intros [] | constructor] |].
    split; [intros [| i] d Hd; discriminate Hd |].
    intros [| i] j d1 d2 _ Hd; discriminate Hd. }
  match goal with
  | |- _ /\ _ /\ clos_refl_trans _ _ _ ?t /\ _ =>
      assert (Hr : clos_refl_trans (db float) core_step demo_db t)
  end.
  { eapply rt_trans.
    { apply rt_step.
      eapply (step_register (mkRegister "HUB_A" "P1" 20 800%float 20261201 None None)
                "GEN1" 1 demo_db "GEN1").
      vm_compute; reflexivity. }
    eapply rt_trans.
    { apply rt_step. eapply (step_dispatch "P1" "HUB_A" "HUB_B" 10 "DSP1" 2).
      vm_compute; reflexivity. }
    eapply rt_trans; [apply rt_step; apply step_assign |].
    apply rt_step. eapply (step_dispatch "P1" "HUB_A" "HUB_B" 10 "DSP2" 4).
    vm_compute; reflexivity. }
  split; [exact H0 |]. split; [exact P0 |]. split; [exact Hr |].
  destruct (fleet_exclusive_reachable demo_db _ H0 P0 Hr) as (Hf & _ & Hp).
  split; [exact Hf | exact Hp].
Defined.

End FleetWitness.

(** C3 fails: the round trip keeps the product's total stock and the batch
    number, but not the cost basis.  After 30 of 100 units bought at 40 per
    unit move from [HUB_A] to [HUB_B], the total is still 100 and the
    destination batch has the source's batch number, but it has no
    [Purchase_Unit_Price]: the receiving upsert sets only [Quantity],
    [status] and [last_updated], and the unit cost is kept only in the IN
    transaction.  A later dispatch from [HUB_B] then costs those units at
    0.0. *)
Theorem transfer_drops_unit_cost :
  exists s1 s4 src dst,
    demo_transfer = Ok (s1, s4)
    /\ sumZ (product_stock "P1") (batches s4) = sumZ (product_stock "P1") (batches s1)
    /\ nth_error (batches s4) 0 = Some src /\ nth_error (batches s4) 1 = Some dst
    /\ Hub_ID src = "HUB_A" /\ Hub_ID dst = "HUB_B"
    /\ Batch_No dst = Batch_No src /\ Quantity dst = 30
    /\ Purchase_Unit_Price src = Some 40%float
    /\ Purchase_Unit_Price dst = None
    /\ map (@tx_unit_price float) (filter (fun t => String.eqb (tx_hub t) "HUB_B") (stock_txns s4))
       = [40%float]
    /\ exists r s5,
         dispatch_inventory "P1" "HUB_B" "HUB_A" 10 "DSP2" 5 s4 = Ok (r, s5)
         /\ map (@c_Unit_Cost float) (r_Batch_Consumption r) = [0%float].
Proof.
  do 4 eexists.
  split; [vm_compute; reflexivity |].
  split; [vm_compute; reflexivity |].
  split; [vm_compute; reflexivity |].
  split; [vm_compute; reflexivity |].
  split; [reflexivity |]. split; [reflexivity |].
  split; [reflexivity |]. split; [reflexivity |].
  split; [reflexivity |]. split; [reflexivity |].
  split; [vm_compute; reflexivity |].
  do 2 eexists. split; [vm_compute; reflexivity |]. vm_compute. reflexivity.
Qed.

(* ==================================================================== *)
(** * Further properties of the services *)

(** ** [_normalize_id] *)

Section StripFacts.

Lemma str_take_drop (n : nat) (s : string) : (str_take n s ++ str_drop n s)%string = s.
Proof.
  revert s; induction n as [| n IH]; intros [| a r]; simpl; try reflexivity.
  f_equal. apply IH.
Qed.

Lemma str_drop_length (n : nat) (s : string) :
  (String.length (str_drop n s) <= String.length s)%nat.
Proof.
  revert s; induction n as [| n IH]; intros [| a r]; simpl; try lia.
  specialize (IH r). lia.
Qed.

(** Taking [n] bytes back off [s[:n] + x] gives [s[:n]] and [x], when [x]
    is empty as soon as [s] has no more than [n] bytes. *)
Lemma str_take_app (n : nat) (r x : string) :
  (str_drop n r = EmptyString -> x = EmptyString) ->
  str_take n (str_take n r ++ x) = str_take n r /\ str_drop n (str_take n r ++ x) = x.
Proof.
  revert r; induction n as [| n IH]; intros [| b r] Hx; simpl.
  - split; reflexivity.
  - split; reflexivity.
  - rewrite (Hx eq_refl). split; reflexivity.
  - destruct (IH r Hx) as [E1 E2]. rewrite E1, E2. split; reflexivity.
Qed.

Lemma utf8_chars_fuel_irrel (f1 f2 : nat) (s : string) :
  (String.length s <= f1)%nat -> (String.length s <= f2)%nat ->
  utf8_chars_fuel f1 s = utf8_chars_fuel f2 s.
Proof.
  revert f2 s; induction f1 as [| f1 IH]; intros [| f2] [| a r] H1 H2; simpl in *;
    try reflexivity; try lia.
  f_equal. apply IH.
  - pose proof (str_drop_length (Nat.pred (utf8_len a)) r). lia.
  - pose proof (str_drop_length (Nat.pred (utf8_len a)) r). lia.
Qed.

Lemma utf8_chars_cons (a : Ascii.ascii) (r : string) :
  utf8_chars (String a r)
  = String a (str_take (Nat.pred (utf8_len a)) r)
      :: utf8_chars (str_drop (Nat.pred (utf8_len a)) r).
Proof.
  unfold utf8_chars at 1. simpl. f_equal. apply utf8_chars_fuel_irrel; [| lia].
  apply str_drop_length.
Qed.

(** The characters put back together are the string. *)
Lemma utf8_chars_concat (s : string) : concat_str (utf8_chars s) = s.
Proof.
  remember (String.length s) as n eqn:En. revert s En.
  induction n as [n IH] using (well_founded_induction lt_wf). intros [| a r] En;
    [reflexivity |].
  rewrite utf8_chars_cons. simpl. f_equal.
  rewrite (IH (String.length (str_drop (Nat.pred (utf8_len a)) r))); [| | reflexivity].
  - apply str_take_drop.
  - pose proof (str_drop_length (Nat.pred (utf8_len a)) r). simpl in En. lia.
Qed.

(** A suffix of the characters of a string is the characters of a string. *)
Lemma utf8_chars_skipn (j : nat) (s : string) :
  exists t, skipn j (utf8_chars s) = utf8_chars t.
Proof.
  revert s; induction j as [| j IH]; intros [| a r].
  - exists EmptyString. reflexivity.
  - exists (String a r). reflexivity.
  - exists EmptyString. reflexivity.
  - rewrite utf8_chars_cons. apply IH.
Qed.

(** Putting back together a prefix of the characters and splitting again
    gives the same characters. *)
Lemma utf8_chars_firstn (k : nat) (t : string) :
  utf8_chars (concat_str (firstn k (utf8_chars t))) = firstn k (utf8_chars t).
Proof.
  remember (String.length t) as n eqn:En. revert k t En.
  induction n as [n IH] using (well_founded_induction lt_wf). intros k [| a r] En.
  - rewrite firstn_nil. reflexivity.
  - destruct k as [| k]; [reflexivity |].
    rewrite utf8_chars_cons. simpl. set (m := Nat.pred (utf8_len a)).
    set (x := concat_str (firstn k (utf8_chars (str_drop m r)))).
    destruct (str_take_app m r x) as [E1 E2].
    { intros Hd. unfold x. rewrite Hd, firstn_nil. reflexivity. }
    rewrite utf8_chars_cons. fold m. rewrite E1, E2. f_equal. unfold x.
    apply (IH (String.length (str_drop m r))); [| reflexivity].
    pose proof (str_drop_length m r). simpl in En. lia.
Qed.

Lemma utf8_chars_segment (j k : nat) (s : string) :
  utf8_chars (concat_str (firstn k (skipn j (utf8_chars s))))
  = firstn k (skipn j (utf8_chars s)).
Proof.
  destruct (utf8_chars_skipn j s) as (t & Et). rewrite Et. apply utf8_chars_firstn.
Qed.

Lemma drop_space_split (l : list string) :
  exists pre, Forall (fun c => py_isspace c = true) pre /\ l = pre ++ drop_space l.
Proof.
  induction l as [| c r IH]; simpl; [exists []; auto |].
  destruct (py_isspace c) eqn:Ec.
  - destruct IH as (pre & Hpre & Hr). exists (c :: pre). split; [constructor; auto |].
    simpl. f_equal. exact Hr.
  - exists []. auto.
Qed.

Lemma drop_space_no_lead (l : list string) : no_lead (drop_space l).
Proof.
  induction l as [| c r IH]; simpl; [exact I |].
  destruct (py_isspace c) eqn:Ec; [exact IH | exact Ec].
Qed.

Lemma drop_space_id (l : list string) : no_lead l -> drop_space l = l.
Proof.
  destruct l as [| c r]; simpl; [reflexivity |]. intros Hc. rewrite Hc. reflexivity.
Qed.

Lemma no_lead_rev_drop (l : list string) :
  no_lead l -> no_lead (rev (drop_space (rev l))).
Proof.
  intros Hl. destruct (drop_space_split (rev l)) as (pre & _ & Hsplit).
  assert (E : l = rev (drop_space (rev l)) ++ rev pre).
  { rewrite <- rev_app_distr, <- Hsplit, rev_involutive. reflexivity. }
  destruct (rev (drop_space (rev l))) as [| c r] eqn:Ed; simpl; [exact I |].
  rewrite E in Hl. exact Hl.
Qed.

End StripFacts.

Section SummaryFacts.
Context {R : Type}.

Lemma nearest_expiry_le (m : list (batch R)) (b : batch R) (e : Z) :
  In b m -> Expiry_Date b = Some e ->
  exists e0, nearest_expiry m = Some e0 /\ e0 <= e.
Proof.
  induction m as [| x r IH]; intros Hin He; [contradiction |].
  simpl. destruct Hin as [<- | Hin].
  - rewrite He. destruct (nearest_expiry r) as [y |]; simpl; eexists; split; eauto; lia.
  - destruct (IH Hin He) as (e0 & Hr & Hle). rewrite Hr.
    destruct (Expiry_Date x) as [y |]; simpl; eexists; split; eauto; lia.
Qed.

Lemma nearest_expiry_attained (m : list (batch R)) (e0 : Z) :
  nearest_expiry m = Some e0 -> exists b, In b m /\ Expiry_Date b = Some e0.
Proof.
  revert e0; induction m as [| x r IH]; intros e0; simpl; [discriminate |].
  destruct (Expiry_Date x) as [y |] eqn:Ex; destruct (nearest_expiry r) as [z |] eqn:Er;
    simpl; intros He.
  - injection He as <-. destruct (Z.min_spec y z) as [[_ ->] | [_ ->]].
    + exists x. auto.
    + destruct (IH z eq_refl) as (b & Hb & Hbe). exists b. auto.
  - injection He as <-. exists x. auto.
  - destruct (IH e0 He) as (b & Hb & Hbe). exists b. auto.
  - discriminate.
Qed.

End SummaryFacts.

Section ListingFacts.
Context {R : Type}.

Lemma sorted_skipn {A} (rel : A -> A -> Prop) (n : nat) (l : list A) :
  Sorted rel l -> Sorted rel (skipn n l).
Proof.
  revert l; induction n as [| n IH]; intros [| x r] Hs; simpl; auto.
  apply IH. apply Sorted_inv in Hs as [Hs _]. exact Hs.
Qed.

Lemma sorted_firstn {A} (rel : A -> A -> Prop) (n : nat) (l : list A) :
  Sorted rel l -> Sorted rel (firstn n l).
Proof.
  revert n; induction l as [| x r IH]; intros [| n] Hs; simpl; auto.
  apply Sorted_inv in Hs as [Hs Hhd]. constructor; [apply IH, Hs |].
  destruct n as [| n]; destruct r as [| y r']; simpl; auto.
  inversion Hhd; subst. constructor. assumption.
Qed.

Lemma in_firstn {A} (n : nat) (l : list A) (x : A) : In x (firstn n l) -> In x l.
Proof. intros H. rewrite <- (firstn_skipn n l). apply in_or_app. left. exact H. Qed.

Lemma in_skipn {A} (n : nat) (l : list A) (x : A) : In x (skipn n l) -> In x l.
Proof. intros H. rewrite <- (firstn_skipn n l). apply in_or_app. right. exact H. Qed.

Lemma mongo_limit_in {A} (n : Z) (l : list A) (x : A) : In x (mongo_limit n l) -> In x l.
Proof. unfold mongo_limit. destruct (n =? 0); [auto | apply in_firstn]. Qed.

Lemma mongo_limit_sorted {A} (rel : A -> A -> Prop) (n : Z) (l : list A) :
  Sorted rel l -> Sorted rel (mongo_limit n l).
Proof. unfold mongo_limit. destruct (n =? 0); [auto | apply sorted_firstn]. Qed.

Lemma expiry_le_total (x y : batch R) : expiry_le x y = false -> expiry_le y x = true.
Proof. unfold expiry_le. apply opt_le_total. Qed.

Lemma status_name_cases (st : batch_status) :
  In (status_name st) ["active"; "depleted"; "archived"].
Proof. destruct st; simpl; auto. Qed.

End ListingFacts.

Section QueryProperties.
Context {R : Type}.

(** [_normalize_id] removes exactly the leading and trailing whitespace
    characters, in the sense of [str.isspace]: the characters of the input
    are those of the result with whitespace-only characters before and
    after them, the result neither starts nor ends with whitespace, and
    normalising twice is the same as normalising once. *)
Theorem normalize_id_strips (s : string) :
  (exists lead trail,
      Forall (fun c => py_isspace c = true) lead
      /\ Forall (fun c => py_isspace c = true) trail
      /\ utf8_chars s = lead ++ utf8_chars (_normalize_id s) ++ trail)
  /\ no_lead (utf8_chars (_normalize_id s))
  /\ no_lead (rev (utf8_chars (_normalize_id s)))
  /\ _normalize_id (_normalize_id s) = _normalize_id s.
Proof.
  destruct (drop_space_split (utf8_chars s)) as (pre1 & Hp1 & E1).
  set (l1 := drop_space (utf8_chars s)) in *.
  destruct (drop_space_split (rev l1)) as (pre2 & Hp2 & E2).
  set (l2 := rev (drop_space (rev l1))).
  assert (El1 : l1 = l2 ++ rev pre2).
  { unfold l2. rewrite <- rev_app_distr, <- E2, rev_involutive. reflexivity. }
  assert (Hn : _normalize_id s = concat_str l2) by reflexivity.
  assert (Hc : utf8_chars (_normalize_id s) = l2).
  { rewrite Hn.
    assert (Ek : l2 = firstn (List.length l2) (skipn (List.length pre1) (utf8_chars s))).
    { rewrite E1. rewrite skipn_app, skipn_all, Nat.sub_diag. simpl.
      rewrite El1. rewrite firstn_app, firstn_all, Nat.sub_diag. simpl.
      rewrite app_nil_r. reflexivity. }
    rewrite Ek. apply utf8_chars_segment. }
  assert (Hl1 : no_lead l1) by apply drop_space_no_lead.
  assert (Hl2 : no_lead l2) by (apply no_lead_rev_drop, Hl1).
  assert (Hr2 : no_lead (rev l2)) by (unfold l2; rewrite rev_involutive; apply drop_space_no_lead).
  rewrite Hc. split; [| split; [exact Hl2 | split; [exact Hr2 |]]].
  - exists pre1, (rev pre2). split; [exact Hp1 |]. split; [apply Forall_rev, Hp2 |].
    rewrite E1 at 1. f_equal. exact El1.
  - rewrite Hn at 1. unfold _normalize_id at 1, py_strip.
    rewrite <- Hn, Hc, (drop_space_id l2 Hl2), (drop_space_id (rev l2) Hr2), rev_involutive.
    exact (eq_sym Hn).
Qed.

(** [get_product_summary] fails with [ProductNotFound] exactly when the
    normalised product id has no master record.  Otherwise its
    [Total_Quantity] is [_get_total_available] of the normalised ids (the
    amount [dispatch_inventory] checks against), [Batches_Count] is the
    number of active batches of the product at the hub, and [Nearest_Expiry]
    is the least expiry date among those batches that have one, or [None]
    when none has. *)
Theorem get_product_summary_aggregates (p h : string) (s : db R) :
  let p' := _normalize_id p in
  let h' := _normalize_id h in
  let live := fun b => batch_key p' h' b && is_active (status b) in
  (existsb (String.eqb p') (products s) = false ->
     get_product_summary p h s = Err (ProductNotFound p'))
  /\ (existsb (String.eqb p') (products s) = true ->
      exists sm, get_product_summary p h s = Ok sm
      /\ ps_Product_ID sm = p' /\ ps_Hub_ID sm = h'
      /\ ps_Total_Quantity sm = total_available p' h' (batches s)
      /\ ps_Batches_Count sm = Z.of_nat (count live (batches s))
      /\ (forall b e, In b (batches s) -> live b = true -> Expiry_Date b = Some e ->
            exists e0, ps_Nearest_Expiry sm = Some e0 /\ e0 <= e)
      /\ (forall e0, ps_Nearest_Expiry sm = Some e0 ->
            exists b, In b (batches s) /\ live b = true /\ Expiry_Date b = Some e0)).
Proof.
  intros p' h' live. unfold get_product_summary. fold p' h'.
  split; intros Hp; rewrite Hp; simpl; [reflexivity |].
  eexists. split; [reflexivity |]. simpl.
  split; [reflexivity |]. split; [reflexivity |]. split; [reflexivity |].
  split; [reflexivity |]. split.
  - intros b e Hb Hl He. apply (nearest_expiry_le _ b e); [| exact He].
    apply filter_In. split; [exact Hb | exact Hl].
  - intros e0 He0. destruct (nearest_expiry_attained _ e0 He0) as (b & Hb & Hbe).
    apply filter_In in Hb as [Hb Hl]. exists b. auto.
Qed.

(** A page of [list_inventory_batches]: a negative [skip] raises; otherwise
    [count] is the length of the page, a non-zero [limit] bounds it by
    [|limit|], the page is sorted by [Expiry_Date], and every batch on it
    is a stored batch of the stripped product and hub ids, with the
    lower-cased, stripped status when a non-empty status was given. *)
Theorem list_inventory_batches_page (p h : string) (st : option string)
    (skip limit : Z) (bs : list (batch R)) :
  (skip < 0 -> list_inventory_batches p h st skip limit bs = None)
  /\ (0 <= skip ->
      exists page, list_inventory_batches p h st skip limit bs
                   = Some (Z.of_nat (List.length page), page)
      /\ (limit <> 0 -> (List.length page <= Z.to_nat (Z.abs limit))%nat)
      /\ Sorted (fun a b => expiry_le a b = true) page
      /\ (forall b, In b page ->
            In b bs /\ Product_ID b = py_strip p /\ Hub_ID b = py_strip h
            /\ (forall x, nonempty st = Some x ->
                  status_name (status b) = py_lower (py_strip x)))).
Proof.
  unfold list_inventory_batches. split; intros Hs.
  - apply Z.ltb_lt in Hs. rewrite Hs. reflexivity.
  - assert (Hs' : (skip <? 0) = false) by (apply Z.ltb_ge; exact Hs). rewrite Hs'.
    eexists. split; [reflexivity |]. split; [| split].
    + intros Hl. unfold mongo_limit. apply Z.eqb_neq in Hl. rewrite Hl.
      apply firstn_le_length.
    + apply mongo_limit_sorted, sorted_skipn, sort_by_sorted, expiry_le_total.
    + intros b Hb. apply mongo_limit_in, in_skipn in Hb.
      apply (Permutation_in _ (Permutation_sym (sort_by_perm _ _))) in Hb.
      apply filter_In in Hb as [Hb Hm]. unfold listing_match in Hm.
      apply andb_true_iff in Hm as [Hm Hst]. apply andb_true_iff in Hm as [Hp Hh].
      apply String.eqb_eq in Hp, Hh.
      split; [exact Hb |]. split; [exact Hp |]. split; [exact Hh |].
      intros x Hx. rewrite Hx in Hst. apply String.eqb_eq in Hst. exact Hst.
Qed.

(** With [skip = 0] and [limit = 0] (no limit) [list_inventory_batches]
    lists every stored batch that matches the query.  A non-empty status
    that, stripped and lower-cased, is none of ["active"], ["depleted"] and
    ["archived"] lists nothing, on every page. *)
Theorem list_inventory_batches_all (p h : string) (st : option string) (bs : list (batch R)) :
  (exists page, list_inventory_batches p h st 0 0 bs = Some (Z.of_nat (List.length page), page)
    /\ Permutation page
         (filter (listing_match (py_strip p) (py_strip h)
                    (option_map (fun x => py_lower (py_strip x)) (nonempty st))) bs))
  /\ (forall x skip limit, nonempty st = Some x ->
        ~ In (py_lower (py_strip x)) ["active"; "depleted"; "archived"] -> 0 <= skip ->
        list_inventory_batches p h st skip limit bs = Some (0, [])).
Proof.
  unfold list_inventory_batches. split.
  - eexists. split; [reflexivity |]. unfold mongo_limit; simpl.
    apply Permutation_sym. destruct (nonempty st); apply sort_by_perm.
  - intros x skip limit Hx Hbad Hs. rewrite Hx.
    assert (Hs' : (skip <? 0) = false) by (apply Z.ltb_ge; exact Hs). rewrite Hs'.
    assert (E : filter (listing_match (py_strip p) (py_strip h) (Some (py_lower (py_strip x)))) bs
                = []).
    { induction bs as [| b r IH]; simpl; [reflexivity |].
      unfold listing_match at 1.
      destruct (String.eqb (status_name (status b)) (py_lower (py_strip x))) eqn:E.
      - apply String.eqb_eq in E. exfalso. apply Hbad. rewrite <- E. apply status_name_cases.
      - rewrite andb_false_r. exact IH. }
    rewrite E. simpl. rewrite skipn_nil. unfold mongo_limit.
    destruct (limit =? 0); [reflexivity |]. rewrite firstn_nil. reflexivity.
Qed.

End QueryProperties.

Section VehicleFacts.

Lemma NoDup_app_last {A} (l : list A) (x : A) : NoDup l -> ~ In x l -> NoDup (l ++ [x]).
Proof.
  intros Hnd Hx. apply (Permutation_NoDup (Permutation_cons_append l x)).
  constructor; assumption.
Qed.

Lemma vehicle_numbers_app (l1 l2 : list vehicle_doc) :
  vehicle_numbers (l1 ++ l2) = vehicle_numbers l1 ++ vehicle_numbers l2.
Proof. unfold vehicle_numbers. apply flat_map_app. Qed.

Lemma in_vehicle_numbers (vs : list vehicle_doc) (n : string) :
  In n (vehicle_numbers vs) -> exists d, In d vs /\ vd_Vehicle_Number d = Some n.
Proof.
  unfold vehicle_numbers. intros Hn. apply in_flat_map in Hn as (d & Hd & Hn).
  destruct (vd_Vehicle_Number d) as [m |] eqn:Em; [| contradiction].
  destruct Hn as [<- | []]. exists d. auto.
Qed.

Lemma map_update_at_at {A B} (f : A -> B) (g : A -> A) (l : list A) (i : nat) (x : A) :
  nth_error l i = Some x -> f (g x) = f x -> map f (update_at i g l) = map f l.
Proof.
  revert i; induction l as [| y r IH]; intros [| i] Hi Hg; simpl in *; try discriminate.
  - injection Hi as ->. rewrite Hg. reflexivity.
  - rewrite (IH i Hi Hg). reflexivity.
Qed.

Lemma nth_error_split {A} (l : list A) (i : nat) (x : A) :
  nth_error l i = Some x -> l = firstn i l ++ x :: skipn (S i) l.
Proof.
  revert i; induction l as [| y r IH]; intros [| i] Hi; simpl in *; try discriminate.
  - injection Hi as ->. reflexivity.
  - f_equal. exact (IH i Hi).
Qed.

Lemma length_remove_at {A} (l : list A) (i : nat) (x : A) :
  nth_error l i = Some x -> List.length (remove_at i l) = Nat.pred (List.length l).
Proof.
  intros Hi. unfold remove_at. rewrite (nth_error_split l i x Hi) at 3.
  rewrite !length_app. simpl. lia.
Qed.

Lemma criterion_spec (c field : option string) :
  criterion c field = true <-> (forall x, c = Some x -> field = Some x).
Proof.
  unfold criterion, opt_str_eqb. destruct c as [x |]; split.
  - destruct field as [y |]; [| discriminate]. intros E x' Ex.
    injection Ex as <-. apply String.eqb_eq in E. congruence.
  - intros Hf. rewrite (Hf x eq_refl). apply String.eqb_refl.
  - intros _ x' Ex. discriminate.
  - reflexivity.
Qed.

Lemma firstn_all_le {A} (n : nat) (l : list A) : (List.length l <= n)%nat -> firstn n l = l.
Proof. apply firstn_all2. Qed.

End VehicleFacts.

Section VehicleProperties.

(** [add_vehicle_service] answers 409 exactly when a stored vehicle has the
    same [Vehicle_ID] or the same [Vehicle_Number]; otherwise it appends the
    new document.  So it keeps [Vehicle_ID]s unique and [Vehicle_Number]s
    unique. *)
Theorem add_vehicle_keeps_unique (v : vehicle_create) (vs : list vehicle_doc) :
  (add_vehicle_service v vs = VErr VehicleConflict
   <-> exists d, In d vs /\ (vd_Vehicle_ID d = vc_Vehicle_ID v
                            \/ vd_Vehicle_Number d = Some (vc_Vehicle_Number v)))
  /\ (forall vs', add_vehicle_service v vs = VOk vs' ->
        vs' = vs ++ [mkVehicleDoc (vc_Vehicle_ID v) (Some (vc_Vehicle_Number v))
                       (vc_Capacity v) (Some (vc_Status v))]
        /\ (NoDup (map vd_Vehicle_ID vs) -> NoDup (map vd_Vehicle_ID vs'))
        /\ (NoDup (vehicle_numbers vs) -> NoDup (vehicle_numbers vs'))).
Proof.
  set (f := fun d => String.eqb (vd_Vehicle_ID d) (vc_Vehicle_ID v)
                     || opt_str_eqb (vd_Vehicle_Number d) (vc_Vehicle_Number v)).
  assert (Hf : forall d, f d = true <-> (vd_Vehicle_ID d = vc_Vehicle_ID v
                              \/ vd_Vehicle_Number d = Some (vc_Vehicle_Number v))).
  { intros d. unfold f, opt_str_eqb.
    destruct (String.eqb_spec (vd_Vehicle_ID d) (vc_Vehicle_ID v)) as [E1 | E1];
      destruct (vd_Vehicle_Number d) as [n |];
      try destruct (String.eqb_spec n (vc_Vehicle_Number v)) as [E2 | E2]; simpl;
      (split; [intros H | intros [H | H]]); try congruence;
      try (right; congruence); auto. }
  unfold add_vehicle_service. fold f.
  destruct (find_one f vs) as [[i d] |] eqn:Hfind.
  - destruct (find_one_some _ _ _ _ Hfind) as (Hi & Hd & _).
    split; [| intros vs' E; discriminate E].
    split; [intros _ | reflexivity]. exists d. split; [exact (nth_error_In _ _ Hi) |].
    apply Hf, Hd.
  - pose proof (find_one_none _ _ Hfind) as Hnone. split.
    + split; [intros E; discriminate E |]. intros (d & Hd & Hc).
      apply Hf in Hc. rewrite (Hnone d Hd) in Hc. discriminate.
    + intros vs' E. injection E as <-. split; [reflexivity |]. split.
      * intros Hnd. rewrite map_app. apply NoDup_app_last; [exact Hnd |].
        intros Hin. apply in_map_iff in Hin as (d & Hd & Hin).
        assert (Ht : f d = true) by (apply Hf; left; exact Hd).
        rewrite (Hnone d Hin) in Ht. discriminate.
      * intros Hnd. rewrite vehicle_numbers_app. apply NoDup_app_last; [exact Hnd |].
        intros Hin. apply in_vehicle_numbers in Hin as (d & Hin & Hd).
        assert (Ht : f d = true) by (apply Hf; right; exact Hd).
        rewrite (Hnone d Hin) in Ht. discriminate.
Qed.

(** [update_vehicle_service] rejects a non-empty [Status] outside the four
    allowed values before it looks the vehicle up.  On success it rewrites
    only the first document with the given [Vehicle_ID], keeps every
    [Vehicle_ID] (so unique ids stay unique), and leaves that document's
    [Status] unchanged, null, empty or one of the four allowed values. *)
Theorem update_vehicle_frame (u : vehicle_update) (vs : list vehicle_doc) :
  (status_rejected u = true -> update_vehicle_service u vs = VErr InvalidStatus)
  /\ (forall vs', update_vehicle_service u vs = VOk vs' ->
        map vd_Vehicle_ID vs' = map vd_Vehicle_ID vs
        /\ exists i d, nth_error vs i = Some d /\ vd_Vehicle_ID d = vu_Vehicle_ID u
           /\ (forall j d', (j < i)%nat -> nth_error vs j = Some d' ->
                 vd_Vehicle_ID d' <> vu_Vehicle_ID u)
           /\ nth_error vs' i = Some (apply_vehicle_update u d)
           /\ (forall j, j <> i -> nth_error vs' j = nth_error vs j)
           /\ (vd_Status (apply_vehicle_update u d) = vd_Status d
               \/ vd_Status (apply_vehicle_update u d) = None
               \/ vd_Status (apply_vehicle_update u d) = Some ""
               \/ exists x, vd_Status (apply_vehicle_update u d) = Some x
                            /\ In x VALID_STATUSES)).
Proof.
  unfold update_vehicle_service. split; [intros ->; reflexivity |].
  intros vs' Hok. destruct (status_rejected u) eqn:Hrej; [discriminate |].
  destruct (find_one _ vs) as [[i d] |] eqn:Hfind; [| discriminate].
  injection Hok as <-.
  destruct (find_one_some _ _ _ _ Hfind) as (Hi & Hd & Hbefore).
  apply String.eqb_eq in Hd.
  split; [apply (map_update_at_at _ _ _ _ d Hi); simpl; congruence |].
  exists i, d. split; [exact Hi |]. split; [exact Hd |]. split.
  { intros j d' Hj Hd'. apply String.eqb_neq. exact (Hbefore j d' Hj Hd'). }
  split; [rewrite nth_error_update_at_eq, Hi; reflexivity |].
  split; [intros j Hj; apply nth_error_update_at_neq; auto |].
  unfold apply_vehicle_update; simpl. unfold status_rejected in Hrej.
  destruct (vu_Status u) as [[x |] |]; [| right; left; reflexivity | left; reflexivity].
  destruct (String.eqb x "") eqn:Ex.
  - apply String.eqb_eq in Ex. subst x. right; right; left; reflexivity.
  - cbn [negb andb] in Hrej.
    right; right; right. exists x. split; [reflexivity |].
    apply negb_false_iff, existsb_exists in Hrej as (y & Hy & Exy).
    apply String.eqb_eq in Exy. subst y. exact Hy.
Qed.

(** [delete_vehicle_service] answers 404 exactly when no vehicle has both
    the given [Vehicle_ID] and [Vehicle_Number].  Otherwise it moves the
    first such document from [vehicles] to the end of [ClosedVehicles]:
    [vehicles] loses one document, and nothing is lost or duplicated across
    the two collections. *)
Theorem delete_vehicle_moves (vid num : string) (vs closed : list vehicle_doc) :
  (delete_vehicle_service vid num vs closed = VErr VehicleNotFound
   <-> forall d, In d vs -> ~ (vd_Vehicle_ID d = vid /\ vd_Vehicle_Number d = Some num))
  /\ (forall vs' closed', delete_vehicle_service vid num vs closed = VOk (vs', closed') ->
        Permutation (vs ++ closed) (vs' ++ closed')
        /\ List.length vs' = Nat.pred (List.length vs)
        /\ exists d, closed' = closed ++ [d] /\ In d vs
                     /\ vd_Vehicle_ID d = vid /\ vd_Vehicle_Number d = Some num).
Proof.
  set (f := fun d => String.eqb (vd_Vehicle_ID d) vid && opt_str_eqb (vd_Vehicle_Number d) num).
  assert (Hf : forall d, f d = true <-> (vd_Vehicle_ID d = vid /\ vd_Vehicle_Number d = Some num)).
  { intros d. unfold f, opt_str_eqb.
    destruct (String.eqb_spec (vd_Vehicle_ID d) vid) as [E1 | E1];
      destruct (vd_Vehicle_Number d) as [n |];
      try destruct (String.eqb_spec n num) as [E2 | E2]; simpl;
      (split; [intros H | intros [H1 H2]]); try congruence; split; congruence. }
  unfold delete_vehicle_service. fold f.
  destruct (find_one f vs) as [[i d] |] eqn:Hfind.
  - destruct (find_one_some _ _ _ _ Hfind) as (Hi & Hd & _). split.
    + split; [intros E; discriminate E |]. intros Hall.
      exfalso. apply (Hall d (nth_error_In _ _ Hi)). apply Hf, Hd.
    + intros vs' closed' E. injection E as <- <-.
      split; [| split; [exact (length_remove_at vs i d Hi) |]].
      * unfold remove_at. rewrite (nth_error_split vs i d Hi) at 1.
        rewrite <- app_assoc. simpl.
        apply Permutation_trans with (d :: firstn i vs ++ skipn (S i) vs ++ closed).
        -- apply Permutation_sym, Permutation_middle.
        -- rewrite app_assoc, (app_assoc _ closed [d]). apply Permutation_cons_append.
      * exists d. split; [reflexivity |]. split; [exact (nth_error_In _ _ Hi) |].
        apply Hf, Hd.
  - pose proof (find_one_none _ _ Hfind) as Hnone. split.
    + split; [intros _ | reflexivity]. intros d Hd Hc. apply Hf in Hc.
      rewrite (Hnone d Hd) in Hc. discriminate.
    + intros vs' closed' E. discriminate E.
Qed.

(** [search_vehicle_service] answers 400 when every criterion is missing or
    empty.  Otherwise it returns at most 100 stored vehicles, in their stored
    order, each matching every non-empty criterion; when at most 100 vehicles
    match, it returns all of them. *)
Theorem search_vehicle_results (vid num st : option string) (vs : list vehicle_doc) :
  (nonempty vid = None -> nonempty num = None -> nonempty st = None ->
     search_vehicle_service vid num st vs = VErr NoSearchCriteria)
  /\ (forall res, search_vehicle_service vid num st vs = VOk res ->
        (List.length res <= 100)%nat
        /\ (forall d, In d res ->
              In d vs
              /\ (forall x, nonempty vid = Some x -> vd_Vehicle_ID d = x)
              /\ (forall x, nonempty num = Some x -> vd_Vehicle_Number d = Some x)
              /\ (forall x, nonempty st = Some x -> vd_Status d = Some x))
        /\ ((count (search_match (nonempty vid) (nonempty num) (nonempty st)) vs <= 100)%nat ->
            res = filter (search_match (nonempty vid) (nonempty num) (nonempty st)) vs)).
Proof.
  unfold search_vehicle_service. split.
  - intros -> -> ->. reflexivity.
  - intros res Hok.
    assert (E : res = firstn 100 (filter (search_match (nonempty vid) (nonempty num)
                                            (nonempty st)) vs)).
    { destruct (nonempty vid), (nonempty num), (nonempty st); try discriminate;
        injection Hok as <-; reflexivity. }
    subst res. split; [apply firstn_le_length |]. split.
    + intros d Hd. apply in_firstn, filter_In in Hd as [Hd Hm].
      unfold search_match in Hm. apply andb_true_iff in Hm as [Hm H3].
      apply andb_true_iff in Hm as [H1 H2].
      pose proof (proj1 (criterion_spec _ _) H1) as G1.
      pose proof (proj1 (criterion_spec _ _) H2) as G2.
      pose proof (proj1 (criterion_spec _ _) H3) as G3.
      split; [exact Hd |]. split; [| split; [exact G2 | exact G3]].
      intros x Hx. specialize (G1 x Hx). congruence.
    + intros Hc. apply firstn_all_le. exact Hc.
Qed.

End VehicleProperties.

Section StockInFacts.
Context {R : Type} `{PyNum R}.

Lemma batch_key_true (p h : string) (b : batch R) :
  batch_key p h b = true -> Product_ID b = p /\ Hub_ID b = h.
Proof.
  unfold batch_key. intros Hk. apply andb_true_iff in Hk as [Hp Hh].
  split; apply String.eqb_eq; assumption.
Qed.

(** Rewriting one document of [(p, h)] that keeps its key and adds [q] to
    its quantity. *)
Lemma stock_in_update (bs : list (batch R)) (i : nat) (b : batch R)
    (g : batch R -> batch R) (p h : string) (q : Z) :
  nth_error bs i = Some b -> batch_key p h b = true ->
  Product_ID (g b) = Product_ID b -> Hub_ID (g b) = Hub_ID b ->
  Batch_No (g b) = Batch_No b -> Quantity (g b) = Quantity b + q ->
  (forall p' h', sumZ (hub_stock p' h') (update_at i g bs)
                 = sumZ (hub_stock p' h') bs
                   + (if String.eqb p p' && String.eqb h h' then q else 0))
  /\ exists b', In b' (update_at i g bs) /\ Product_ID b' = p /\ Hub_ID b' = h
               /\ Batch_No b' = Batch_No b.
Proof.
  intros Hi Hk Hp Hh Hn Hq. destruct (batch_key_true _ _ _ Hk) as [Ep Eh].
  split.
  - intros p' h'. rewrite (sumZ_update_at _ _ _ _ b Hi).
    unfold hub_stock, batch_key. rewrite Hp, Hh, Hq, Ep, Eh.
    destruct (String.eqb p p' && String.eqb h h'); lia.
  - exists (g b). split; [| repeat split; congruence].
    apply nth_error_In with i. rewrite nth_error_update_at_eq, Hi. reflexivity.
Qed.

Lemma stock_in_append (bs : list (batch R)) (b : batch R) :
  (forall p' h', sumZ (hub_stock p' h') (bs ++ [b])
                 = sumZ (hub_stock p' h') bs
                   + (if String.eqb (Product_ID b) p' && String.eqb (Hub_ID b) h'
                      then Quantity b else 0))
  /\ In b (bs ++ [b]).
Proof.
  split.
  - intros p' h'. rewrite sumZ_app. unfold sumZ at 2, hub_stock, batch_key; simpl.
    destruct (String.eqb (Product_ID b) p' && String.eqb (Hub_ID b) h'); lia.
  - apply in_or_app. right. left. reflexivity.
Qed.

(** The product master upsert of [register_inventory]. *)
Lemma ensure_product (p : string) (ps : list string) :
  In p (if existsb (String.eqb p) ps then ps else ps ++ [p])
  /\ (NoDup ps -> NoDup (if existsb (String.eqb p) ps then ps else ps ++ [p])).
Proof.
  destruct (existsb (String.eqb p) ps) eqn:E.
  - split; [| exact (fun H => H)].
    apply existsb_exists in E as (y & Hy & Ey). apply String.eqb_eq in Ey. subst. exact Hy.
  - split.
    + apply in_or_app. right. left. reflexivity.
    + intros Hnd. apply NoDup_app_last; [exact Hnd |].
      intros Hin. assert (existsb (String.eqb p) ps = true) by
        (apply existsb_exists; exists p; split; [exact Hin | apply String.eqb_refl]).
      congruence.
Qed.

Lemma batch_no_filter_true (p h bn : string) (b : batch R) :
  batch_no_filter p h bn b = true -> batch_key p h b = true /\ Batch_No b = bn.
Proof.
  unfold batch_no_filter. intros Hf. apply andb_true_iff in Hf as [Hk Hn].
  split; [exact Hk | apply String.eqb_eq; exact Hn].
Qed.

Lemma expiry_filter_key (p h : string) (e : Z) (b : batch R) :
  expiry_filter p h e b = true -> batch_key p h b = true.
Proof.
  unfold expiry_filter. intros Hf. apply andb_true_iff in Hf as [Hf _].
  apply andb_true_iff in Hf as [Hk _]. exact Hk.
Qed.

End StockInFacts.

Section StockInProperties.
Context {R : Type} `{PyNum R}.

(** [register_inventory] fails with [HubNotFound] when the hub does not
    exist.  Otherwise it succeeds: the stock of its (product, hub) pair,
    whatever the batch status, grows by the registered quantity and the
    stock of every other pair is unchanged; the batch number it returns
    names a batch of that pair and is the given batch number, stripped,
    when one that is non-empty after the strip was given; exactly one [IN]
    transaction is logged, for that batch, the
    quantity, the value and the purchase reference; the product is in the
    product master afterwards, which gains no duplicate; the hubs and the
    dispatches are untouched. *)
Theorem register_inventory_effect (pl : register_payload R) (gen_no : string) (now : Z)
    (s : db R) :
  (hub_exists (rg_Hub_ID pl) (hubs s) = false ->
   register_inventory pl gen_no now s = Err (HubNotFound (rg_Hub_ID pl)))
  /\ (hub_exists (rg_Hub_ID pl) (hubs s) = true ->
      exists bn s', register_inventory pl gen_no now s = Ok (bn, s')
      /\ (forall p' h', sumZ (hub_stock p' h') (batches s')
                        = sumZ (hub_stock p' h') (batches s)
                          + (if String.eqb (rg_Product_ID pl) p' && String.eqb (rg_Hub_ID pl) h'
                             then rg_Quantity pl else 0))
      /\ (exists b, In b (batches s') /\ Product_ID b = rg_Product_ID pl
                    /\ Hub_ID b = rg_Hub_ID pl /\ Batch_No b = bn)
      /\ (forall bn0, given_batch_no (rg_Batch_No pl) = Some bn0 -> bn = bn0)
      /\ (exists tx, stock_txns s' = stock_txns s ++ [tx] /\ tx_type tx = IN
                     /\ tx_product tx = rg_Product_ID pl /\ tx_hub tx = rg_Hub_ID pl
                     /\ tx_batch_no tx = bn /\ tx_quantity tx = rg_Quantity pl
                     /\ tx_total_value tx = rg_Value pl /\ tx_reference tx = rg_Purchase_Ref pl)
      /\ In (rg_Product_ID pl) (products s')
      /\ (NoDup (products s) -> NoDup (products s'))
      /\ hubs s' = hubs s /\ dispatches s' = dispatches s).
Proof.
  unfold register_inventory. cbv zeta.
  split; intros Hh; rewrite Hh; cbn [negb]; [reflexivity |].
  destruct (ensure_product (rg_Product_ID pl) (products s)) as [Hin Hnd].
  destruct (given_batch_no (rg_Batch_No pl)) as [bn0 |] eqn:Hg.
  - destruct (find_one (batch_no_filter (rg_Product_ID pl) (rg_Hub_ID pl) bn0) (batches s))
      as [[i b] |] eqn:Hf.
    + destruct (find_one_some _ _ _ _ Hf) as (Hi & Hk & _).
      destruct (batch_no_filter_true _ _ _ _ Hk) as [Hk' Hn].
      do 2 eexists. split; [reflexivity |]. cbn [batches stock_txns products hubs dispatches].
      match goal with |- context [update_at i ?g (batches s)] =>
        edestruct (stock_in_update (batches s) i b g) as [Hs Hb];
          [exact Hi | exact Hk' | reflexivity .. |]
      end.
      split; [exact Hs |]. split; [exact Hb |].
      split; [intros bn1 E; injection E as <-; exact Hn |].
      split; [eexists; split; [reflexivity | repeat split] |].
      split; [exact Hin |]. split; [exact Hnd | split; reflexivity].
    + cbn [default]. rewrite Hf.
      edestruct (stock_in_append (batches s)) as [Hs Hb].
      do 2 eexists. split; [reflexivity |]. cbn [batches stock_txns products hubs dispatches].
      split; [exact Hs |]. split; [eexists; split; [exact Hb | repeat split] |].
      split; [intros bn1 E; injection E as <-; reflexivity |].
      split; [eexists; split; [reflexivity | repeat split] |].
      split; [exact Hin |]. split; [exact Hnd | split; reflexivity].
  - destruct (find_one (expiry_filter (rg_Product_ID pl) (rg_Hub_ID pl) (rg_Expiry_Date pl))
                (batches s)) as [[i b] |] eqn:Hf.
    + destruct (find_one_some _ _ _ _ Hf) as (Hi & Hk & _).
      do 2 eexists. split; [reflexivity |]. cbn [batches stock_txns products hubs dispatches].
      match goal with |- context [update_at i ?g (batches s)] =>
        edestruct (stock_in_update (batches s) i b g) as [Hs Hb];
          [exact Hi | exact (expiry_filter_key _ _ _ _ Hk) | reflexivity .. |]
      end.
      split; [exact Hs |]. split; [exact Hb |].
      split; [intros bn1 E; discriminate |].
      split; [eexists; split; [reflexivity | repeat split] |].
      split; [exact Hin |]. split; [exact Hnd | split; reflexivity].
    + cbn [default].
      destruct (find_one (batch_no_filter (rg_Product_ID pl) (rg_Hub_ID pl) gen_no) (batches s))
        as [[j c] |] eqn:Hf2.
      * destruct (find_one_some _ _ _ _ Hf2) as (Hj & Hk & _).
        destruct (batch_no_filter_true _ _ _ _ Hk) as [Hk' Hn].
        do 2 eexists. split; [reflexivity |]. cbn [batches stock_txns products hubs dispatches].
        match goal with |- context [update_at j ?g (batches s)] =>
          edestruct (stock_in_update (batches s) j c g) as [Hs (b' & Hb & Hp & Hh' & Hn')];
            [exact Hj | exact Hk' | reflexivity .. |]
        end.
        split; [exact Hs |].
        split; [exists b'; repeat split; [exact Hb | exact Hp | exact Hh' | congruence] |].
        split; [intros bn1 E; discriminate |].
        split; [eexists; split; [reflexivity | repeat split] |].
        split; [exact Hin |]. split; [exact Hnd | split; reflexivity].
      * edestruct (stock_in_append (batches s)) as [Hs Hb].
        do 2 eexists. split; [reflexivity |]. cbn [batches stock_txns products hubs dispatches].
        split; [exact Hs |]. split; [eexists; split; [exact Hb | repeat split] |].
        split; [intros bn1 E; discriminate |].
        split; [eexists; split; [reflexivity | repeat split] |].
        split; [exact Hin |]. split; [exact Hnd | split; reflexivity].
Qed.


(** [update_inventory] lets [DuplicateKeyError] escape only when no batch
    number was given (one that is empty after the strip, such as one of
    only whitespace, counts as none), no batch of the normalised pair
    matched the expiry date, and the generated batch number is already a
    batch number of that (product, hub) pair. *)
Theorem update_inventory_duplicate_key (pl : update_payload R) (gen_no : string) (now : Z)
    (s : db R) :
  update_inventory pl gen_no now s = Err DuplicateKeyError ->
  given_batch_no (up_Batch_No pl) = None
  /\ (forall e, up_Expiry_Date pl = Some e ->
      forall b, In b (batches s) ->
      expiry_filter (_normalize_id (up_Product_ID pl)) (_normalize_id (up_Hub_ID pl)) e b = false)
  /\ exists b, In b (batches s) /\ Product_ID b = _normalize_id (up_Product_ID pl)
               /\ Hub_ID b = _normalize_id (up_Hub_ID pl) /\ Batch_No b = gen_no.
Proof.
  unfold update_inventory. cbv zeta. intros Hok.
  destruct (negb (hub_exists (_normalize_id (up_Hub_ID pl)) (hubs s))); [discriminate |].
  destruct (negb (existsb (String.eqb (_normalize_id (up_Product_ID pl))) (products s))); [discriminate |].
  destruct (up_Quantity pl) as [q |]; [| discriminate].
  destruct (q =? 0); [discriminate |].
  destruct (given_batch_no (up_Batch_No pl)) as [bn0 |] eqn:Hg.
  - destruct (find_one (batch_no_filter (_normalize_id (up_Product_ID pl)) (_normalize_id (up_Hub_ID pl)) bn0) (batches s))
      as [[i b] |] eqn:Hf; [discriminate |].
    cbn [default] in Hok. rewrite Hf in Hok. discriminate.
  - split; [reflexivity |].
    destruct (up_Expiry_Date pl) as [e |] eqn:He.
    + destruct (find_one (expiry_filter (_normalize_id (up_Product_ID pl)) (_normalize_id (up_Hub_ID pl)) e) (batches s))
        as [[i b] |] eqn:Hf; [discriminate |].
      cbn [default] in Hok.
      destruct (find_one (batch_no_filter (_normalize_id (up_Product_ID pl)) (_normalize_id (up_Hub_ID pl)) gen_no) (batches s))
        as [[j c] |] eqn:Hf2; [| discriminate].
      split.
      * intros e' E. injection E as <-. exact (find_one_none _ _ Hf).
      * destruct (find_one_some _ _ _ _ Hf2) as (Hj & Hk & _).
        destruct (batch_no_filter_true _ _ _ _ Hk) as [Hk' Hn].
        destruct (batch_key_true _ _ _ Hk') as [Hp Hh].
        exists c. repeat split; [exact (nth_error_In _ _ Hj) | exact Hp | exact Hh | exact Hn].
    + cbn [default] in Hok.
      destruct (find_one (batch_no_filter (_normalize_id (up_Product_ID pl)) (_normalize_id (up_Hub_ID pl)) gen_no) (batches s))
        as [[j c] |] eqn:Hf2; [| discriminate].
      split; [intros e' E; discriminate |].
      destruct (find_one_some _ _ _ _ Hf2) as (Hj & Hk & _).
      destruct (batch_no_filter_true _ _ _ _ Hk) as [Hk' Hn].
      destruct (batch_key_true _ _ _ Hk') as [Hp Hh].
      exists c. repeat split; [exact (nth_error_In _ _ Hj) | exact Hp | exact Hh | exact Hn].
Qed.

End StockInProperties.

Section DispatchBooks.
Context {R : Type} `{PyNum R}.

(** The loop appends one [OUT] transaction per trace entry it appends. *)
Lemma consume_fifo_ledger (p h : string) (now : Z) (cur : list (nat * batch R)) :
  forall rem bs txs tr bs' txs' tr' rem',
  consume_fifo p h now cur rem bs txs tr = (bs', txs', tr', rem') ->
  exists added, tr' = tr ++ added /\ txs' = txs ++ map (out_txn p h) added.
Proof.
  induction cur as [| [i b] rest IH];
    intros rem bs txs tr bs' txs' tr' rem' Hrun; simpl in Hrun.
  - injection Hrun as <- <- <- _. exists []. rewrite !app_nil_r. split; reflexivity.
  - destruct (rem <=? 0).
    + injection Hrun as <- <- <- _. exists []. rewrite !app_nil_r. split; reflexivity.
    + destruct (Quantity b <=? 0); [exact (IH _ _ _ _ _ _ _ _ Hrun) |].
      destruct (IH _ _ _ _ _ _ _ _ Hrun) as (added & -> & ->).
      eexists. rewrite <- !app_assoc. split; [reflexivity |].
      simpl. reflexivity.
Qed.

(** The loop keeps the number of documents, and only rewrites active
    batches of [(p, h)], keeping every field but [Quantity], [status] and
    [last_updated]. *)
Lemma consume_fifo_frame (p h : string) (now : Z) (bs0 : list (batch R))
    (cur : list (nat * batch R)) :
  forall rem bs txs tr bs' txs' tr' rem',
  cursor_live p h bs cur ->
  (forall j c, In (j, c) cur -> nth_error bs j = nth_error bs0 j) ->
  pointwise (fun b0 b => b = b0 \/ (batch_key p h b0 && is_active (status b0) = true
                                    /\ same_identity b0 b)) bs0 bs ->
  List.length bs = List.length bs0 ->
  consume_fifo p h now cur rem bs txs tr = (bs', txs', tr', rem') ->
  pointwise (fun b0 b => b = b0 \/ (batch_key p h b0 && is_active (status b0) = true
                                    /\ same_identity b0 b)) bs0 bs'
  /\ List.length bs' = List.length bs0.
Proof.
  induction cur as [| [i b] rest IH];
    intros rem bs txs tr bs' txs' tr' rem' Hlive Hcur Hpw Hlen Hrun; simpl in Hrun.
  - injection Hrun as <- _ _ _. split; assumption.
  - destruct (rem <=? 0) eqn:Er; [injection Hrun as <- _ _ _; split; assumption |].
    apply Z.leb_gt in Er.
    pose proof (proj2 Hlive) as Hall.
    inversion Hall as [| ? ? (Hi & Hk & Hq) _]; subst; simpl in Hi, Hk, Hq.
    assert (Hq' : (Quantity b <=? 0) = false) by (apply Z.leb_gt; lia).
    rewrite Hq' in Hrun.
    set (take := if Quantity b <=? rem then Quantity b else rem) in Hrun.
    assert (Hi0 : nth_error bs0 i = Some b)
      by (rewrite <- (Hcur i b (or_introl eq_refl)); exact Hi).
    assert (Hnd : forall j c, In (j, c) rest -> j <> i).
    { intros j c Hin ->. destruct Hlive as [Hnd _]. inversion Hnd as [| ? ? Hnotin _]; subst.
      apply Hnotin. change i with (fst (i, c)). apply in_map, Hin. }
    rewrite nth_error_update_at_eq, Hi in Hrun; simpl in Hrun.
    destruct (Quantity b + - take <=? 0) eqn:Ez.
    + eapply IH; [| | | | exact Hrun].
      * eapply cursor_live_tail; [exact Hlive |].
        intros j Hj. rewrite !nth_error_update_at_neq by auto. reflexivity.
      * intros j c Hin. rewrite !nth_error_update_at_neq by (apply not_eq_sym, (Hnd j c Hin)).
        apply (Hcur j c). right. exact Hin.
      * apply (pointwise_replace _ bs0 bs _ i b
                 (set_status depleted now (inc_quantity (- take) now b)) Hpw).
        -- rewrite !length_update_at. reflexivity.
        -- intros j Hj. rewrite !nth_error_update_at_neq by auto. reflexivity.
        -- exact Hi0.
        -- rewrite nth_error_update_at_eq, nth_error_update_at_eq, Hi. reflexivity.
        -- right. split; [exact Hk |]. repeat split.
      * rewrite !length_update_at. exact Hlen.
    + eapply IH; [| | | | exact Hrun].
      * eapply cursor_live_tail; [exact Hlive |].
        intros j Hj. rewrite nth_error_update_at_neq by auto. reflexivity.
      * intros j c Hin. rewrite nth_error_update_at_neq by (apply not_eq_sym, (Hnd j c Hin)).
        apply (Hcur j c). right. exact Hin.
      * apply (pointwise_replace _ bs0 bs _ i b (inc_quantity (- take) now b) Hpw).
        -- rewrite length_update_at. reflexivity.
        -- intros j Hj. rewrite nth_error_update_at_neq by auto. reflexivity.
        -- exact Hi0.
        -- rewrite nth_error_update_at_eq, Hi. reflexivity.
        -- right. split; [exact Hk |]. repeat split.
      * rewrite length_update_at. exact Hlen.
Qed.

End DispatchBooks.

Section DispatchProperties.
Context {R : Type} `{PyNum R}.

(** A successful [dispatch_inventory] logs one [OUT] transaction per entry
    of the consumption trace it returns, in order, for the product and the
    source hub, and appends one [Dispatches] record under the generated
    id, in [In-Progress] with the unassigned sentinels, carrying the
    requested quantity and that trace. *)
Theorem dispatch_inventory_ledger (p from_hub to_hub new_id : string) (qty now : Z)
    (s : db R) (r : dispatch_result R) (s' : db R) :
  dispatch_inventory p from_hub to_hub qty new_id now s = Ok (r, s') ->
  r_dispatch_id r = new_id
  /\ stock_txns s' = stock_txns s ++ map (out_txn p from_hub) (r_Batch_Consumption r)
  /\ dispatches s' = dispatches s ++
       [mkDispatch new_id p from_hub to_hub qty (r_Batch_Consumption r)
          "In-Progress" "In-Progress" "In-Progress" None].
Proof.
  intros Hok. unfold dispatch_inventory, dispatch_read in Hok.
  destruct (negb (hub_exists from_hub (hubs s))); [discriminate |].
  destruct (negb (hub_exists to_hub (hubs s))); [discriminate |].
  destruct (total_available p from_hub (batches s) <? qty); [discriminate |].
  unfold dispatch_write in Hok.
  destruct (consume_fifo p from_hub now (fifo_cursor p from_hub (batches s)) qty
              (batches s) (stock_txns s) []) as [[[bs txs] tr] rem] eqn:Ec.
  injection Hok as <- <-. simpl.
  destruct (consume_fifo_ledger _ _ _ _ _ _ _ _ _ _ _ _ Ec) as (added & -> & ->).
  repeat split.
Qed.

(** A successful [dispatch_inventory] keeps the number of batch documents
    and rewrites only active batches of the product at the source hub,
    keeping all their fields but [Quantity], [status] and [last_updated];
    every other batch, the hubs and the product master are untouched. *)
Theorem dispatch_inventory_frame (p from_hub to_hub new_id : string) (qty now : Z)
    (s : db R) (r : dispatch_result R) (s' : db R) :
  dispatch_inventory p from_hub to_hub qty new_id now s = Ok (r, s') ->
  List.length (batches s') = List.length (batches s)
  /\ (forall j b0 b, nth_error (batches s) j = Some b0 -> nth_error (batches s') j = Some b ->
      b = b0 \/ (Product_ID b0 = p /\ Hub_ID b0 = from_hub /\ status b0 = active
                 /\ same_identity b0 b))
  /\ hubs s' = hubs s /\ products s' = products s.
Proof.
  intros Hok. unfold dispatch_inventory, dispatch_read in Hok.
  destruct (negb (hub_exists from_hub (hubs s))); [discriminate |].
  destruct (negb (hub_exists to_hub (hubs s))); [discriminate |].
  destruct (total_available p from_hub (batches s) <? qty); [discriminate |].
  unfold dispatch_write in Hok.
  destruct (consume_fifo p from_hub now (fifo_cursor p from_hub (batches s)) qty
              (batches s) (stock_txns s) []) as [[[bs txs] tr] rem] eqn:Ec.
  injection Hok as _ <-. simpl.
  destruct (consume_fifo_frame p from_hub now (batches s) _ _ _ _ _ _ _ _ _
              (fifo_cursor_live p from_hub (batches s)) (fun _ _ _ => eq_refl)
              (pointwise_refl _ _ (fun x => or_introl eq_refl)) eq_refl Ec)
    as [[_ Hpw] Hlen].
  split; [exact Hlen |]. split; [| split; reflexivity].
  intros j b0 b Hb0 Hb. destruct (Hpw j b0 b Hb0 Hb) as [E | [Hk Hid]]; [left; exact E |].
  right. apply andb_true_iff in Hk as [Hk Ha]. destruct (batch_key_true _ _ _ Hk) as [Hp Hh].
  split; [exact Hp |]. split; [exact Hh |]. split; [| exact Hid].
  destruct (status b0); try discriminate; reflexivity.
Qed.

End DispatchProperties.

Section ReceiveBooks.
Context {R : Type} `{PyNum R}.

Lemma credit_destination_ledger (id p to_hub : string) (now : Z)
    (trace : list (consumption R)) :
  forall bs txs bs' txs',
  credit_destination id p to_hub now trace bs txs = (bs', txs') ->
  txs' = txs ++ map (in_txn id p to_hub) trace.
Proof.
  induction trace as [| c rest IH]; intros bs txs bs' txs' Hrun; simpl in Hrun.
  - injection Hrun as _ <-. rewrite app_nil_r. reflexivity.
  - rewrite (IH _ _ _ _ Hrun), <- app_assoc. reflexivity.
Qed.

(** One receiving upsert: existing positions keep their document or get a
    batch of [(p, to_hub)] in [active]; documents of other pairs are kept;
    a new document, if any, is an active batch of [(p, to_hub)]. *)
Lemma upsert_received_frame (p to_hub : string) (now : Z) (bs : list (batch R))
    (c : consumption R) :
  let bs' := upsert_received p to_hub now bs c in
  (List.length bs <= List.length bs')%nat
  /\ (forall j b0, nth_error bs j = Some b0 -> batch_key p to_hub b0 = false ->
      nth_error bs' j = Some b0)
  /\ (forall j b0 b, nth_error bs j = Some b0 -> nth_error bs' j = Some b ->
      b = b0 \/ (Product_ID b = p /\ Hub_ID b = to_hub /\ status b = active))
  /\ (forall j b, nth_error bs j = None -> nth_error bs' j = Some b ->
      Product_ID b = p /\ Hub_ID b = to_hub /\ status b = active).
Proof.
  cbv zeta. unfold upsert_received.
  destruct (find_one (batch_no_filter p to_hub (c_Batch_No c)) bs) as [[i b1] |] eqn:Hf.
  - destruct (find_one_some _ _ _ _ Hf) as (Hi & Hk & _).
    destruct (batch_no_filter_true _ _ _ _ Hk) as [Hk' _].
    destruct (batch_key_true _ _ _ Hk') as [Hp Hh].
    split; [rewrite length_update_at; lia |].
    split; [| split].
    + intros j b0 Hj Hk0. destruct (Nat.eq_dec i j) as [<- | Hij].
      * rewrite Hi in Hj. injection Hj as <-. congruence.
      * rewrite nth_error_update_at_neq by exact Hij. exact Hj.
    + intros j b0 b Hj Hb. destruct (Nat.eq_dec i j) as [<- | Hij].
      * rewrite nth_error_update_at_eq, Hi in Hb. injection Hb as <-.
        right. simpl. repeat split; assumption.
      * rewrite nth_error_update_at_neq in Hb by exact Hij. left. congruence.
    + intros j b Hj Hb.
      destruct (nth_error_update_at_inv _ _ _ _ _ Hb) as [[_ (x & Hx & _)] | [_ Hx]]; congruence.
  - split; [rewrite length_app; simpl; lia |].
    split; [| split].
    + intros j b0 Hj _. rewrite nth_error_app1; [exact Hj |].
      apply nth_error_Some. congruence.
    + intros j b0 b Hj Hb. left. rewrite nth_error_app1 in Hb by (apply nth_error_Some; congruence).
      congruence.
    + intros j b Hj Hb. destruct (nth_error_app_last_inv _ _ _ _ Hb) as [E | ->]; [congruence |].
      repeat split.
Qed.

Lemma credit_destination_frame (id p to_hub : string) (now : Z)
    (trace : list (consumption R)) :
  forall bs txs bs' txs',
  credit_destination id p to_hub now trace bs txs = (bs', txs') ->
  (List.length bs <= List.length bs')%nat
  /\ (forall j b0, nth_error bs j = Some b0 -> batch_key p to_hub b0 = false ->
      nth_error bs' j = Some b0)
  /\ (forall j b0 b, nth_error bs j = Some b0 -> nth_error bs' j = Some b ->
      b = b0 \/ (Product_ID b = p /\ Hub_ID b = to_hub /\ status b = active))
  /\ (forall j b, nth_error bs j = None -> nth_error bs' j = Some b ->
      Product_ID b = p /\ Hub_ID b = to_hub /\ status b = active).
Proof.
  induction trace as [| c rest IH]; intros bs txs bs' txs' Hrun; simpl in Hrun.
  - injection Hrun as <- _. split; [lia |]. split; [auto |].
    split; [intros j b0 b Hj Hb; left; congruence | intros j b Hj Hb; congruence].
  - destruct (IH _ _ _ _ Hrun) as (L2 & K2 & C2 & N2).
    destruct (upsert_received_frame p to_hub now bs c) as (L1 & K1 & C1 & N1).
    set (bs1 := upsert_received p to_hub now bs c) in *.
    split; [lia |]. split; [| split].
    + intros j b0 Hj Hk. apply K2; [apply K1 |]; assumption.
    + intros j b0 b Hj Hb.
      destruct (nth_error bs1 j) as [b1 |] eqn:Hj1.
      * destruct (C1 j b0 b1 Hj Hj1) as [-> | F1]; [exact (C2 j b0 b Hj1 Hb) |].
        right. destruct (C2 j b1 b Hj1 Hb) as [-> | F2]; assumption.
      * exfalso. apply nth_error_None in Hj1. assert (Hs : nth_error bs j <> None) by congruence.
        apply nth_error_Some in Hs. lia.
    + intros j b Hj Hb.
      destruct (nth_error bs1 j) as [b1 |] eqn:Hj1.
      * pose proof (N1 j b1 Hj Hj1) as F1.
        destruct (C2 j b1 b Hj1 Hb) as [-> | F2]; assumption.
      * exact (N2 j b Hj1 Hb).
Qed.

End ReceiveBooks.

Section ReceiveProperties.
Context {R : Type} `{PyNum R}.

(** A successful [mark_dispatch_received_service] received the first
    dispatch with that id, which was [In-Transit].  It logs one [IN]
    transaction per entry of that dispatch's trace, in order, for the
    product and the destination hub, referencing the dispatch id; it never
    removes a batch document and keeps every document of another (product,
    hub) pair in place; a document it rewrites or adds is an active batch of
    the product at the destination hub; it marks that dispatch record, and
    no other, [Completed] with the arrival time; the hubs and the product
    master are untouched. *)
Theorem mark_received_books (id : string) (now : Z) (s s' : db R) :
  mark_dispatch_received_service id now s = Ok s' ->
  exists i d, find_one (dispatch_by_id id) (dispatches s) = Some (i, d)
  /\ Status d = "In-Transit"
  /\ stock_txns s' = stock_txns s
                     ++ map (in_txn id (d_Product_ID d) (To_Hub_ID d)) (Batch_Consumption d)
  /\ (List.length (batches s) <= List.length (batches s'))%nat
  /\ (forall j b0, nth_error (batches s) j = Some b0 ->
      batch_key (d_Product_ID d) (To_Hub_ID d) b0 = false ->
      nth_error (batches s') j = Some b0)
  /\ (forall j b0 b, nth_error (batches s) j = Some b0 -> nth_error (batches s') j = Some b ->
      b = b0 \/ (Product_ID b = d_Product_ID d /\ Hub_ID b = To_Hub_ID d /\ status b = active))
  /\ (forall j b, nth_error (batches s) j = None -> nth_error (batches s') j = Some b ->
      Product_ID b = d_Product_ID d /\ Hub_ID b = To_Hub_ID d /\ status b = active)
  /\ dispatches s' = update_at i (complete_dispatch now) (dispatches s)
  /\ hubs s' = hubs s /\ products s' = products s.
Proof.
  intros Hok. unfold mark_dispatch_received_service, receive_read in Hok.
  destruct (find_one (dispatch_by_id id) (dispatches s)) as [[i d] |] eqn:Hf; [| discriminate].
  destruct (String.eqb (Status d) "In-Transit") eqn:Hst; [| discriminate].
  injection Hok as <-.
  exists i, d. split; [reflexivity |]. split; [apply String.eqb_eq; exact Hst |].
  unfold receive_complete, receive_release, receive_credit.
  destruct (credit_destination id (d_Product_ID d) (To_Hub_ID d) now (Batch_Consumption d)
              (batches s) (stock_txns s)) as [bs txs] eqn:Ec.
  cbn [batches stock_txns dispatches hubs products].
  destruct (credit_destination_frame _ _ _ _ _ _ _ _ _ Ec) as (L & K & C & N).
  split; [exact (credit_destination_ledger _ _ _ _ _ _ _ _ _ Ec) |].
  split; [exact L |]. split; [exact K |]. split; [exact C |]. split; [exact N |].
  split; [unfold update_one; rewrite Hf; reflexivity |]. split; reflexivity.
Qed.

End ReceiveProperties.

Section ExtraWitnesses.

Lemma update_inventory_duplicate_key_witness :
  update_inventory (mkUpdate " HUB_A " " P1" (Some 5) None None (Some "  ")) "B-LATE" 100
    demo_stock = Err DuplicateKeyError
  /\ given_batch_no (Some "  ") = None
  /\ exists b, In b (batches demo_stock) /\ Product_ID b = "P1"
               /\ Hub_ID b = "HUB_A" /\ Batch_No b = "B-LATE".
Proof.
  assert (E : update_inventory (mkUpdate " HUB_A " " P1" (Some 5) None None (Some "  "))
                "B-LATE" 100 demo_stock = Err DuplicateKeyError) by (vm_compute; reflexivity).
  split; [exact E |].
  destruct (update_inventory_duplicate_key _ _ _ _ E) as (Hg & _ & Hb).
  split; [exact Hg |]. exact Hb.
Defined.

Lemma dispatch_inventory_ledger_witness :
  exists r s', dispatch_inventory "P1" "HUB_A" "HUB_B" 8 "DSP1" 100 demo_stock = Ok (r, s')
  /\ stock_txns s' = stock_txns demo_stock
                     ++ map (out_txn "P1" "HUB_A") (r_Batch_Consumption r).
Proof.
  assert (E : exists r s', dispatch_inventory "P1" "HUB_A" "HUB_B" 8 "DSP1" 100 demo_stock
                           = Ok (r, s')) by (do 2 eexists; vm_compute; reflexivity).
  destruct E as (r & s' & E). exists r, s'. split; [exact E |].
  exact (proj1 (proj2 (dispatch_inventory_ledger _ _ _ _ _ _ _ _ _ E))).
Defined.

Lemma dispatch_inventory_frame_witness :
  exists r s', dispatch_inventory "P1" "HUB_A" "HUB_B" 8 "DSP1" 100 demo_stock = Ok (r, s')
  /\ List.length (batches s') = List.length (batches demo_stock).
Proof.
  assert (E : exists r s', dispatch_inventory "P1" "HUB_A" "HUB_B" 8 "DSP1" 100 demo_stock
                           = Ok (r, s')) by (do 2 eexists; vm_compute; reflexivity).
  destruct E as (r & s' & E). exists r, s'. split; [exact E |].
  exact (proj1 (dispatch_inventory_frame _ _ _ _ _ _ _ _ _ E)).
Defined.

Lemma mark_received_books_witness :
  exists s s', demo_fleet_state = Ok s
  /\ mark_dispatch_received_service "DSP1" 9 s = Ok s'
  /\ (List.length (batches s) <= List.length (batches s'))%nat.
Proof.
  assert (E : exists s s', demo_fleet_state = Ok s
                           /\ mark_dispatch_received_service "DSP1" 9 s = Ok s')
    by (do 2 eexists; split; vm_compute; reflexivity).
  destruct E as (s & s' & E0 & E). exists s, s'. split; [exact E0 |]. split; [exact E |].
  destruct (mark_received_books _ _ _ _ E) as (i & d & _ & _ & _ & L & _). exact L.
Defined.

End ExtraWitnesses.
